(** * HyprDots: the dotfiles installer ([lib/modules/dotfiles.py])

    A shallow embedding of [DotfilesInstaller] and the properties of its
    seven-step pipeline.

    The installer is a sequential Python program with three kinds of
    effects: it mutates the filesystem through the helpers of
    [includes.library] and [pathlib], it writes to a logger and a progress
    spinner, and some of the calls it makes may raise.  The embedding is a
    small state/exception/writer monad: a computation takes the filesystem
    and returns an outcome (a value, or a raised exception), the new
    filesystem, and the list of events it emitted, in program order. *)

From Stdlib Require Import List String Ascii Bool Arith Lia.
Import ListNotations.
Open Scope string_scope.
Open Scope list_scope.

Set Implicit Arguments.

(** ** Paths

    A [pathlib.Path] is kept as the list of its components below the
    filesystem root; [p // x] is Python's [p / x] for a one-component [x]
    (every name the installer joins is a single component). *)

Definition Path := list string.

Definition joinpath (p : Path) (x : string) : Path := p ++ [x].
Notation "p // x" := (joinpath p x) (at level 40, left associativity).

Fixpoint str_segments (p : Path) : string :=
  match p with
  | [] => ""
  | x :: r => "/" ++ x ++ str_segments r
  end.

(** [str(path)], as the f-strings of the installer render it. *)
Definition str (p : Path) : string :=
  match p with
  | [] => "/"
  | _ => str_segments p
  end.

(** ** Exceptions and outcomes

    [exn] stands for the instances of Python's [Exception] that the
    modelled calls can raise: [subprocess.run(..., check=True)] raises
    [CalledProcessError] on a non-zero exit status and an [OSError] when the
    child cannot be spawned; the filesystem calls raise [OSError]s. *)

Inductive exn : Type :=
| CalledProcessError (returncode : nat) (msg : string)
| OSError (msg : string)
| OtherException (msg : string).

(** [str(e)], as interpolated into the log messages. *)
Definition exn_str (e : exn) : string :=
  match e with
  | CalledProcessError _ m => m
  | OSError m => m
  | OtherException m => m
  end.

Inductive outcome (A : Type) : Type :=
| Ret (a : A)
| Raise (e : exn).
Arguments Ret {A} a.
Arguments Raise {A} e.

(** ** Events

    Everything the installer does that is observable from outside: the
    records it writes to the logger, what it tells the spinner, its sleeps,
    and every call it makes to a filesystem helper or to a child process,
    together with the answer it got. *)

Inductive command : Type :=
| GitClone (url : string) (dest : Path).
    (* ["git", "clone", url, str(dest)], check=True, capture_output=True *)

Inductive call : Type :=
| CLexists (p : Path)
| CExists (p : Path)
| CRemove (p : Path)
| CCopy (src dst : Path)
| CSymlink (src tgt : Path)
| CRename (src dst : Path)
| CRun (c : command).

Inductive answer : Type :=
| ABool (b : bool)
| ADone
| ARaised (e : exn).

Inductive event : Type :=
| LogHeading (s : string)
| LogInfo (s : string)
| LogError (s : string)
| PrintHeader (s : string)
| PrintLine (s : string)
| SpinnerEnter (s : string)
| SpinnerExit
| SpinnerUpdate (s : string)
| SpinnerError (s : string)
| SpinnerSuccess (s : string)
| Sleep (seconds : nat)
| Sys (c : call) (a : answer).

Definition is_sys (ev : event) : bool :=
  match ev with Sys _ _ => true | _ => false end.

Definition is_log_error (ev : event) : bool :=
  match ev with LogError _ => true | _ => false end.

(** ** The collaborators

    [includes.paths] and [includes.library] are not part of the module
    under study; the installer is defined over any implementation of them.
    [path_exists] and [path_rename] are [pathlib]'s [Path.exists] and
    [Path.rename]; [run_command] is [subprocess.run]. *)

Class Paths : Type := {
  HYPRDOTS_DOTFILES_DIR : Path;   (* the source tree *)
  USER_DOTFILES_DIR : Path;       (* the staging directory *)
  USER_CONFIGS_DIR : Path         (* the live configuration directory *)
}.

Class Library : Type := {
  fsys : Type;
  path_lexists : Path -> fsys -> bool;
  path_exists : Path -> fsys -> bool;
  remove : Path -> fsys -> bool * fsys;
  copy : Path -> Path -> fsys -> option exn * fsys;
  create_symlink : Path -> Path -> fsys -> bool * fsys;
  path_rename : Path -> Path -> fsys -> option exn * fsys;
  run_command : command -> fsys -> option exn * fsys
}.

(** ** The monad *)

Module Py.
Section Monad.
Context {L : Library}.

Definition M (A : Type) : Type := fsys -> outcome A * fsys * list event.

Definition ret {A} (a : A) : M A := fun s => (Ret a, s, []).

Definition bind {A B} (m : M A) (k : A -> M B) : M B := fun s =>
    match m s with
    | (Ret a, s1, t1) => let '(r, s2, t2) := k a s1 in (r, s2, t1 ++ t2)
    | (Raise e, s1, t1) => (Raise e, s1, t1)
    end.

Definition emit (ev : event) : M unit := fun s => (Ret tt, s, [ev]).

(** [try: body except Exception as e: handler e] *)
Definition try_except {A} (body : M A) (handler : exn -> M A) : M A :=
    fun s =>
      match body s with
      | (Ret a, s1, t1) => (Ret a, s1, t1)
      | (Raise e, s1, t1) =>
          let '(r, s2, t2) := handler e s1 in (r, s2, t1 ++ t2)
      end.

(** [with Spinner(text) as spinner: body]: the handle is released on
    every way out of the block, and does not swallow exceptions. *)
Definition with_spinner {A} (text : string) (body : M A) : M A :=
    fun s =>
      let '(r, s1, t1) := body s in
      (r, s1, SpinnerEnter text :: t1 ++ [SpinnerExit]).

(** The helper calls, each leaving its call and answer in the trace. *)

Definition lexists (p : Path) : M bool := fun s =>
    let b := path_lexists p s in (Ret b, s, [Sys (CLexists p) (ABool b)]).

(** [Path.exists]: the answer of the probe.  [pathlib] answers [False]
    for a path that is not there and lets any other error of [os.stat] (a
    directory that may not be searched) leave the call.  A run in which a
    probe raises is not among the runs described here: what is stated
    about a step is stated about the runs in which its probes answer. *)
Definition p_exists (p : Path) : M bool := fun s =>
    let b := path_exists p s in (Ret b, s, [Sys (CExists p) (ABool b)]).

Definition do_remove (p : Path) : M bool := fun s =>
    let '(b, s1) := remove p s in (Ret b, s1, [Sys (CRemove p) (ABool b)]).

Definition do_symlink (src tgt : Path) : M bool := fun s =>
    let '(b, s1) := create_symlink src tgt s in
    (Ret b, s1, [Sys (CSymlink src tgt) (ABool b)]).

Definition raising (c : call) (r : option exn * fsys) :
    outcome unit * fsys * list event :=
    match r with
    | (None, s1) => (Ret tt, s1, [Sys c ADone])
    | (Some e, s1) => (Raise e, s1, [Sys c (ARaised e)])
    end.

Definition do_copy (src dst : Path) : M unit := fun s =>
    raising (CCopy src dst) (copy src dst s).

Definition do_rename (src dst : Path) : M unit := fun s =>
    raising (CRename src dst) (path_rename src dst s).

Definition do_run (c : command) : M unit := fun s =>
    raising (CRun c) (run_command c s).
End Monad.
End Py.
Import Py.

Declare Scope py_scope.
Delimit Scope py_scope with py.
Notation "x <- c1 ;; c2" := (bind c1 (fun x => c2))
  (at level 61, c1 at next level, right associativity) : py_scope.
Notation "c1 ;; c2" := (bind c1 (fun _ => c2))
  (at level 61, right associativity) : py_scope.
Open Scope py_scope.

(** ** [DotfilesInstaller] *)

Record DotfilesInstaller : Type := {
  dry_run : bool;
  dotfiles_components : list string;
  source_dotfiles_components_paths : list Path;
  target_dotfiles_components_paths : list Path
}.

(** The component list of [__init__]. *)
Definition registry : list string :=
  [ "hypr"; "waybar"; "rofi"; "fish"; "kitty"; "neofetch"; "fastfetch";
    "cava"; "waypaper"; "swaync"; "btop"; "wlogout"; "atuin"; "tmux";
    "starship.toml" ].

Section Installer.
Context {P : Paths} {L : Library}.

(** [__init__], with the component list as an argument, and [__init__]
    itself. *)
Definition installer_with (dry : bool) (components : list string)
    : DotfilesInstaller :=
    {| dry_run := dry;
       dotfiles_components := components;
       source_dotfiles_components_paths :=
         map (fun i => HYPRDOTS_DOTFILES_DIR // i) components;
       target_dotfiles_components_paths :=
         map (fun i => USER_DOTFILES_DIR // i) components |}.

Definition __init__ (dry : bool) : DotfilesInstaller :=
    installer_with dry registry.

(** *** Step 1 *)

Fixpoint validate_loop (ps : list Path) : M bool :=
    match ps with
    | [] => ret true
    | i :: rest =>
        b <- lexists i ;;
        if negb b then
          emit (LogError ("Missing source: " ++ str i ++ ".")) ;;
          emit (SpinnerError ("Missing source: " ++ str i ++ ", exiting...")) ;;
          ret false
        else validate_loop rest
    end.

Definition _validate_sources (self : DotfilesInstaller) : M bool :=
    emit (LogInfo "Validating source dotfiles components.") ;;
    emit (SpinnerUpdate "Validating source dotfiles components...") ;;
    if dry_run self then
      emit (Sleep 2) ;; ret true
    else validate_loop (source_dotfiles_components_paths self).

(** *** Step 2 *)

Definition _copy_dotfiles (self : DotfilesInstaller) : M bool :=
    emit (LogInfo ("Copying dotfiles to " ++ str USER_DOTFILES_DIR)) ;;
    emit (SpinnerUpdate "Copying dotfiles...") ;;
    if dry_run self then
      emit (Sleep 2) ;; ret true
    else
      emit (LogInfo "Creating dotfiles dir...") ;;
      there <- p_exists USER_DOTFILES_DIR ;;
      (if there then
         emit (LogInfo "Dotfiles dir already exists, removing it...") ;;
         _ <- do_remove USER_DOTFILES_DIR ;; ret tt
       else ret tt) ;;
      emit (LogInfo "Copying...") ;;
      try_except
        (do_copy HYPRDOTS_DOTFILES_DIR USER_DOTFILES_DIR ;; ret true)
        (fun e =>
           emit (LogError ("Failed to copy dotfiles: " ++ exn_str e)) ;;
           emit (SpinnerError "Failed to copy dotfiles.") ;;
           ret false).

(** *** Step 3 *)

Fixpoint verify_loop (ps : list Path) (missing : list Path)
    : M (list Path) :=
    match ps with
    | [] => ret missing
    | i :: rest =>
        b <- lexists i ;;
        if negb b then
          emit (LogError
                  ("Copied dotfile component " ++ str i ++ " is missing.")) ;;
          verify_loop rest (missing ++ [i])
        else verify_loop rest missing
    end.

Definition _verify_copy (self : DotfilesInstaller) : M bool :=
    emit (LogInfo "Checking if copied successfully or not.") ;;
    if dry_run self then ret true
    else
      missing <- verify_loop (target_dotfiles_components_paths self) [] ;;
      match missing with
      | _ :: _ =>
          emit (SpinnerError
                  "Some dotfile components are missing, exiting...") ;;
          ret false
      | [] => ret true
      end.

(** *** Step 4 *)

Fixpoint remove_loop (components : list string) : M bool :=
    match components with
    | [] => ret true
    | i :: rest =>
        let file := USER_CONFIGS_DIR // i in
        ok <- do_remove file ;;
        if negb ok then
          emit (SpinnerError
                  ("Failed to remove existing config: " ++ str file ++ ".")) ;;
          ret false
        else remove_loop rest
    end.

Definition _remove_existing_configs (self : DotfilesInstaller) : M bool :=
    emit (LogInfo "Removing existing configs.") ;;
    emit (SpinnerUpdate "Removing existing configs...") ;;
    if dry_run self then
      emit (Sleep 2) ;; ret true
    else remove_loop (dotfiles_components self).

(** *** Step 5 *)

Fixpoint link_loop (components : list string)
           (failed_links : list (Path * Path)) : M (list (Path * Path)) :=
    match components with
    | [] => ret failed_links
    | component :: rest =>
        let source := USER_DOTFILES_DIR // component in
        let target := USER_CONFIGS_DIR // component in
        ok <- do_symlink source target ;;
        if negb ok then
          emit (LogError ("Failed to link " ++ str source ++ " to "
                            ++ str target ++ ".")) ;;
          link_loop rest (failed_links ++ [(source, target)])
        else link_loop rest failed_links
    end.

Definition _create_links (self : DotfilesInstaller) : M bool :=
    emit (LogInfo "Creating system links.") ;;
    emit (SpinnerUpdate "Linking new dotfiles...") ;;
    if dry_run self then
      emit (Sleep 2) ;; ret true
    else
      failed_links <- link_loop (dotfiles_components self) [] ;;
      match failed_links with
      | _ :: _ =>
          emit (SpinnerError "Failed to create some links, exiting...") ;;
          ret false
      | [] => ret true
      end.

(** *** Step 6: the tmux plugin manager *)

Definition tpm_url : string := "https://github.com/tmux-plugins/tpm.git".
Definition tpm_dir : Path :=
    USER_DOTFILES_DIR // "tmux" // "plugins" // "tpm".

Definition _install_tpm (self : DotfilesInstaller) : M bool :=
    emit (LogInfo "Installing TPM (Tmux Plugin Manager)") ;;
    emit (SpinnerUpdate "Installing TPM for tmux...") ;;
    if dry_run self then
      emit (Sleep 2) ;; ret true
    else
      there <- p_exists tpm_dir ;;
      (if there then _ <- do_remove tpm_dir ;; ret tt else ret tt) ;;
      try_except
        (do_run (GitClone tpm_url tpm_dir) ;;
         emit (LogInfo "TPM installed successfully") ;;
         ret true)
        (fun e =>
           emit (LogError ("Failed to install TPM: " ++ exn_str e)) ;;
           emit (SpinnerError "Failed to install TPM for tmux") ;;
           ret false).

(** *** Step 7: the LazyVim starter *)

Definition lazyvim_url : string := "https://github.com/LazyVim/starter".
Definition lazyvim_dir : Path := USER_DOTFILES_DIR // "nvim".
Definition nvim_config_dir : Path := USER_CONFIGS_DIR // "nvim".
Definition backup_dir : Path := USER_CONFIGS_DIR // "nvim.backup".
Definition git_dir : Path := lazyvim_dir // ".git".

Definition _install_lazyvim (self : DotfilesInstaller) : M bool :=
    emit (LogInfo "Installing LazyVim") ;;
    emit (SpinnerUpdate "Installing LazyVim...") ;;
    if dry_run self then
      emit (Sleep 2) ;; ret true
    else
      staged <- p_exists lazyvim_dir ;;
      (if staged then _ <- do_remove lazyvim_dir ;; ret tt else ret tt) ;;
      live <- p_exists nvim_config_dir ;;
      (if live then
         old <- p_exists backup_dir ;;
         (if old then _ <- do_remove backup_dir ;; ret tt else ret tt) ;;
         do_rename nvim_config_dir backup_dir ;;
         emit (LogInfo ("Backed up existing nvim config to "
                          ++ str backup_dir))
       else ret tt) ;;
      try_except
        (do_run (GitClone lazyvim_url lazyvim_dir) ;;
         meta <- p_exists git_dir ;;
         (if meta then _ <- do_remove git_dir ;; ret tt else ret tt) ;;
         emit (LogInfo "LazyVim installed successfully") ;;
         ret true)
        (fun e =>
           emit (LogError ("Failed to install LazyVim: " ++ exn_str e)) ;;
           emit (SpinnerError "Failed to install LazyVim") ;;
           ret false).

(** *** [install]

    A [return] from inside a [with] block is the block yielding
    [Some v]; falling off its end is [None]. *)

Definition core_block (self : DotfilesInstaller) : M (option bool) :=
    b1 <- _validate_sources self ;;
    if negb b1 then ret (Some false) else
    b2 <- _copy_dotfiles self ;;
    if negb b2 then ret (Some false) else
    b3 <- _verify_copy self ;;
    if negb b3 then ret (Some false) else
    b4 <- _remove_existing_configs self ;;
    if negb b4 then ret (Some false) else
    b5 <- _create_links self ;;
    if negb b5 then ret (Some false) else
    emit (Sleep 1) ;;
    emit (SpinnerSuccess "Dotfiles installed successfully!") ;;
    ret None.

Definition third_party_block (self : DotfilesInstaller) : M (option bool) :=
    b6 <- _install_tpm self ;;
    if negb b6 then ret (Some false) else
    b7 <- _install_lazyvim self ;;
    if negb b7 then ret (Some false) else
    ret None.

Definition install (self : DotfilesInstaller) : M bool :=
    emit (LogHeading "Dotfiles installer started") ;;
    emit (PrintHeader "Installing dotfiles.") ;;
    r <- with_spinner "Installing dotfiles..." (core_block self) ;;
    match r with
    | Some v => ret v
    | None =>
        r' <- with_spinner "Installing third-party dots..."
                (third_party_block self) ;;
        match r' with
        | Some v => ret v
        | None => emit (PrintLine "") ;; ret true
        end
    end.
End Installer.

(** ** A filesystem for [includes.library]

    [includes.library] ([path_lexists], [remove], [copy],
    [create_symlink]) is not among the sources.  The model below follows
    the contracts the specification gives for these four helpers, and
    POSIX for [Path.exists], [Path.rename] and [git clone].

    The filesystem is a tree of nodes.  The helpers of the library name
    a node by walking real directories ([lookup]); [Path.exists] resolves
    a path as the system does, following a symbolic link wherever it
    stands on the way ([follow]), so that the target of a link may lie
    behind linked directories.  I/O faults
    are part of the state: [readonly] lists the paths whose removal or
    creation the system refuses (permission denied, busy resource),
    [remote] is what a clone of each URL fetches ([None]: the fetch fails),
    and [git_available] tells whether the [git] executable can be
    spawned. *)

Module Fs.

Local Unset Elimination Schemes.
Inductive node : Type :=
| File (data : string)
| Symlink (target : Path)
| Dir (entries : list (string * node)).
Local Set Elimination Schemes.

Fixpoint is_prefix (p q : Path) : bool :=
  match p, q with
  | [], _ => true
  | x :: p', y :: q' => String.eqb x y && is_prefix p' q'
  | _ :: _, [] => false
  end.

Definition path_eqb (p q : Path) : bool := is_prefix p q && is_prefix q p.

Fixpoint assoc (x : string) (es : list (string * node)) : option node :=
  match es with
  | [] => None
  | (y, n) :: r => if String.eqb x y then Some n else assoc x r
  end.

Fixpoint unlink (x : string) (es : list (string * node))
  : list (string * node) :=
  match es with
  | [] => []
  | (y, n) :: r => if String.eqb x y then unlink x r else (y, n) :: unlink x r
  end.

Definition set_entry (x : string) (n : node) (es : list (string * node))
  : list (string * node) := (x, n) :: unlink x es.

Fixpoint lookup (n : node) (p : Path) : option node :=
  match p with
  | [] => Some n
  | x :: r =>
      match n with
      | Dir es =>
          match assoc x es with
          | Some c => lookup c r
          | None => None
          end
      | _ => None
      end
  end.

(** [alter parents n p v] puts [v] at [p] ([Some]), or unlinks [p]
    ([None]); [parents] creates the missing directories on the way.  It
    fails when the way leads through something that is not a directory. *)
Fixpoint alter (parents : bool) (n : node) (p : Path) (v : option node)
  : option node :=
  match p with
  | [] => v
  | x :: r =>
      match n with
      | Dir es =>
          match r with
          | [] =>
              Some (Dir (match v with
                         | Some c => set_entry x c es
                         | None => unlink x es
                         end))
          | _ :: _ =>
              match (match assoc x es with
                     | Some c => Some c
                     | None => if parents then Some (Dir []) else None
                     end) with
              | Some c =>
                  match alter parents c r v with
                  | Some c' => Some (Dir (set_entry x c' es))
                  | None => None
                  end
              | None => None
              end
          end
      | _ => None
      end
  end.

(** Path resolution as [os.stat] does it.  The path [p] is walked from
    [cur]; a symbolic link met on the way, in the middle of the path or at
    its end, is replaced by what its target resolves to from the root
    [top].  [left] is the number of links that may still be followed: the
    system gives up ([ELOOP]) after [SYMLOOP_MAX] of them in one
    resolution.  [fuel] bounds how deep links lead to links; it is never
    exhausted before [left]. *)
Fixpoint follow (fuel : nat) (top : node)
  : nat -> node -> Path -> option (nat * node) :=
  fix walk (left : nat) (cur : node) (p : Path) {struct p}
    : option (nat * node) :=
    match p with
    | [] => Some (left, cur)
    | x :: r =>
        match cur with
        | Dir es =>
            match assoc x es with
            | Some (Symlink t) =>
                match left, fuel with
                | S l, S f =>
                    match follow f top l top t with
                    | Some (l', c) => walk l' c r
                    | None => None
                    end
                | _, _ => None
                end
            | Some c => walk left c r
            | None => None
            end
        | _ => None
        end
    end.

Definition SYMLOOP_MAX : nat := 40.

(** What the path [p] resolves to in the tree [n], if anything. *)
Definition stat (n : node) (p : Path) : option node :=
  option_map snd (follow SYMLOOP_MAX n SYMLOOP_MAX n p).

Record state : Type := {
  root : node;
  readonly : list Path;
  git_available : bool;
  remote : string -> option (list (string * node))
}.

Definition with_root (s : state) (r : node) : state :=
  {| root := r; readonly := readonly s;
     git_available := git_available s; remote := remote s |}.

Definition is_some {A} (o : option A) : bool :=
  match o with Some _ => true | None => false end.

Definition blocked (s : state) (p : Path) : bool :=
  existsb (is_prefix p) (readonly s).

(** Modelled from the spec: [path_lexists] of [includes.library], which is
    not among the sources.  "True if path exists OR is a symbolic link
    whose target is missing": the entry itself is looked up, a link is not
    followed. *)
Definition path_lexists (p : Path) (s : state) : bool :=
  is_some (lookup (root s) p).

(** [Path.exists] of [pathlib]: [os.stat] succeeds.  Links are followed
    wherever they stand, so a dangling link does not exist, and neither
    does a path that leads through a file or through too many links
    ([ENOENT], [ENOTDIR] and [ELOOP] are answered [False]). *)
Definition path_exists (p : Path) (s : state) : bool :=
  is_some (stat (root s) p).

(** Modelled from the spec: [remove] of [includes.library], which is not
    among the sources.  "Recursively deletes a file, directory, or symlink.
    Succeeds vacuously if the path does not exist.  Returns false on any
    I/O failure; never raises."  A failed removal leaves the tree as it
    was. *)
Definition remove (p : Path) (s : state) : bool * state :=
  match lookup (root s) p with
  | None => (true, s)
  | Some _ =>
      if blocked s p then (false, s)
      else match alter false (root s) p None with
           | Some r => (true, with_root s r)
           | None => (false, s)
           end
  end.

(** Modelled from the spec: [copy] of [includes.library], which is not
    among the sources.  "Recursively copies a directory tree including
    symlinks as symlinks, preserving structure.  Fails loudly on I/O
    error."  After a copy the destination holds the source tree and
    nothing else, so an occupied destination is an error, as it is for
    [shutil.copytree]; the leading directories are created. *)
Definition copy (src dst : Path) (s : state) : option exn * state :=
  match lookup (root s) src with
  | None => (Some (OSError ("No such file or directory: " ++ str src)), s)
  | Some t =>
      match lookup (root s) dst with
      | Some _ => (Some (OSError ("File exists: " ++ str dst)), s)
      | None =>
          if blocked s dst then
            (Some (OSError ("Permission denied: " ++ str dst)), s)
          else match alter true (root s) dst (Some t) with
               | Some r => (None, with_root s r)
               | None => (Some (OSError ("Not a directory: " ++ str dst)), s)
               end
      end
  end.

(** Modelled from the spec: [create_symlink] of [includes.library], which
    is not among the sources.  "If target already exists as a symlink
    pointing at source, this is a no-op success.  Creating a link over a
    surviving conflicting entry is an error.  Returns false on any OS-level
    failure (missing permissions, missing parent directory)." *)
Definition create_symlink (src tgt : Path) (s : state) : bool * state :=
  match lookup (root s) tgt with
  | Some (Symlink t) => (path_eqb t src, s)
  | Some _ => (false, s)
  | None =>
      if blocked s tgt then (false, s)
      else match alter false (root s) tgt (Some (Symlink src)) with
           | Some r => (true, with_root s r)
           | None => (false, s)
           end
  end.

(** [os.rename]: a directory replaces only an empty directory, anything
    else replaces only a non-directory. *)
Definition move (a b : Path) (x : node) (s : state) : option exn * state :=
  match alter false (root s) a None with
  | Some r1 =>
      match alter false r1 b (Some x) with
      | Some r2 => (None, with_root s r2)
      | None => (Some (OSError ("No such file or directory: " ++ str b)), s)
      end
  | None => (Some (OSError ("Invalid argument: " ++ str a)), s)
  end.

Definition path_rename (a b : Path) (s : state) : option exn * state :=
  match lookup (root s) a with
  | None => (Some (OSError ("No such file or directory: " ++ str a)), s)
  | Some x =>
      if blocked s a || blocked s b then
        (Some (OSError ("Permission denied: " ++ str a)), s)
      else if path_eqb a b then (None, s)
      else if is_prefix a b then
        (Some (OSError ("Invalid argument: " ++ str b)), s)
      else
        match lookup (root s) b with
        | None => move a b x s
        | Some y =>
            match x, y with
            | Dir _, Dir [] => move a b x s
            | Dir _, Dir (_ :: _) =>
                (Some (OSError ("Directory not empty: " ++ str b)), s)
            | Dir _, _ => (Some (OSError ("Not a directory: " ++ str b)), s)
            | _, Dir _ => (Some (OSError ("Is a directory: " ++ str b)), s)
            | _, _ => move a b x s
            end
        end
  end.

(** [git clone url dest]: the leading directories are created, and a
    destination that is there and is not an empty directory is refused. *)
Definition clone_into (dest : Path) (repo : list (string * node))
           (s : state) : option exn * state :=
  let refused :=
    (Some (CalledProcessError 128
             ("fatal: could not create work tree dir " ++ str dest)), s) in
  if blocked s dest then refused
  else match alter true (root s) dest (Some (Dir repo)) with
       | Some r => (None, with_root s r)
       | None => refused
       end.

Definition run_command (c : command) (s : state) : option exn * state :=
  match c with
  | GitClone url dest =>
      if negb (git_available s) then
        (Some (OSError "No such file or directory: 'git'"), s)
      else
        match remote s url with
        | None =>
            (Some (CalledProcessError 128
                     ("fatal: unable to access " ++ url)), s)
        | Some repo =>
            match lookup (root s) dest with
            | None | Some (Dir []) => clone_into dest repo s
            | Some _ =>
                (Some (CalledProcessError 128
                         ("fatal: destination path " ++ str dest
                            ++ " already exists and is not an empty directory")),
                 s)
            end
        end
  end.

(** *** Vocabulary for the statements about the model *)

(** Neither path leads to the other. *)
Definition disjoint (p q : Path) : bool :=
  negb (is_prefix p q) && negb (is_prefix q p).

Definition is_dir (n : node) : bool :=
  match n with Dir _ => true | _ => false end.

(** [n'] is [n] with some entries taken out, at any depth. *)
Local Unset Elimination Schemes.
Inductive below : node -> node -> Prop :=
| below_refl (n : node) : below n n
| below_dir (es' es : list (string * node)) :
    (forall x c', assoc x es' = Some c' ->
                  exists c, assoc x es = Some c /\ below c' c) ->
    below (Dir es') (Dir es).
Local Set Elimination Schemes.

(** [s'] is [s], or [s] after one [alter] at [p]. *)
Definition altered_at (p : Path) (s s' : state) : Prop :=
  s' = s
  \/ exists b v r, alter b (root s) p v = Some r /\ s' = with_root s r.

(** [s'] is [s] after any number of alterations at paths of [ps]. *)
Inductive reach (ps : list Path) : state -> state -> Prop :=
| reach_refl (s : state) : reach ps s s
| reach_step (s s1 s' : state) (p : Path) :
    In p ps -> altered_at p s s1 -> reach ps s1 s' -> reach ps s s'.

End Fs.

#[export] Instance spec_library : Library := {|
  fsys := Fs.state;
  path_lexists := Fs.path_lexists;
  path_exists := Fs.path_exists;
  remove := Fs.remove;
  copy := Fs.copy;
  create_symlink := Fs.create_symlink;
  path_rename := Fs.path_rename;
  run_command := Fs.run_command
|}.

(** ** A concrete machine

    A small installation used to run the installer: the repository
    checked out under [/opt/HyprDots], the user's home under [/home/u]. *)

Module Demo.

#[export] Instance paths : Paths := {|
  HYPRDOTS_DOTFILES_DIR := ["opt"; "HyprDots"; "dotfiles"];
  USER_DOTFILES_DIR := ["home"; "u"; ".hyprdots"];
  USER_CONFIGS_DIR := ["home"; "u"; ".config"]
|}.

Definition component_tree (name : string) : string * Fs.node :=
  (name, Fs.Dir [("config", Fs.File ("# " ++ name))]).

Definition source_tree (names : list string) : Fs.node :=
  Fs.Dir (map component_tree names).

Definition tpm_repo : list (string * Fs.node) :=
  [(".git", Fs.Dir [("HEAD", Fs.File "ref: refs/heads/master")]);
   ("tpm", Fs.File "#!/usr/bin/env bash")].

Definition lazyvim_repo : list (string * Fs.node) :=
  [(".git", Fs.Dir [("HEAD", Fs.File "ref: refs/heads/main")]);
   ("init.lua", Fs.File "require('config.lazy')")].

Definition github (url : string) : option (list (string * Fs.node)) :=
  if String.eqb url "https://github.com/tmux-plugins/tpm.git" then
    Some tpm_repo
  else if String.eqb url "https://github.com/LazyVim/starter" then
    Some lazyvim_repo
  else None.

Definition offline (url : string) : option (list (string * Fs.node)) := None.

(** A machine whose source tree holds [names] and whose home directory
    holds [home]. *)
Definition machine (names : list string) (home : list (string * Fs.node))
  : Fs.state :=
  {| Fs.root :=
       Fs.Dir [("opt", Fs.Dir [("HyprDots",
                  Fs.Dir [("dotfiles", source_tree names)])]);
               ("home", Fs.Dir [("u", Fs.Dir home)])];
     Fs.readonly := [];
     Fs.git_available := true;
     Fs.remote := github |}.

Definition old_configs : list (string * Fs.node) :=
  [("hypr", Fs.Dir [("hyprland.conf", Fs.File "monitor=,preferred,auto,1")]);
   ("nvim", Fs.Dir [("init.vim", Fs.File "set number")]);
   ("nvim.backup", Fs.Dir [("init.vim", Fs.File "set nocompatible")])].

Definition fresh : Fs.state :=
  machine registry [(".config", Fs.Dir old_configs)].

(** The same machine where the previous backup of the editor
    configuration is a link whose target is gone. *)
Definition stale_backup_configs : list (string * Fs.node) :=
  [("nvim", Fs.Dir [("init.vim", Fs.File "set number")]);
   ("nvim.backup", Fs.Symlink ["home"; "u"; "old-nvim"])].

Definition stale_backup : Fs.state :=
  machine registry [(".config", Fs.Dir stale_backup_configs)].

(** A machine with a dangling link at the live editor configuration, at
    the staged one, and at the plugin manager's directory. *)
Definition gone : Path := ["home"; "u"; "gone"].

Definition dangling : Fs.state :=
  machine registry
    [(".config", Fs.Dir [("nvim", Fs.Symlink gone)]);
     (".hyprdots",
      Fs.Dir [("nvim", Fs.Symlink gone);
              ("tmux", Fs.Dir [("plugins",
                                Fs.Dir [("tpm", Fs.Symlink gone)])])])].


(** [fresh] with the old [hypr] configuration protected against removal,
    and [fresh] cut off from the network. *)
Definition locked : Fs.state :=
  {| Fs.root := Fs.root fresh;
     Fs.readonly := [["home"; "u"; ".config"; "hypr"]];
     Fs.git_available := true;
     Fs.remote := github |}.

Definition unplugged : Fs.state :=
  {| Fs.root := Fs.root fresh;
     Fs.readonly := [];
     Fs.git_available := true;
     Fs.remote := offline |}.

(** [fresh] with the live editor configuration held in place (a mount
    point, say): it can be neither removed nor renamed. *)
Definition pinned : Fs.state :=
  {| Fs.root := Fs.root fresh;
     Fs.readonly := [["home"; "u"; ".config"; "nvim"]];
     Fs.git_available := true;
     Fs.remote := github |}.

(** A machine whose live editor configuration is a link to the staged
    [hypr] component.  The staging directory is not there yet, so the link
    dangles until step 2 has made its copy. *)
Definition revived : Fs.state :=
  machine registry
    [(".config",
      Fs.Dir [("nvim", Fs.Symlink ["home"; "u"; ".hyprdots"; "hypr"])])].

(** Five components; a staging directory that holds the second and the
    fourth only; a configuration directory where the second and the
    fourth are occupied by plain files. *)
Definition five : list string := ["one"; "two"; "three"; "four"; "five"].

Definition half_staged : Fs.state :=
  machine five
    [(".config", Fs.Dir []);
     (".hyprdots", Fs.Dir [component_tree "two"; component_tree "four"])].

Definition occupied : Fs.state :=
  machine five
    [(".config", Fs.Dir [("two", Fs.File "2"); ("four", Fs.File "4")]);
     (".hyprdots", Fs.Dir (map component_tree five))].

End Demo.

(** * Vocabulary of the statements *)

(** ** What a trace says *)

Definition probe_of (ev : event) : option Path :=
  match ev with Sys (CLexists p) _ => Some p | _ => None end.

Definition removal_of (ev : event) : option Path :=
  match ev with Sys (CRemove p) _ => Some p | _ => None end.

Definition link_of (ev : event) : option (Path * Path) :=
  match ev with Sys (CSymlink s t) _ => Some (s, t) | _ => None end.

Definition failed_link_of (ev : event) : option (Path * Path) :=
  match ev with Sys (CSymlink s t) (ABool false) => Some (s, t) | _ => None end.

Definition is_run (ev : event) : bool :=
  match ev with Sys (CRun _) _ => true | _ => false end.

Definition no_run (tr : list event) : Prop := existsb is_run tr = false.

Fixpoint collect {A B} (f : A -> option B) (l : list A) : list B :=
  match l with
  | [] => []
  | a :: r =>
      match f a with
      | Some b => b :: collect f r
      | None => collect f r
      end
  end.

Definition is_nil {A} (l : list A) : bool :=
  match l with [] => true | _ :: _ => false end.


Section Vocabulary.
Context {P : Paths} {L : Library}.

(** What a dry run emits, from the first line of [install] to its last. *)
Definition dry_trace : list event :=
  [ LogHeading "Dotfiles installer started";
    PrintHeader "Installing dotfiles.";
    SpinnerEnter "Installing dotfiles...";
    LogInfo "Validating source dotfiles components.";
    SpinnerUpdate "Validating source dotfiles components...";
    Sleep 2;
    LogInfo ("Copying dotfiles to " ++ str USER_DOTFILES_DIR);
    SpinnerUpdate "Copying dotfiles...";
    Sleep 2;
    LogInfo "Checking if copied successfully or not.";
    LogInfo "Removing existing configs.";
    SpinnerUpdate "Removing existing configs...";
    Sleep 2;
    LogInfo "Creating system links.";
    SpinnerUpdate "Linking new dotfiles...";
    Sleep 2;
    Sleep 1;
    SpinnerSuccess "Dotfiles installed successfully!";
    SpinnerExit;
    SpinnerEnter "Installing third-party dots...";
    LogInfo "Installing TPM (Tmux Plugin Manager)";
    SpinnerUpdate "Installing TPM for tmux...";
    Sleep 2;
    LogInfo "Installing LazyVim";
    SpinnerUpdate "Installing LazyVim...";
    Sleep 2;
    SpinnerExit;
    PrintLine "" ].


Definition result_of {A} (x : outcome A * fsys * list event) : outcome A :=
  fst (fst x).

Definition state_of {A} (x : outcome A * fsys * list event) : fsys :=
  snd (fst x).

Definition trace_of {A} (x : outcome A * fsys * list event) : list event :=
  snd x.

Definition source_path (n : string) : Path := HYPRDOTS_DOTFILES_DIR // n.
Definition stage_path (n : string) : Path := USER_DOTFILES_DIR // n.
Definition config_path (n : string) : Path := USER_CONFIGS_DIR // n.
Definition link_pair (n : string) : Path * Path :=
  (stage_path n, config_path n).

(** The messages of the three loops that name a path. *)
Definition missing_message (p : Path) : string :=
  "Copied dotfile component " ++ str p ++ " is missing.".

Definition removal_message (p : Path) : string :=
  "Failed to remove existing config: " ++ str p ++ ".".

Definition link_message (st : Path * Path) : string :=
  "Failed to link " ++ str (fst st) ++ " to " ++ str (snd st) ++ ".".

(** Step 3 on one path: the probe, and the error record if it is absent. *)
Definition verify_probe (s : fsys) (p : Path) : list event :=
  Sys (CLexists p) (ABool (path_lexists p s))
  :: (if path_lexists p s then [] else [LogError (missing_message p)]).

Definition missing_in (s : fsys) (ps : list Path) : list Path :=
  filter (fun p => negb (path_lexists p s)) ps.

(** The filesystem after [remove] has been called on the configuration
    entry of each of [ns], in order. *)
Definition after_removes (ns : list string) (s : fsys) : fsys :=
  fold_left (fun st n => snd (remove (config_path n) st)) ns s.

Definition removed_ok (n : string) : event :=
  Sys (CRemove (config_path n)) (ABool true).


(** The seven steps in the order [install] runs them, what [install]
    itself emits just before step [k] (counting from 0), and the run of an
    initial segment of the steps in which every step returned [True]. *)
Definition steps (self : DotfilesInstaller) : list (M bool) :=
  [ _validate_sources self; _copy_dotfiles self; _verify_copy self;
    _remove_existing_configs self; _create_links self;
    _install_tpm self; _install_lazyvim self ].

Definition interlude (k : nat) : list event :=
  match k with
  | 0 => [ LogHeading "Dotfiles installer started";
           PrintHeader "Installing dotfiles.";
           SpinnerEnter "Installing dotfiles..." ]
  | 5 => [ Sleep 1;
           SpinnerSuccess "Dotfiles installed successfully!";
           SpinnerExit;
           SpinnerEnter "Installing third-party dots..." ]
  | _ => []
  end.

Fixpoint passes (k : nat) (ms : list (M bool)) (s : fsys)
  : option (fsys * list event) :=
  match ms with
  | [] => Some (s, [])
  | m :: rest =>
      match m s with
      | (Ret true, s1, t1) =>
          match passes (S k) rest s1 with
          | Some (s2, t2) => Some (s2, interlude k ++ t1 ++ t2)
          | None => None
          end
      | _ => None
      end
  end.


(** The names under the live configuration directory that the installer
    writes to, and a layout of the three roots in which the staging
    directory is not inside any of them, the live configuration directory
    is not inside the staging directory, and the source tree and the
    staging directory are apart. *)
Definition managed : list string := registry ++ ["nvim"; "nvim.backup"].

Definition layout_ok : bool :=
  negb (Fs.is_prefix USER_DOTFILES_DIR USER_CONFIGS_DIR)
  && forallb (fun n => negb (Fs.is_prefix (config_path n) USER_DOTFILES_DIR))
             managed
  && Fs.disjoint HYPRDOTS_DOTFILES_DIR USER_DOTFILES_DIR.

(** The filesystem [install] has reached when the first [k] steps have
    run, each from where the one before it stopped. *)
Fixpoint run_states (ms : list (M bool)) (s : fsys) : fsys :=
  match ms with
  | [] => s
  | m :: rest => run_states rest (state_of (m s))
  end.

Definition state_before (k : nat) (self : DotfilesInstaller) (s : fsys)
  : fsys :=
  run_states (firstn k (steps self)) s.

(** The three phases of a real run of step 7, each followed by the rest
    of the step: the removal of the staged configuration, the backup of
    the live one, the clone. *)
Definition lazyvim_clone_phase : M bool :=
  try_except
    (do_run (GitClone lazyvim_url lazyvim_dir) ;;
     meta <- p_exists git_dir ;;
     (if meta then _ <- do_remove git_dir ;; ret tt else ret tt) ;;
     emit (LogInfo "LazyVim installed successfully") ;;
     ret true)
    (fun e =>
       emit (LogError ("Failed to install LazyVim: " ++ exn_str e)) ;;
       emit (SpinnerError "Failed to install LazyVim") ;;
       ret false).

Definition lazyvim_backup_then (k : M bool) : M bool :=
  live <- p_exists nvim_config_dir ;;
  (if live then
     old <- p_exists backup_dir ;;
     (if old then _ <- do_remove backup_dir ;; ret tt else ret tt) ;;
     do_rename nvim_config_dir backup_dir ;;
     emit (LogInfo ("Backed up existing nvim config to " ++ str backup_dir))
   else ret tt) ;;
  k.

Definition lazyvim_staged_then (k : M bool) : M bool :=
  staged <- p_exists lazyvim_dir ;;
  (if staged then _ <- do_remove lazyvim_dir ;; ret tt else ret tt) ;;
  k.

(** Adding the events [pre] in front of what a computation emits. *)
Definition after_events {A} (pre : list event)
           (x : outcome A * fsys * list event)
  : outcome A * fsys * list event :=
  (fst (fst x), snd (fst x), pre ++ snd x).

(** The paths the two bootstrap steps write to. *)
Definition late_paths : list Path :=
  [tpm_dir; lazyvim_dir; nvim_config_dir; backup_dir; git_dir].

Definition tpm_clone : call := CRun (GitClone tpm_url tpm_dir).
Definition lazyvim_clone : call := CRun (GitClone lazyvim_url lazyvim_dir).

(** How each bootstrap step ends when its clone raises [e]. *)
Definition tpm_failure (e : exn) : list event :=
  [ Sys tpm_clone (ARaised e);
    LogError ("Failed to install TPM: " ++ exn_str e);
    SpinnerError "Failed to install TPM for tmux" ].

Definition lazyvim_failure (e : exn) : list event :=
  [ Sys lazyvim_clone (ARaised e);
    LogError ("Failed to install LazyVim: " ++ exn_str e);
    SpinnerError "Failed to install LazyVim" ].

End Vocabulary.

(** * Vocabulary of the further properties *)

(** The events a step emits: log records, spinner updates and errors,
    sleeps and helper calls; the spinner's life cycle and the headings
    belong to [install]. *)
Definition step_event (ev : event) : bool :=
  match ev with
  | LogInfo _ | LogError _ | SpinnerUpdate _ | SpinnerError _
  | Sleep _ | Sys _ _ => true
  | _ => false
  end.

Definition is_spinner_error (ev : event) : bool :=
  match ev with SpinnerError _ => true | _ => false end.

(** The events of a spinner's life cycle: the entry into a [with] block
    and the way out of it. *)
Definition is_spinner_cycle (ev : event) : bool :=
  match ev with SpinnerEnter _ | SpinnerExit => true | _ => false end.

Definition is_link (n : Fs.node) : bool :=
  match n with Fs.Symlink _ => true | _ => false end.

Section MoreVocabulary.
Context {P : Paths} {L : Library}.

(** The first path of [ps] that [path_lexists] does not see, and the
    paths probed on the way to it. *)
Definition first_missing (s : fsys) (ps : list Path) : option Path :=
  find (fun p => negb (path_lexists p s)) ps.

Fixpoint probed_until (s : fsys) (ps : list Path) : list Path :=
  match ps with
  | [] => []
  | p :: rest => p :: (if path_lexists p s then probed_until s rest else [])
  end.

Definition missing_source_log (p : Path) : event :=
  LogError ("Missing source: " ++ str p ++ ".").

Definition missing_source_spinner (p : Path) : event :=
  SpinnerError ("Missing source: " ++ str p ++ ", exiting...").

Definition copy_call : call :=
  CCopy HYPRDOTS_DOTFILES_DIR USER_DOTFILES_DIR.

Definition dotfiles_success : event :=
  SpinnerSuccess "Dotfiles installed successfully!".

Definition linked_ok (n : string) : event :=
  Sys (CSymlink (stage_path n) (config_path n)) (ABool true).

(** A filesystem on which step 5 cannot fail: no path is protected, the
    live configuration directory is a directory, and the configuration
    entry of each of [names] is absent or already the right link. *)
Definition ready_for_links (names : list string) (s : Fs.state) : Prop :=
  Fs.readonly s = []
  /\ (exists es, Fs.lookup (Fs.root s) USER_CONFIGS_DIR = Some (Fs.Dir es))
  /\ forall n, In n names ->
       Fs.lookup (Fs.root s) (config_path n) = None
       \/ Fs.lookup (Fs.root s) (config_path n)
          = Some (Fs.Symlink (stage_path n)).

End MoreVocabulary.

(** * Properties *)

Unset Implicit Arguments.

(** ** Tactics *)

Ltac run_step E :=
  match goal with
  | H : context [match ?m ?s with _ => _ end] |- _ =>
      destruct (m s) as [[[[|]|?] ?] ?] eqn:E; try discriminate H
  end.

Ltac norm_trace :=
  repeat first [rewrite app_nil_r | rewrite <- app_assoc | progress simpl].

Ltac unfold_install :=
  unfold install, core_block, third_party_block, with_spinner, bind, emit, ret.

Ltac unfold_step :=
  unfold bind, emit, ret, p_exists, do_remove, do_rename, do_run,
    try_except, raising; simpl.

Ltac pick_event H :=
  simpl in H;
  repeat (destruct H as [H|H]; [try discriminate H|]);
  try contradiction.

Ltac split_cases :=
  repeat (simpl;
          match goal with
          | |- context [path_exists ?p ?s] => destruct (path_exists p s)
          | |- context [remove ?p ?s] => destruct (remove p s) as [? ?]
          | |- context [path_rename ?a ?b ?s] =>
              destruct (path_rename a b s) as [[?|] ?]
          | |- context [run_command ?c ?s] =>
              destruct (run_command c s) as [[?|] ?]
          end).

Ltac close_suffix :=
  match goal with
  | |- exists pre, ?tr = pre ++ _ =>
      exists (List.firstn (List.length tr - 3) tr); reflexivity
  end.

Ltac break_in H :=
  repeat match type of H with
         | In _ (_ :: _) => destruct H as [H|H]; [try discriminate H|]
         | _ = _ \/ _ => destruct H as [H|H]; [try discriminate H|]
         | In _ (_ ++ _) => apply in_app_or in H; destruct H as [H|H]
         | In _ [] => destruct H
         end.

Lemma collect_app {A B} (f : A -> option B) (l1 l2 : list A) :
  collect f (l1 ++ l2) = collect f l1 ++ collect f l2.
Proof.
  induction l1 as [|a l1 IH]; simpl; [reflexivity|].
  destruct (f a); simpl; now rewrite IH.
Qed.

(** ** Dry runs *)

Section DryRun.
Context {P : Paths} {L : Library}.

(** C6.  With [dry_run] set, whatever the component list and whatever the
    filesystem (the three roots need not exist): every step returns [True]
    and hands back the filesystem it was given, having emitted only log
    records, spinner updates and, except for [_verify_copy], a sleep;
    [install] returns [True] on the unchanged filesystem, and its trace
    holds no call to a filesystem helper or to a child process. *)
Theorem C6_dry_run_is_pure :
  forall (cs : list string) (sp tp : list Path) (s : fsys),
    let self := Build_DotfilesInstaller true cs sp tp in
    _validate_sources self s
      = (Ret true, s,
         [LogInfo "Validating source dotfiles components.";
          SpinnerUpdate "Validating source dotfiles components...";
          Sleep 2])
    /\ _copy_dotfiles self s
      = (Ret true, s,
         [LogInfo ("Copying dotfiles to " ++ str USER_DOTFILES_DIR);
          SpinnerUpdate "Copying dotfiles..."; Sleep 2])
    /\ _verify_copy self s
      = (Ret true, s, [LogInfo "Checking if copied successfully or not."])
    /\ _remove_existing_configs self s
      = (Ret true, s,
         [LogInfo "Removing existing configs.";
          SpinnerUpdate "Removing existing configs..."; Sleep 2])
    /\ _create_links self s
      = (Ret true, s,
         [LogInfo "Creating system links.";
          SpinnerUpdate "Linking new dotfiles..."; Sleep 2])
    /\ _install_tpm self s
      = (Ret true, s,
         [LogInfo "Installing TPM (Tmux Plugin Manager)";
          SpinnerUpdate "Installing TPM for tmux..."; Sleep 2])
    /\ _install_lazyvim self s
      = (Ret true, s,
         [LogInfo "Installing LazyVim";
          SpinnerUpdate "Installing LazyVim..."; Sleep 2])
    /\ install self s = (Ret true, s, dry_trace)
    /\ filter is_sys dry_trace = [].
Proof.
  intros cs sp tp s self.
  repeat split; reflexivity.
Qed.

End DryRun.

(** ** The loops, over any implementation of the helpers *)

Section Loops.
Context {P : Paths} {L : Library}.

Lemma verify_loop_spec (ps acc : list Path) (s : fsys) :
  verify_loop ps acc s
  = (Ret (acc ++ missing_in s ps), s, flat_map (verify_probe s) ps).
Proof.
  revert acc; induction ps as [|i rest IH]; intros acc; simpl.
  - unfold ret. now rewrite app_nil_r.
  - unfold bind at 1, lexists, verify_probe. simpl.
    destruct (path_lexists i s) eqn:E; simpl.
    + rewrite IH. reflexivity.
    + unfold bind, emit. rewrite IH. simpl. now rewrite <- app_assoc.
Qed.

Lemma probes_of_verify (s : fsys) (ps : list Path) :
  collect probe_of (flat_map (verify_probe s) ps) = ps.
Proof.
  induction ps as [|i rest IH]; simpl; [reflexivity|].
  destruct (path_lexists i s); simpl; now rewrite IH.
Qed.

Lemma errors_of_verify (s : fsys) (ps : list Path) :
  filter is_log_error (flat_map (verify_probe s) ps)
  = map (fun p => LogError (missing_message p)) (missing_in s ps).
Proof.
  induction ps as [|i rest IH]; simpl; [reflexivity|].
  destruct (path_lexists i s); simpl; now rewrite IH.
Qed.

Lemma no_spinner_error_in_verify (s : fsys) (ps : list Path) (m : string) :
  ~ In (SpinnerError m) (flat_map (verify_probe s) ps).
Proof.
  induction ps as [|i rest IH]; simpl; [tauto|].
  destruct (path_lexists i s); simpl; intuition discriminate.
Qed.

Lemma verify_copy_spec (comps : list string) (s : fsys) :
  _verify_copy (installer_with false comps) s
  = (Ret (is_nil (missing_in s (map stage_path comps))), s,
     LogInfo "Checking if copied successfully or not."
     :: flat_map (verify_probe s) (map stage_path comps)
     ++ (if is_nil (missing_in s (map stage_path comps)) then []
         else [SpinnerError
                 "Some dotfile components are missing, exiting..."])).
Proof.
  unfold _verify_copy; simpl.
  unfold bind at 1, emit; simpl.
  unfold bind at 1. rewrite verify_loop_spec. simpl.
  fold stage_path.
  destruct (missing_in s (map stage_path comps)); simpl.
  - reflexivity.
  - unfold bind, emit, ret; simpl. reflexivity.
Qed.

Lemma remove_loop_spec (comps : list string) (s : fsys) :
  let '(r, s', tr) := remove_loop comps s in
  (r = Ret true /\ s' = after_removes comps s
   /\ tr = map removed_ok comps)
  \/ (exists pre c post,
         comps = pre ++ c :: post
         /\ r = Ret false
         /\ fst (remove (config_path c) (after_removes pre s)) = false
         /\ s' = snd (remove (config_path c) (after_removes pre s))
         /\ tr = map removed_ok pre
                 ++ [Sys (CRemove (config_path c)) (ABool false);
                     SpinnerError (removal_message (config_path c))]).
Proof.
  revert s; induction comps as [|i rest IH]; intros s; simpl.
  - left. repeat split.
  - unfold bind at 1, do_remove. fold (config_path i).
    destruct (remove (config_path i) s) as [ok s1] eqn:E.
    destruct ok; simpl.
    + specialize (IH s1).
      destruct (remove_loop rest s1) as [[r s'] tr].
      destruct IH as [(Hr & Hs & Ht) | (pre & c & post & Hc & Hr & Hf & Hs & Ht)].
      * left. subst. unfold after_removes; cbn [fold_left map].
        rewrite ?E. repeat split.
      * right. exists (i :: pre), c, post. subst.
        unfold after_removes in *; cbn [fold_left map app].
        rewrite ?E. repeat split; assumption.
    + right. exists [], i, rest.
      unfold after_removes; cbn [fold_left map app]. rewrite ?E.
      repeat split.
Qed.

Lemma link_loop_spec (comps : list string) (acc : list (Path * Path))
      (s : fsys) :
  let '(r, _, tr) := link_loop comps acc s in
  r = Ret (acc ++ collect failed_link_of tr)
  /\ collect link_of tr = map link_pair comps
  /\ filter is_log_error tr
     = map (fun st => LogError (link_message st)) (collect failed_link_of tr)
  /\ (forall m, ~ In (SpinnerError m) tr).
Proof.
  revert acc s; induction comps as [|c rest IH]; intros acc s; simpl.
  - rewrite app_nil_r. repeat split. intros m [].
  - unfold bind at 1, do_symlink.
    destruct (create_symlink (USER_DOTFILES_DIR // c) (USER_CONFIGS_DIR // c) s)
      as [ok s1] eqn:E.
    destruct ok; simpl.
    + specialize (IH acc s1).
      destruct (link_loop rest acc s1) as [[r s'] tr].
      destruct IH as (Hr & Hl & He & Hn). simpl.
      repeat split; try assumption.
      * now rewrite Hl.
      * intros m [H|H]; [discriminate | exact (Hn m H)].
    + unfold bind at 1, emit.
      specialize (IH (acc ++ [(USER_DOTFILES_DIR // c, USER_CONFIGS_DIR // c)]) s1).
      destruct (link_loop rest _ s1) as [[r s'] tr].
      destruct IH as (Hr & Hl & He & Hn). simpl.
      repeat split.
      * rewrite Hr, <- app_assoc. reflexivity.
      * now rewrite Hl.
      * now rewrite He.
      * intros m [H|[H|H]]; [discriminate | discriminate | exact (Hn m H)].
Qed.

Lemma validate_loop_pass (ps : list Path) (s : fsys) :
  (forall p, In p ps -> path_lexists p s = true) ->
  validate_loop ps s
  = (Ret true, s, map (fun p => Sys (CLexists p) (ABool true)) ps).
Proof.
  induction ps as [|i rest IH]; intros H; simpl; [reflexivity|].
  unfold bind at 1, lexists.
  rewrite (H i (or_introl eq_refl)); simpl.
  rewrite IH; [reflexivity|]. intros p Hp. apply H. now right.
Qed.

Lemma validate_loop_stop (pre : list Path) (c : Path) (post : list Path)
      (s : fsys) :
  (forall p, In p pre -> path_lexists p s = true) ->
  path_lexists c s = false ->
  validate_loop (pre ++ c :: post) s
  = (Ret false, s,
     map (fun p => Sys (CLexists p) (ABool true)) pre
     ++ [Sys (CLexists c) (ABool false);
         LogError ("Missing source: " ++ str c ++ ".");
         SpinnerError ("Missing source: " ++ str c ++ ", exiting...")]).
Proof.
  induction pre as [|i rest IH]; intros H Hc; simpl.
  - unfold bind at 1, lexists. rewrite Hc. reflexivity.
  - unfold bind at 1, lexists.
    rewrite (H i (or_introl eq_refl)); simpl.
    rewrite IH; [reflexivity| |assumption]. intros p Hp. apply H. now right.
Qed.

Lemma validate_loop_probes (ps : list Path) (s : fsys) :
  exists rest,
    collect probe_of (trace_of (validate_loop ps s)) ++ rest = ps.
Proof.
  induction ps as [|i more IH]; simpl.
  - exists []. reflexivity.
  - unfold bind at 1, lexists.
    destruct (path_lexists i s); simpl.
    + destruct IH as [rest IH].
      destruct (validate_loop more s) as [[r s'] tr]. simpl in *.
      exists rest. now rewrite IH.
    + exists more. reflexivity.
Qed.

End Loops.

(** ** Steps 3 and 4 *)

Section VerifyAndRemove.
Context {P : Paths} {L : Library}.

Lemma missing_in_spec (s : fsys) (ps : list Path) (p : Path) :
  In p (missing_in s ps) <-> In p ps /\ path_lexists p s = false.
Proof.
  unfold missing_in. rewrite filter_In.
  destruct (path_lexists p s); simpl; intuition congruence.
Qed.

(** C3.  On a real run [_verify_copy] probes the staged path of every
    component with [path_lexists], changes nothing, and returns [False]
    exactly when some staged path is absent.  The error records it writes
    to the log are one per absent path, in registry order, each naming its
    path: all of them, not the first only.  The spinner is told of the
    failure exactly when the list of absent paths is not empty. *)
Theorem C3_verify_copy_reports_every_missing_component :
  forall (comps : list string) (s : fsys),
    let staged := map stage_path comps in
    let missing := missing_in s staged in
    let '(r, s', tr) := _verify_copy (installer_with false comps) s in
    s' = s
    /\ collect probe_of tr = staged
    /\ r = Ret (is_nil missing)
    /\ filter is_log_error tr
       = map (fun p => LogError (missing_message p)) missing
    /\ (forall p, In p staged -> path_lexists p s = false ->
                  In (LogError (missing_message p)) tr)
    /\ (In (SpinnerError "Some dotfile components are missing, exiting...") tr
        <-> missing <> []).
Proof.
  intros comps s staged missing.
  rewrite verify_copy_spec. fold staged. fold missing.
  assert (Herr : filter is_log_error
                   (LogInfo "Checking if copied successfully or not."
                    :: flat_map (verify_probe s) staged
                    ++ (if is_nil missing then []
                        else [SpinnerError
                                "Some dotfile components are missing, exiting..."]))
                 = map (fun p => LogError (missing_message p)) missing).
  { cbn [filter is_log_error]. rewrite filter_app, errors_of_verify.
    fold missing. destruct (is_nil missing); simpl; now rewrite app_nil_r. }
  split; [reflexivity|]. split.
  { cbn [collect probe_of]. rewrite collect_app, probes_of_verify.
    destruct (is_nil missing); simpl; now rewrite app_nil_r. }
  split; [reflexivity|]. split; [exact Herr|]. split.
  { intros p Hp Habs.
    assert (Hin : In (LogError (missing_message p))
                     (map (fun p => LogError (missing_message p)) missing)).
    { apply (in_map (fun q => LogError (missing_message q))).
      apply missing_in_spec. now split. }
    rewrite <- Herr in Hin. apply filter_In in Hin. exact (proj1 Hin). }
  split.
  - intros [H|H]; [discriminate|].
    apply in_app_or in H. destruct H as [H|H].
    + exfalso. exact (no_spinner_error_in_verify _ _ _ H).
    + destruct missing; simpl in H; [contradiction | discriminate].
  - intros H. right. apply in_or_app. right.
    destruct missing; [congruence | simpl; now left].
Qed.

(** C5.  On a real run [_remove_existing_configs] calls [remove] on the
    configuration entry of each component in registry order.  Either every
    call succeeds and the step returns [True], or the calls stop at the
    first one that returns [False]: the trace ends with that call and the
    spinner error naming that very path, the step returns [False], and the
    filesystem is the one that failing call left; no [remove] is issued for
    a later component. *)
Theorem C5_removal_stops_at_first_failure :
  forall (comps : list string) (s : fsys),
    let '(r, s', tr) :=
      _remove_existing_configs (installer_with false comps) s in
    (r = Ret true
     /\ s' = after_removes comps s
     /\ tr = [LogInfo "Removing existing configs.";
              SpinnerUpdate "Removing existing configs..."]
             ++ map removed_ok comps)
    \/ (exists pre c post,
           comps = pre ++ c :: post
           /\ r = Ret false
           /\ fst (remove (config_path c) (after_removes pre s)) = false
           /\ s' = snd (remove (config_path c) (after_removes pre s))
           /\ tr = [LogInfo "Removing existing configs.";
                    SpinnerUpdate "Removing existing configs..."]
                   ++ map removed_ok pre
                   ++ [Sys (CRemove (config_path c)) (ABool false);
                       SpinnerError (removal_message (config_path c))]
           /\ collect removal_of tr = map config_path (pre ++ [c])).
Proof.
  intros comps s.
  unfold _remove_existing_configs; simpl.
  unfold bind at 1, emit; simpl. unfold bind at 1; simpl.
  pose proof (remove_loop_spec comps s) as H.
  destruct (remove_loop comps s) as [[r s'] tr]. simpl.
  destruct H as [(Hr & Hs & Ht) | (pre & c & post & Hc & Hr & Hf & Hs & Ht)].
  - left. subst. repeat split.
  - right. exists pre, c, post. subst tr. repeat split; try assumption.
    cbn [collect removal_of]. rewrite collect_app, map_app. simpl.
    f_equal. clear. induction pre as [|a pre IH]; simpl; [reflexivity|].
    now rewrite IH.
Qed.

End VerifyAndRemove.

(** ** The derived paths *)

Section DerivedPaths.
Context {P : Paths} {L : Library}.

Lemma create_links_attempts (comps : list string) (s : fsys) :
  collect link_of (trace_of (_create_links (installer_with false comps) s))
  = map link_pair comps.
Proof.
  unfold _create_links; simpl.
  unfold bind at 1, emit; simpl. unfold bind at 1; simpl. unfold bind at 1.
  pose proof (link_loop_spec comps [] s) as H.
  destruct (link_loop comps [] s) as [[r s'] tr].
  destruct H as (Hr & Hl & _). subst r. simpl.
  destruct (collect failed_link_of tr); simpl;
    rewrite collect_app; simpl; now rewrite app_nil_r.
Qed.

Lemma map_fst_link_pair (comps : list string) :
  map fst (map link_pair comps) = map stage_path comps.
Proof. rewrite map_map. reflexivity. Qed.

Lemma map_snd_link_pair (comps : list string) :
  map snd (map link_pair comps) = map config_path comps.
Proof. rewrite map_map. reflexivity. Qed.

(** C8.  The three paths of a component are [HYPRDOTS_DOTFILES_DIR / name],
    [USER_DOTFILES_DIR / name] and [USER_CONFIGS_DIR / name] wherever they
    are computed.  The lists built by [__init__] are these; on any two
    filesystems, the paths step 1 probes are an initial segment of the
    source paths, the paths step 3 probes are exactly the link sources of
    step 5, and the paths step 4 removes are an initial segment of the link
    targets of step 5 (all of them when no removal fails). *)
Theorem C8_paths_are_the_same_at_every_step :
  forall (dry : bool) (comps : list string),
    source_dotfiles_components_paths (installer_with dry comps)
      = map source_path comps
    /\ target_dotfiles_components_paths (installer_with dry comps)
      = map stage_path comps
    /\ forall (s1 s3 s4 s5 : fsys),
        let self := installer_with false comps in
        let links := collect link_of (trace_of (_create_links self s5)) in
        links = map link_pair comps
        /\ (exists rest,
               collect probe_of (trace_of (_validate_sources self s1)) ++ rest
               = map source_path comps)
        /\ collect probe_of (trace_of (_verify_copy self s3)) = map fst links
        /\ (exists rest,
               collect removal_of
                 (trace_of (_remove_existing_configs self s4)) ++ rest
               = map snd links).
Proof.
  intros dry comps. split; [reflexivity|]. split; [reflexivity|].
  intros s1 s3 s4 s5 self links.
  assert (Hl : links = map link_pair comps) by apply create_links_attempts.
  split; [exact Hl|]. split.
  { unfold self, _validate_sources; simpl.
    unfold bind at 1, emit; simpl. unfold bind at 1; simpl.
    destruct (validate_loop_probes (map source_path comps) s1) as [rest H].
    exists rest. unfold source_path in *.
    destruct (validate_loop _ s1) as [[r s'] tr]. exact H. }
  split.
  { rewrite Hl, map_fst_link_pair.
    pose proof (C3 := verify_copy_spec comps s3).
    unfold self. rewrite C3. unfold trace_of; simpl.
    rewrite collect_app, probes_of_verify.
    destruct (is_nil _); simpl; now rewrite app_nil_r. }
  rewrite Hl, map_snd_link_pair.
  unfold self, _remove_existing_configs; simpl.
  unfold bind at 1, emit; simpl. unfold bind at 1; simpl.
  pose proof (remove_loop_spec comps s4) as H.
  destruct (remove_loop comps s4) as [[r s'] tr]. unfold trace_of; simpl.
  assert (Hok : forall l, collect removal_of (map removed_ok l)
                          = map config_path l).
  { induction l as [|a l IH]; simpl; [reflexivity | now rewrite IH]. }
  destruct H as [(Hr & Hs & Ht) | (pre & c & post & Hc & Hr & Hf & Hs & Ht)].
  - exists []. subst tr. rewrite app_nil_r. apply Hok.
  - exists (map config_path post). subst tr comps.
    rewrite collect_app, Hok, map_app. simpl.
    rewrite <- app_assoc. reflexivity.
Qed.

End DerivedPaths.

(** ** Fail-fast *)

Section FailFast.
Context {P : Paths} {L : Library}.

Lemma install_stops_at_failure (self : DotfilesInstaller) (s : fsys) :
  forall (k : nat) (s1 s2 : fsys) (t1 t2 : list event),
    k < 7 ->
    passes 0 (firstn k (steps self)) s = Some (s1, t1) ->
    nth k (steps self) (ret true) s1 = (Ret false, s2, t2) ->
    install self s
    = (Ret false, s2, t1 ++ interlude k ++ t2 ++ [SpinnerExit]).
Proof.
  intros k s1 s2 t1 t2 Hk Hpass Hfail.
  destruct k as [|[|[|[|[|[|[|k]]]]]]]; try lia; clear Hk;
    cbn [steps firstn passes nth] in Hpass, Hfail.
  - injection Hpass as <- <-.
    unfold_install. rewrite Hfail; simpl. norm_trace. reflexivity.
  - run_step E1. injection Hpass as <- <-.
    unfold_install. rewrite E1; simpl. rewrite Hfail; simpl.
    norm_trace. reflexivity.
  - run_step E1. run_step E2. injection Hpass as <- <-.
    unfold_install. rewrite E1; simpl. rewrite E2; simpl.
    rewrite Hfail; simpl.
    norm_trace. reflexivity.
  - run_step E1. run_step E2. run_step E3. injection Hpass as <- <-.
    unfold_install. rewrite E1; simpl. rewrite E2; simpl. rewrite E3; simpl.
    rewrite Hfail; simpl.
    norm_trace. reflexivity.
  - run_step E1. run_step E2. run_step E3. run_step E4.
    injection Hpass as <- <-.
    unfold_install. rewrite E1; simpl. rewrite E2; simpl. rewrite E3; simpl.
    rewrite E4; simpl. rewrite Hfail; simpl.
    norm_trace. reflexivity.
  - run_step E1. run_step E2. run_step E3. run_step E4. run_step E5.
    injection Hpass as <- <-.
    unfold_install. rewrite E1; simpl. rewrite E2; simpl. rewrite E3; simpl.
    rewrite E4; simpl. rewrite E5; simpl. rewrite Hfail; simpl.
    norm_trace. reflexivity.
  - run_step E1. run_step E2. run_step E3. run_step E4. run_step E5.
    run_step E6. injection Hpass as <- <-.
    unfold_install. rewrite E1; simpl. rewrite E2; simpl. rewrite E3; simpl.
    rewrite E4; simpl. rewrite E5; simpl. rewrite E6; simpl.
    rewrite Hfail; simpl.
    norm_trace. reflexivity.
Qed.

End FailFast.

Section FailFastClaim.
Context {P : Paths} {L : Library}.

Lemma install_missing_source (pre : list string) (c : string)
      (post : list string) (s : fsys) :
  (forall n, In n pre -> path_lexists (source_path n) s = true) ->
  path_lexists (source_path c) s = false ->
  install (installer_with false (pre ++ c :: post)) s
  = (Ret false, s,
     interlude 0
     ++ [LogInfo "Validating source dotfiles components.";
         SpinnerUpdate "Validating source dotfiles components..."]
     ++ map (fun n => Sys (CLexists (source_path n)) (ABool true)) pre
     ++ [Sys (CLexists (source_path c)) (ABool false);
         LogError ("Missing source: " ++ str (source_path c) ++ ".");
         SpinnerError ("Missing source: " ++ str (source_path c)
                         ++ ", exiting...");
         SpinnerExit]).
Proof.
  intros Hpre Hc.
  assert (Hv : _validate_sources (installer_with false (pre ++ c :: post)) s
               = (Ret false, s,
                  [LogInfo "Validating source dotfiles components.";
                   SpinnerUpdate "Validating source dotfiles components..."]
                  ++ map (fun n => Sys (CLexists (source_path n)) (ABool true))
                         pre
                  ++ [Sys (CLexists (source_path c)) (ABool false);
                      LogError ("Missing source: " ++ str (source_path c)
                                  ++ ".");
                      SpinnerError ("Missing source: " ++ str (source_path c)
                                      ++ ", exiting...")])).
  { unfold _validate_sources; simpl.
    unfold bind at 1, emit; simpl. unfold bind at 1; simpl.
    fold source_path. rewrite map_app; simpl.
    rewrite validate_loop_stop.
    - rewrite map_map. reflexivity.
    - intros p Hp. apply in_map_iff in Hp. destruct Hp as (n & <- & Hn).
      now apply Hpre.
    - exact Hc. }
  rewrite (@install_stops_at_failure _ _ _ s 0 s s [] _ (ltac:(lia)) eq_refl Hv).
  simpl. rewrite <- ?app_assoc. reflexivity.
Qed.

(** C2.  [install] is a fail-fast chain.  Whatever step is the first to
    return [False] (all the steps before it having returned [True]),
    [install] returns [False], the filesystem it leaves is the one that
    step left, and its trace is the trace of the steps up to and including
    that one followed by the release of the spinner alone: no later step
    runs.  In particular, on a real run where the source path of some
    component is absent, [install] returns [False] after logging and
    reporting the first absent path, the trace holds nothing but the probes
    of step 1 up to that path, and the filesystem is the one it started
    from (so the staging directory has not been created). *)
Theorem C2_install_is_fail_fast :
  forall (self : DotfilesInstaller) (s : fsys),
    (forall (k : nat) (s1 s2 : fsys) (t1 t2 : list event),
        k < 7 ->
        passes 0 (firstn k (steps self)) s = Some (s1, t1) ->
        nth k (steps self) (ret true) s1 = (Ret false, s2, t2) ->
        install self s
        = (Ret false, s2, t1 ++ interlude k ++ t2 ++ [SpinnerExit]))
    /\ (forall (pre : list string) (c : string) (post : list string),
           (forall n, In n pre -> path_lexists (source_path n) s = true) ->
           path_lexists (source_path c) s = false ->
           install (installer_with false (pre ++ c :: post)) s
           = (Ret false, s,
              interlude 0
              ++ [LogInfo "Validating source dotfiles components.";
                  SpinnerUpdate "Validating source dotfiles components..."]
              ++ map (fun n => Sys (CLexists (source_path n)) (ABool true)) pre
              ++ [Sys (CLexists (source_path c)) (ABool false);
                  LogError ("Missing source: " ++ str (source_path c) ++ ".");
                  SpinnerError ("Missing source: " ++ str (source_path c)
                                  ++ ", exiting...");
                  SpinnerExit])).
Proof.
  intros self s. split.
  - intros k s1 s2 t1 t2. apply install_stops_at_failure.
  - intros pre c post. apply install_missing_source.
Qed.

End FailFastClaim.

(** ** Faults of the clone *)

Lemma no_run_app (t1 t2 : list event) :
  no_run t1 -> no_run t2 -> no_run (t1 ++ t2).
Proof.
  unfold no_run. intros H1 H2. now rewrite existsb_app, H1, H2.
Qed.

Lemma no_run_not_in (tr : list event) (c : command) (a : answer) :
  no_run tr -> ~ In (Sys (CRun c) a) tr.
Proof.
  unfold no_run. intros H Hin.
  assert (existsb is_run tr = true).
  { apply existsb_exists. exists (Sys (CRun c) a). now split. }
  congruence.
Qed.

Ltac by_no_run :=
  match goal with
  | N : no_run ?t, H : In (Sys (CRun ?c) ?a) ?t |- _ =>
      exact (@no_run_not_in t c a N H)
  end.

Section CloneFaults.
Context {P : Paths} {L : Library}.

Lemma validate_loop_no_run (ps : list Path) (s : fsys) :
  no_run (trace_of (validate_loop ps s)).
Proof.
  induction ps as [|i rest IH]; simpl; [reflexivity|].
  unfold bind at 1, lexists.
  destruct (path_lexists i s); simpl.
  - destruct (validate_loop rest s) as [[r s'] tr]. exact IH.
  - reflexivity.
Qed.

Lemma verify_loop_no_run (ps acc : list Path) (s : fsys) :
  no_run (trace_of (verify_loop ps acc s)).
Proof.
  rewrite verify_loop_spec. unfold trace_of; simpl.
  induction ps as [|i rest IH]; simpl; [reflexivity|].
  destruct (path_lexists i s); simpl; exact IH.
Qed.

Lemma remove_loop_no_run (comps : list string) (s : fsys) :
  no_run (trace_of (remove_loop comps s)).
Proof.
  revert s; induction comps as [|i rest IH]; intros s; simpl; [reflexivity|].
  unfold bind at 1, do_remove.
  destruct (remove (USER_CONFIGS_DIR // i) s) as [[|] s1]; simpl.
  - specialize (IH s1). destruct (remove_loop rest s1) as [[r s'] tr].
    exact IH.
  - reflexivity.
Qed.

Lemma link_loop_no_run (comps : list string) (acc : list (Path * Path))
      (s : fsys) :
  no_run (trace_of (link_loop comps acc s)).
Proof.
  revert acc s; induction comps as [|c rest IH]; intros acc s; simpl;
    [reflexivity|].
  unfold bind at 1, do_symlink.
  destruct (create_symlink (USER_DOTFILES_DIR // c) (USER_CONFIGS_DIR // c) s)
    as [[|] s1]; simpl.
  - specialize (IH acc s1). destruct (link_loop rest acc s1) as [[r s'] tr].
    exact IH.
  - unfold bind at 1, emit.
    specialize (IH (acc ++ [(USER_DOTFILES_DIR // c, USER_CONFIGS_DIR // c)]) s1).
    destruct (link_loop rest _ s1) as [[r s'] tr]. exact IH.
Qed.

Lemma validate_sources_no_run (self : DotfilesInstaller) (s : fsys) :
  no_run (trace_of (_validate_sources self s)).
Proof.
  unfold _validate_sources. destruct (dry_run self); [reflexivity|].
  unfold bind at 1, emit; simpl. unfold bind at 1; simpl.
  pose proof (validate_loop_no_run (source_dotfiles_components_paths self) s).
  destruct (validate_loop _ s) as [[r s'] tr]. assumption.
Qed.

Lemma copy_dotfiles_no_run (self : DotfilesInstaller) (s : fsys) :
  no_run (trace_of (_copy_dotfiles self s)).
Proof.
  unfold _copy_dotfiles. destruct (dry_run self); [reflexivity|].
  unfold bind, emit, ret, p_exists, do_remove, try_except, do_copy, raising.
  simpl.
  destruct (path_exists USER_DOTFILES_DIR s); simpl.
  - destruct (remove USER_DOTFILES_DIR s) as [b s1]; simpl.
    destruct (copy HYPRDOTS_DOTFILES_DIR USER_DOTFILES_DIR s1) as [[e|] s2];
      reflexivity.
  - destruct (copy HYPRDOTS_DOTFILES_DIR USER_DOTFILES_DIR s) as [[e|] s2];
      reflexivity.
Qed.

Lemma verify_copy_no_run (self : DotfilesInstaller) (s : fsys) :
  no_run (trace_of (_verify_copy self s)).
Proof.
  unfold _verify_copy. destruct (dry_run self); [reflexivity|].
  unfold bind at 1, emit; simpl. unfold bind at 1.
  pose proof (verify_loop_no_run (target_dotfiles_components_paths self) [] s)
    as H.
  destruct (verify_loop _ [] s) as [[[m|e] s'] tr]; simpl in *.
  - destruct m; simpl; unfold trace_of; simpl.
    + now rewrite app_nil_r.
    + unfold bind, emit, ret; simpl. apply no_run_app; [exact H|reflexivity].
  - exact H.
Qed.

Lemma remove_existing_configs_no_run (self : DotfilesInstaller) (s : fsys) :
  no_run (trace_of (_remove_existing_configs self s)).
Proof.
  unfold _remove_existing_configs. destruct (dry_run self); [reflexivity|].
  unfold bind at 1, emit; simpl. unfold bind at 1; simpl.
  pose proof (remove_loop_no_run (dotfiles_components self) s).
  destruct (remove_loop _ s) as [[r s'] tr]. assumption.
Qed.

Lemma create_links_no_run (self : DotfilesInstaller) (s : fsys) :
  no_run (trace_of (_create_links self s)).
Proof.
  unfold _create_links. destruct (dry_run self); [reflexivity|].
  unfold bind at 1, emit; simpl. unfold bind at 1; simpl. unfold bind at 1.
  pose proof (link_loop_no_run (dotfiles_components self) [] s) as H.
  destruct (link_loop _ [] s) as [[[m|e] s'] tr]; simpl in *.
  - destruct m; simpl; unfold trace_of; simpl.
    + now rewrite app_nil_r.
    + unfold bind, emit, ret; simpl. apply no_run_app; [exact H|reflexivity].
  - exact H.
Qed.

(** Step 6 returns [False] on a fault of its clone, which it has logged
    and named on the spinner. *)
Lemma install_tpm_spec (self : DotfilesInstaller) (s : fsys) :
  let '(r, _, tr) := _install_tpm self s in
  forall c e, In (Sys (CRun c) (ARaised e)) tr ->
              r = Ret false /\ exists pre, tr = pre ++ tpm_failure e.
Proof.
  unfold _install_tpm, tpm_failure, tpm_clone.
  destruct (dry_run self).
  { simpl. intros c e H. pick_event H. }
  unfold_step.
  destruct (path_exists tpm_dir s); simpl.
  - destruct (remove tpm_dir s) as [b s1]; simpl.
    destruct (run_command (GitClone tpm_url tpm_dir) s1) as [[e0|] s2]; simpl.
    + intros c e H. pick_event H.
      injection H as -> ->. split; [reflexivity|].
      now exists [LogInfo "Installing TPM (Tmux Plugin Manager)";
                  SpinnerUpdate "Installing TPM for tmux...";
                  Sys (CExists tpm_dir) (ABool true);
                  Sys (CRemove tpm_dir) (ABool b)].
    + intros c e H. pick_event H.
  - destruct (run_command (GitClone tpm_url tpm_dir) s) as [[e0|] s2]; simpl.
    + intros c e H. pick_event H.
      injection H as -> ->. split; [reflexivity|].
      now exists [LogInfo "Installing TPM (Tmux Plugin Manager)";
                  SpinnerUpdate "Installing TPM for tmux...";
                  Sys (CExists tpm_dir) (ABool false)].
    + intros c e H. pick_event H.
Qed.


(** Step 7 returns [False] on a fault of its clone; whatever leaves the
    step has left it before any clone was started. *)
Lemma install_lazyvim_spec (self : DotfilesInstaller) (s : fsys) :
  let '(r, _, tr) := _install_lazyvim self s in
  (forall c e, In (Sys (CRun c) (ARaised e)) tr ->
               r = Ret false /\ exists pre, tr = pre ++ lazyvim_failure e)
  /\ (forall e', r = Raise e' -> no_run tr).
Proof.
  unfold _install_lazyvim, lazyvim_failure, lazyvim_clone.
  destruct (dry_run self).
  { simpl. split; [intros c e H; pick_event H | discriminate]. }
  unfold_step. split_cases; simpl;
    (split;
     [ intros c e' H; pick_event H; injection H as <- <-;
       split; try reflexivity; close_suffix
     | intros e' H; try discriminate H; reflexivity ]).
Qed.


(** A fault of a clone never leaves [install]: it returns [False]. *)
Lemma install_clone_fault (self : DotfilesInstaller) (s : fsys) :
  let '(r, _, tr) := install self s in
  forall c e, In (Sys (CRun c) (ARaised e)) tr -> r = Ret false.
Proof.
  unfold install, core_block, third_party_block, with_spinner, bind, emit, ret.
  pose proof (validate_sources_no_run self s) as N1.
  destruct (_validate_sources self s) as [[[[|]|?] s1] ?];
    unfold trace_of in N1; simpl in N1; simpl.
  2,3: intros c ex H; try reflexivity; exfalso; break_in H;
       by_no_run.
  pose proof (copy_dotfiles_no_run self s1) as N2.
  destruct (_copy_dotfiles self s1) as [[[[|]|?] s2] ?];
    unfold trace_of in N2; simpl in N2; simpl.
  2,3: intros c ex H; try reflexivity; exfalso; break_in H;
       by_no_run.
  pose proof (verify_copy_no_run self s2) as N3.
  destruct (_verify_copy self s2) as [[[[|]|?] s3] ?];
    unfold trace_of in N3; simpl in N3; simpl.
  2,3: intros c ex H; try reflexivity; exfalso; break_in H;
       by_no_run.
  pose proof (remove_existing_configs_no_run self s3) as N4.
  destruct (_remove_existing_configs self s3) as [[[[|]|?] s4] ?];
    unfold trace_of in N4; simpl in N4; simpl.
  2,3: intros c ex H; try reflexivity; exfalso; break_in H;
       by_no_run.
  pose proof (create_links_no_run self s4) as N5.
  destruct (_create_links self s4) as [[[[|]|?] s5] ?];
    unfold trace_of in N5; simpl in N5; simpl.
  2,3: intros c ex H; try reflexivity; exfalso; break_in H;
       by_no_run.
  pose proof (install_tpm_spec self s5) as T6.
  destruct (_install_tpm self s5) as [[[[|]|?] s6] ?]; simpl.
  2,3: intros c ex H; try reflexivity; exfalso; break_in H;
       first [ by_no_run
             | destruct (T6 _ _ H) as [X _]; discriminate X ].
  pose proof (install_lazyvim_spec self s6) as T7.
  destruct (_install_lazyvim self s6) as [[[[|]|?] s7] ?];
    destruct T7 as [T7 _]; simpl.
  all: intros c ex H; try reflexivity; exfalso; break_in H;
       first [ by_no_run
             | destruct (T6 _ _ H) as [X _]; discriminate X
             | destruct (T7 _ _ H) as [X _]; discriminate X ].
Qed.

(** C9, as amended.  Whatever the clone of a bootstrap step raises (the
    exit status of [git], the failure to spawn it, anything else), the
    step catches it: it logs the failure with the exception's text, names
    the failed installation on the spinner, and returns [False];
    [install] then returns [False] as well.  No fault of a clone leaves a
    step or [install]: when step 7 does raise, it has not started its
    clone.  Faults of the calls made before the clone are not caught by
    anything, and are not spoken of here. *)
Theorem C9_clone_faults_are_caught :
  forall (self : DotfilesInstaller) (s : fsys),
    (let '(r, _, tr) := _install_tpm self s in
     forall c e, In (Sys (CRun c) (ARaised e)) tr ->
                 r = Ret false /\ exists pre, tr = pre ++ tpm_failure e)
    /\ (let '(r, _, tr) := _install_lazyvim self s in
        (forall c e, In (Sys (CRun c) (ARaised e)) tr ->
                     r = Ret false
                     /\ exists pre, tr = pre ++ lazyvim_failure e)
        /\ (forall e', r = Raise e' -> no_run tr))
    /\ (let '(r, _, tr) := install self s in
        forall c e, In (Sys (CRun c) (ARaised e)) tr -> r = Ret false).
Proof.
  intros self s. split; [|split].
  - apply install_tpm_spec.
  - apply install_lazyvim_spec.
  - apply install_clone_fault.
Qed.

End CloneFaults.

(** ** The filesystem model *)

Module FsFacts.
Import Fs.

Lemma is_prefix_refl (p : Path) : is_prefix p p = true.
Proof.
  induction p as [|x p IH]; simpl; [reflexivity|].
  now rewrite String.eqb_refl.
Qed.

Lemma is_prefix_app (p r : Path) : is_prefix p (p ++ r) = true.
Proof.
  induction p as [|x p IH]; simpl; [reflexivity|].
  now rewrite String.eqb_refl.
Qed.

Lemma is_prefix_app_same (p a b : Path) :
  is_prefix (p ++ a) (p ++ b) = is_prefix a b.
Proof.
  induction p as [|x p IH]; simpl; [reflexivity|].
  now rewrite String.eqb_refl.
Qed.

Lemma is_prefix_spec (p q : Path) :
  is_prefix p q = true <-> exists r, q = p ++ r.
Proof.
  revert q; induction p as [|x p IH]; intros q; simpl.
  - split; [intros _; now exists q | reflexivity].
  - destruct q as [|y q].
    + split; [discriminate | intros [r H]; discriminate].
    + rewrite andb_true_iff, String.eqb_eq, IH. split.
      * intros [-> [r ->]]. now exists r.
      * intros [r H]. injection H as -> ->. split; [reflexivity|now exists r].
Qed.

Lemma is_prefix_trans (p q r : Path) :
  is_prefix p q = true -> is_prefix q r = true -> is_prefix p r = true.
Proof.
  rewrite !is_prefix_spec. intros [a ->] [b ->].
  exists (a ++ b). now rewrite app_assoc.
Qed.

Lemma path_eqb_eq (p q : Path) : path_eqb p q = true -> p = q.
Proof.
  unfold path_eqb. rewrite andb_true_iff, !is_prefix_spec.
  intros [[a ->] [b H]].
  rewrite <- app_assoc in H. rewrite <- (app_nil_r p) in H at 1.
  apply app_inv_head in H. symmetry in H. apply app_eq_nil in H.
  destruct H as [-> _]. now rewrite app_nil_r.
Qed.

Lemma path_eqb_refl (p : Path) : path_eqb p p = true.
Proof. unfold path_eqb. now rewrite is_prefix_refl. Qed.

(** Two paths one of which extends the other in a different direction. *)
Lemma is_prefix_sibling (p : Path) (x y : string) (a b : Path) :
  String.eqb x y = false ->
  is_prefix (p ++ x :: a) (p ++ y :: b) = false.
Proof.
  intros H. rewrite is_prefix_app_same. simpl. now rewrite H.
Qed.

Lemma assoc_unlink_same (x : string) (es : list (string * node)) :
  assoc x (unlink x es) = None.
Proof.
  induction es as [|[y n] es IH]; simpl; [reflexivity|].
  destruct (String.eqb x y) eqn:E; simpl; [exact IH|].
  now rewrite E.
Qed.

Lemma assoc_unlink_other (x y : string) (es : list (string * node)) :
  String.eqb x y = false -> assoc x (unlink y es) = assoc x es.
Proof.
  intros H. induction es as [|[z n] es IH]; simpl; [reflexivity|].
  destruct (String.eqb y z) eqn:E; simpl.
  - apply String.eqb_eq in E. subst z. now rewrite H.
  - now rewrite IH.
Qed.

Lemma assoc_set_entry_same (x : string) (n : node)
      (es : list (string * node)) :
  assoc x (set_entry x n es) = Some n.
Proof. unfold set_entry; simpl. now rewrite String.eqb_refl. Qed.

Lemma assoc_set_entry_other (x y : string) (n : node)
      (es : list (string * node)) :
  String.eqb x y = false -> assoc x (set_entry y n es) = assoc x es.
Proof.
  intros H. unfold set_entry; simpl. rewrite H.
  now apply assoc_unlink_other.
Qed.

Lemma lookup_app (n : node) (p q : Path) :
  lookup n (p ++ q)
  = match lookup n p with Some c => lookup c q | None => None end.
Proof.
  revert n; induction p as [|x p IH]; intros n; simpl; [reflexivity|].
  destruct n as [d|t|es]; try reflexivity.
  destruct (assoc x es); [apply IH | reflexivity].
Qed.

Lemma lookup_prefix_some (n : node) (p q : Path) :
  is_prefix p q = true -> lookup n q <> None -> lookup n p <> None.
Proof.
  rewrite is_prefix_spec. intros [r ->]. rewrite lookup_app.
  destruct (lookup n p); congruence.
Qed.

(** What [alter] leaves at and below the path it was given. *)
Lemma lookup_alter_below (b : bool) (n n' : node) (p q : Path)
      (v : option node) :
  alter b n p v = Some n' ->
  lookup n' (p ++ q)
  = match v with Some c => lookup c q | None => None end.
Proof.
  revert n n'; induction p as [|x r IH]; intros n n' H; simpl in *.
  - subst v. reflexivity.
  - destruct n as [d|t|es]; try discriminate.
    destruct r as [|y r].
    + injection H as <-.
      destruct v as [c|]; cbn [lookup].
      * now rewrite assoc_set_entry_same.
      * now rewrite assoc_unlink_same.
    + destruct (match assoc x es with
                | Some c => Some c
                | None => if b then Some (Dir []) else None
                end) as [c|]; try discriminate.
      destruct (alter b c (y :: r) v) as [c'|] eqn:E; try discriminate.
      injection H as <-.
      cbn [lookup]. rewrite assoc_set_entry_same.
      exact (IH _ _ E).
Qed.

(** [alter] does not disturb a path that neither leads to its own nor
    lies below it. *)
Lemma lookup_alter_frame (b : bool) (n n' : node) (p q : Path)
      (v : option node) :
  alter b n p v = Some n' ->
  is_prefix p q = false -> is_prefix q p = false ->
  lookup n' q = lookup n q.
Proof.
  revert n n' q; induction p as [|x r IH]; intros n n' q H Hpq Hqp.
  - discriminate.
  - destruct q as [|y q]; [discriminate|].
    simpl in H. destruct n as [d|t|es]; try discriminate.
    simpl in Hpq, Hqp.
    destruct (String.eqb x y) eqn:Exy.
    + apply String.eqb_eq in Exy. subst y.
      rewrite String.eqb_refl in Hqp. simpl in Hpq, Hqp.
      destruct r as [|z r]; [discriminate|].
      destruct (assoc x es) as [c0|] eqn:Ea.
      * destruct (alter b c0 (z :: r) v) as [c'|] eqn:E; try discriminate.
        injection H as <-. cbn [lookup].
        rewrite assoc_set_entry_same, Ea. exact (IH _ _ _ E Hpq Hqp).
      * destruct b; try discriminate.
        destruct (alter true (Dir []) (z :: r) v) as [c'|] eqn:E;
          try discriminate.
        injection H as <-. cbn [lookup].
        rewrite assoc_set_entry_same, Ea. rewrite (IH _ _ _ E Hpq Hqp).
        destruct q; [discriminate | reflexivity].
    + assert (Eyx : String.eqb y x = false)
        by (rewrite String.eqb_sym; exact Exy).
      assert (Hn : exists es', n' = Dir es' /\ assoc y es' = assoc y es).
      { destruct r as [|z r].
        - injection H as <-. eexists; split; [reflexivity|].
          destruct v; [now apply assoc_set_entry_other
                      | now apply assoc_unlink_other].
        - destruct (match assoc x es with
                    | Some c => Some c
                    | None => if b then Some (Dir []) else None
                    end) as [c|]; try discriminate.
          destruct (alter b c (z :: r) v) as [c'|]; try discriminate.
          injection H as <-. eexists; split; [reflexivity|].
          now apply assoc_set_entry_other. }
      destruct Hn as (es' & -> & Hes). cbn [lookup]. now rewrite Hes.
Qed.

(** [alter] keeps every entry that is not a directory and does not lie at
    or below its path. *)
Lemma lookup_alter_keeps (b : bool) (n n' : node) (p q : Path)
      (v : option node) (x : node) :
  alter b n p v = Some n' ->
  lookup n q = Some x ->
  (forall es, x <> Dir es) ->
  is_prefix p q = false ->
  lookup n' q = Some x.
Proof.
  intros H Hx Hnd Hpq.
  destruct (is_prefix q p) eqn:Hqp.
  - exfalso. revert n n' q H Hx Hpq Hqp.
    induction p as [|a r IH]; intros n n' q H Hx Hpq Hqp; [discriminate|].
    destruct q as [|y q].
    + simpl in Hx. injection Hx as <-.
      simpl in H. destruct n; try discriminate. now apply (Hnd entries).
    + simpl in H, Hx, Hpq, Hqp. destruct n as [d|t|es]; try discriminate.
      apply andb_true_iff in Hqp. destruct Hqp as [Hya Hqp].
      apply String.eqb_eq in Hya. subst y.
      rewrite String.eqb_refl in Hpq. simpl in Hpq.
      destruct r as [|z r]; [discriminate|].
      destruct (assoc a es) as [c0|]; try discriminate.
      destruct (alter b c0 (z :: r) v) as [c'|] eqn:E; try discriminate.
      exact (IH _ _ _ E Hx Hpq Hqp).
  - rewrite (lookup_alter_frame _ _ _ _ _ _ H Hpq Hqp). exact Hx.
Qed.


(** [alter] removes nothing that does not lie at or below its path. *)
Lemma lookup_alter_survives (b : bool) (n n' : node) (p q : Path)
      (v : option node) :
  alter b n p v = Some n' ->
  lookup n q <> None -> is_prefix p q = false ->
  lookup n' q <> None.
Proof.
  revert n n' q; induction p as [|x r IH]; intros n n' q H Hq Hp;
    [discriminate|].
  destruct q as [|y q]; [discriminate|].
  simpl in H, Hq, Hp. destruct n as [d|t|es]; try discriminate.
  destruct (String.eqb x y) eqn:Exy.
  - apply String.eqb_eq in Exy. subst y. simpl in Hp.
    destruct r as [|z r]; [discriminate|].
    destruct (assoc x es) as [c0|] eqn:Ea; [|congruence].
    destruct (alter b c0 (z :: r) v) as [c'|] eqn:E; try discriminate.
    injection H as <-. cbn [lookup]. rewrite assoc_set_entry_same.
    exact (IH _ _ _ E Hq Hp).
  - assert (Eyx : String.eqb y x = false)
      by (rewrite String.eqb_sym; exact Exy).
    assert (Hn : exists es', n' = Dir es' /\ assoc y es' = assoc y es).
    { destruct r as [|z r].
      - injection H as <-. eexists; split; [reflexivity|].
        destruct v; [now apply assoc_set_entry_other
                    | now apply assoc_unlink_other].
      - destruct (match assoc x es with
                  | Some c => Some c
                  | None => if b then Some (Dir []) else None
                  end) as [c|]; try discriminate.
        destruct (alter b c (z :: r) v) as [c'|]; try discriminate.
        injection H as <-. eexists; split; [reflexivity|].
        now apply assoc_set_entry_other. }
    destruct Hn as (es' & -> & Hes). cbn [lookup]. now rewrite Hes.
Qed.

Lemma prefix_comparable (a b c : Path) :
  is_prefix a c = true -> is_prefix b c = true ->
  is_prefix a b = true \/ is_prefix b a = true.
Proof.
  revert b c; induction a as [|x a IH]; intros b c Ha Hb; [now left|].
  destruct b as [|y b]; [now right|].
  destruct c as [|z c]; [discriminate|]. simpl in *.
  apply andb_true_iff in Ha. destruct Ha as [Hx Ha].
  apply andb_true_iff in Hb. destruct Hb as [Hy Hb].
  apply String.eqb_eq in Hx, Hy. subst y z. rewrite String.eqb_refl. simpl.
  exact (IH _ _ Ha Hb).
Qed.

Lemma prefix_snoc (a b : Path) (x : string) :
  is_prefix a (b ++ [x]) = true -> is_prefix a b = true \/ a = b ++ [x].
Proof.
  revert b; induction a as [|y a IH]; intros b H; [now left|].
  destruct b as [|z b]; simpl in *.
  - apply andb_true_iff in H. destruct H as [Hy Ha].
    apply String.eqb_eq in Hy. subst y.
    destruct a; [now right | discriminate].
  - apply andb_true_iff in H. destruct H as [Hy Ha].
    rewrite Hy. simpl. apply String.eqb_eq in Hy. subst z.
    destruct (IH _ Ha) as [H|H]; [now left | right; now rewrite H].
Qed.

Lemma disjoint_spec (p q : Path) :
  disjoint p q = true <-> is_prefix p q = false /\ is_prefix q p = false.
Proof.
  unfold disjoint. rewrite andb_true_iff, !negb_true_iff. tauto.
Qed.

Lemma disjoint_sym (p q : Path) : disjoint p q = disjoint q p.
Proof. unfold disjoint. apply andb_comm. Qed.

Lemma disjoint_app (a b r r' : Path) :
  disjoint a b = true -> disjoint (a ++ r) (b ++ r') = true.
Proof.
  rewrite !disjoint_spec. intros [H1 H2]. split.
  - destruct (is_prefix (a ++ r) (b ++ r')) eqn:E; [|reflexivity].
    assert (Ha : is_prefix a (b ++ r') = true)
      by exact (is_prefix_trans _ _ _ (is_prefix_app a r) E).
    destruct (prefix_comparable _ _ _ Ha (is_prefix_app b r')); congruence.
  - destruct (is_prefix (b ++ r') (a ++ r)) eqn:E; [|reflexivity].
    assert (Hb : is_prefix b (a ++ r) = true)
      by exact (is_prefix_trans _ _ _ (is_prefix_app b r') E).
    destruct (prefix_comparable _ _ _ Hb (is_prefix_app a r)); congruence.
Qed.

Lemma disjoint_siblings (p : Path) (x y : string) (a b : Path) :
  String.eqb x y = false -> disjoint (p ++ x :: a) (p ++ y :: b) = true.
Proof.
  intros H. apply disjoint_spec. split; apply is_prefix_sibling;
    [exact H | now rewrite String.eqb_sym].
Qed.

Lemma disjoint_below (p a b : Path) :
  disjoint a b = true -> disjoint (p ++ a) (p ++ b) = true.
Proof.
  rewrite !disjoint_spec, !is_prefix_app_same. tauto.
Qed.

Lemma altered_frame (p q : Path) (s s' : state) :
  altered_at p s s' -> disjoint p q = true ->
  lookup (root s') q = lookup (root s) q.
Proof.
  intros [->|(b & v & r & H & ->)] D; [reflexivity|].
  apply disjoint_spec in D. destruct D as [D1 D2].
  exact (lookup_alter_frame _ _ _ _ _ _ H D1 D2).
Qed.

Lemma altered_keeps (p q : Path) (s s' : state) (x : node) :
  altered_at p s s' ->
  lookup (root s) q = Some x -> is_dir x = false ->
  is_prefix p q = false ->
  lookup (root s') q = Some x.
Proof.
  intros [->|(b & v & r & H & ->)] Hx Hd Hp; [exact Hx|].
  apply (lookup_alter_keeps _ _ _ _ _ _ _ H Hx); [|exact Hp].
  intros es ->. discriminate.
Qed.

Lemma reach_frame (ps : list Path) (q : Path) (s s' : state) :
  reach ps s s' ->
  (forall p, In p ps -> disjoint p q = true) ->
  lookup (root s') q = lookup (root s) q.
Proof.
  intros R D. induction R as [s|s s1 s' p Hp Ha R IH]; [reflexivity|].
  rewrite IH. exact (altered_frame _ _ _ _ Ha (D p Hp)).
Qed.

Lemma reach_keeps (ps : list Path) (q : Path) (s s' : state) (x : node) :
  reach ps s s' ->
  lookup (root s) q = Some x -> is_dir x = false ->
  (forall p, In p ps -> is_prefix p q = false) ->
  lookup (root s') q = Some x.
Proof.
  intros R Hx Hd D. induction R as [s|s s1 s' p Hp Ha R IH]; [exact Hx|].
  apply IH. exact (altered_keeps _ _ _ _ _ Ha Hx Hd (D p Hp)).
Qed.

Lemma altered_survives (p q : Path) (s s' : state) :
  altered_at p s s' ->
  lookup (root s) q <> None -> is_prefix p q = false ->
  lookup (root s') q <> None.
Proof.
  intros [->|(b & v & r & H & ->)] Hq Hp; [exact Hq|].
  exact (lookup_alter_survives _ _ _ _ _ _ H Hq Hp).
Qed.

Lemma reach_survives (ps : list Path) (q : Path) (s s' : state) :
  reach ps s s' ->
  lookup (root s) q <> None ->
  (forall p, In p ps -> is_prefix p q = false) ->
  lookup (root s') q <> None.
Proof.
  intros R Hq D. induction R as [s|s s1 s' p Hp Ha R IH]; [exact Hq|].
  apply IH. exact (altered_survives _ _ _ _ Ha Hq (D p Hp)).
Qed.

Lemma reach_trans (ps : list Path) (s s1 s' : state) :
  reach ps s s1 -> reach ps s1 s' -> reach ps s s'.
Proof.
  intros R1 R2. induction R1 as [s|s s0 s1 p Hp Ha R IH]; [exact R2|].
  exact (@reach_step _ _ _ _ _ Hp Ha (IH R2)).
Qed.

Lemma reach_mono (ps ps' : list Path) (s s' : state) :
  (forall p, In p ps -> In p ps') -> reach ps s s' -> reach ps' s s'.
Proof.
  intros Hsub R. induction R as [s|s s1 s' p Hp Ha R IH].
  - apply reach_refl.
  - exact (@reach_step _ _ _ _ _ (Hsub p Hp) Ha IH).
Qed.

Lemma reach_one (ps : list Path) (p : Path) (s s' : state) :
  In p ps -> altered_at p s s' -> reach ps s s'.
Proof.
  intros Hp Ha. exact (@reach_step _ _ _ _ _ Hp Ha (@reach_refl _ _)).
Qed.

(** Every helper alters the tree at the path it is given, and nowhere
    else. *)

Lemma remove_altered (p : Path) (s s' : state) (b : bool) :
  remove p s = (b, s') -> altered_at p s s'.
Proof.
  unfold remove. intros H.
  destruct (lookup (root s) p); [|injection H as _ <-; now left].
  destruct (blocked s p); [injection H as _ <-; now left|].
  destruct (alter false (root s) p None) as [r|] eqn:E;
    injection H as _ <-; [right | now left].
  now exists false, None, r.
Qed.

Lemma create_symlink_altered (src tgt : Path) (s s' : state) (b : bool) :
  create_symlink src tgt s = (b, s') -> altered_at tgt s s'.
Proof.
  unfold create_symlink. intros H.
  destruct (lookup (root s) tgt) as [[d|t|es]|];
    try (injection H as _ <-; now left).
  destruct (blocked s tgt); [injection H as _ <-; now left|].
  destruct (alter false (root s) tgt (Some (Symlink src))) as [r|] eqn:E;
    injection H as _ <-; [right | now left].
  now exists false, (Some (Symlink src)), r.
Qed.

Lemma copy_altered (src dst : Path) (s s' : state) (o : option exn) :
  copy src dst s = (o, s') -> altered_at dst s s'.
Proof.
  unfold copy. intros H.
  destruct (lookup (root s) src) as [t|]; [|injection H as _ <-; now left].
  destruct (lookup (root s) dst); [injection H as _ <-; now left|].
  destruct (blocked s dst); [injection H as _ <-; now left|].
  destruct (alter true (root s) dst (Some t)) as [r|] eqn:E;
    injection H as _ <-; [right | now left].
  now exists true, (Some t), r.
Qed.

Lemma copy_made (src dst r : Path) (s s' : state) :
  copy src dst s = (None, s') ->
  lookup (root s') (dst ++ r) = lookup (root s) (src ++ r).
Proof.
  unfold copy. intros H.
  destruct (lookup (root s) src) as [t|] eqn:Es; [|discriminate].
  destruct (lookup (root s) dst); [discriminate|].
  destruct (blocked s dst); [discriminate|].
  destruct (alter true (root s) dst (Some t)) as [r'|] eqn:E;
    [|discriminate].
  injection H as <-. simpl.
  rewrite (lookup_alter_below _ _ _ _ r _ E), lookup_app, Es. reflexivity.
Qed.

Lemma clone_into_altered (dest : Path) (repo : list (string * node))
      (s s' : state) (o : option exn) :
  clone_into dest repo s = (o, s') -> altered_at dest s s'.
Proof.
  unfold clone_into. intros H.
  destruct (blocked s dest); [injection H as _ <-; now left|].
  destruct (alter true (root s) dest (Some (Dir repo))) as [r|] eqn:E;
    injection H as _ <-; [right | now left].
  now exists true, (Some (Dir repo)), r.
Qed.

Lemma run_command_altered (url : string) (dest : Path) (s s' : state)
      (o : option exn) :
  run_command (GitClone url dest) s = (o, s') -> altered_at dest s s'.
Proof.
  unfold run_command. intros H.
  destruct (git_available s); simpl in H; [|injection H as _ <-; now left].
  destruct (remote s url) as [repo|]; [|injection H as _ <-; now left].
  destruct (lookup (root s) dest) as [[d|t|[|e es]]|];
    try (injection H as _ <-; now left);
    exact (clone_into_altered _ _ _ _ _ H).
Qed.

(** Unlinking gives no entry to a path that had none, and keeps the kind
    of every entry that is left. *)
Lemma unlink_lookup_back (n n' : node) (p q : Path) (y : node) :
  alter false n p None = Some n' ->
  lookup n' q = Some y ->
  exists y', lookup n q = Some y'
             /\ (y' = y \/ (is_dir y = true /\ is_dir y' = true)).
Proof.
  revert n n' q; induction p as [|x r IH]; intros n n' q H Hq;
    [discriminate|].
  simpl in H. destruct n as [d|t|es]; try discriminate.
  destruct q as [|z q].
  - simpl in Hq. injection Hq as <-. exists (Dir es). split; [reflexivity|].
    right. destruct r as [|w r].
    + injection H as <-. now split.
    + destruct (assoc x es) as [c|]; try discriminate.
      destruct (alter false c (w :: r) None); try discriminate.
      injection H as <-. now split.
  - destruct r as [|w r].
    + injection H as <-. cbn [lookup] in Hq |- *.
      destruct (String.eqb z x) eqn:E.
      * apply String.eqb_eq in E. subst z.
        rewrite assoc_unlink_same in Hq. discriminate.
      * rewrite (assoc_unlink_other _ _ _ E) in Hq.
        exists y. split; [exact Hq | now left].
    + destruct (assoc x es) as [c|] eqn:Ea; try discriminate.
      destruct (alter false c (w :: r) None) as [c'|] eqn:Ec;
        try discriminate.
      injection H as <-. cbn [lookup] in Hq |- *.
      destruct (String.eqb z x) eqn:E.
      * apply String.eqb_eq in E. subst z.
        rewrite assoc_set_entry_same in Hq. rewrite Ea.
        exact (IH _ _ _ Ec Hq).
      * rewrite (assoc_set_entry_other _ _ _ _ E) in Hq.
        exists y. split; [exact Hq | now left].
Qed.

(** [follow] along the path, one component at a time. *)
Lemma follow_nil (f : nat) (top : node) (left : nat) (cur : node) :
  follow f top left cur [] = Some (left, cur).
Proof. destruct f; reflexivity. Qed.

Lemma follow_cons (f : nat) (top : node) (left : nat) (cur : node)
      (x : string) (r : Path) :
  follow f top left cur (x :: r)
  = match cur with
    | Dir es =>
        match assoc x es with
        | Some (Symlink t) =>
            match left, f with
            | S l, S f' =>
                match follow f' top l top t with
                | Some (l', c) => follow f top l' c r
                | None => None
                end
            | _, _ => None
            end
        | Some c => follow f top left c r
        | None => None
        end
    | _ => None
    end.
Proof. destruct f; reflexivity. Qed.

(** Following links uses up the allowance and never adds to it. *)
Lemma follow_left_le (f : nat) (top : node) :
  forall (p : Path) (left : nat) (cur : node) (l : nat) (c : node),
    follow f top left cur p = Some (l, c) -> l <= left.
Proof.
  induction f as [|f IHf];
    (induction p as [|x q IHp]; intros left cur l c H;
     [ rewrite follow_nil in H; injection H as <- _; lia
     | rewrite follow_cons in H;
       destruct cur as [d|t|es]; try discriminate H;
       destruct (assoc x es) as [[d|t|es1]|]; try discriminate H;
       try exact (IHp _ _ _ _ H) ]).
  - destruct left; discriminate H.
  - destruct left as [|l0]; [discriminate H|].
    destruct (follow f top l0 top t) as [[l1 d]|] eqn:E; [|discriminate H].
    pose proof (IHf _ _ _ _ _ E). pose proof (IHp _ _ _ _ H). lia.
Qed.

(** The allowance decides: with at least as much fuel as links that may
    be followed, more fuel changes nothing. *)
Lemma follow_fuel (f : nat) (top : node) :
  forall (p : Path) (left : nat) (cur : node),
    left <= f -> follow (S f) top left cur p = follow f top left cur p.
Proof.
  induction f as [|f IHf];
    (induction p as [|x q IHp]; intros left cur Hl;
     [ now rewrite !follow_nil
     | rewrite (follow_cons (S _)), (follow_cons _ top left cur x q);
       destruct cur as [d|t|es]; try reflexivity;
       destruct (assoc x es) as [[d|t|es1]|]; try reflexivity;
       try exact (IHp _ _ Hl) ]).
  - destruct left; [reflexivity | lia].
  - destruct left as [|l0]; [reflexivity|].
    rewrite (IHf t l0 top ltac:(lia)).
    destruct (follow f top l0 top t) as [[l1 d]|] eqn:E; [|reflexivity].
    pose proof (follow_left_le _ _ _ _ _ _ _ E).
    apply IHp. lia.
Qed.

Lemma assoc_unlink_some (x y : string) (es : list (string * node))
      (c : node) :
  assoc y (unlink x es) = Some c -> assoc y es = Some c.
Proof.
  destruct (String.eqb y x) eqn:E.
  - apply String.eqb_eq in E. subst y. now rewrite assoc_unlink_same.
  - now rewrite (assoc_unlink_other _ _ _ E).
Qed.

Lemma below_entries (es' : list (string * node)) (n : node) :
  below (Dir es') n ->
  exists es, n = Dir es
             /\ forall x c', assoc x es' = Some c' ->
                             exists c, assoc x es = Some c /\ below c' c.
Proof.
  intros H. inversion H as [m|es1 es K]; subst.
  - exists es'. split; [reflexivity|]. intros x c' Hx. exists c'.
    split; [exact Hx | apply below_refl].
  - exists es. now split.
Qed.

Lemma below_leaf (n' n : node) :
  below n' n -> is_dir n' = false -> n = n'.
Proof.
  intros H Hd. inversion H; subst; [reflexivity | discriminate].
Qed.

(** Unlinking takes entries out and puts none in. *)
Lemma unlink_below (n n' : node) (p : Path) :
  alter false n p None = Some n' -> below n' n.
Proof.
  revert n n'; induction p as [|x r IH]; intros n n' H; [discriminate|].
  simpl in H. destruct n as [d|t|es]; try discriminate.
  destruct r as [|w r].
  - injection H as <-. apply below_dir. intros y c' Hy.
    exists c'. split; [exact (assoc_unlink_some _ _ _ _ Hy) | apply below_refl].
  - destruct (assoc x es) as [c|] eqn:Ea; try discriminate.
    destruct (alter false c (w :: r) None) as [c'|] eqn:Ec; try discriminate.
    injection H as <-. apply below_dir. intros y d Hy.
    destruct (String.eqb y x) eqn:E.
    + apply String.eqb_eq in E. subst y.
      rewrite assoc_set_entry_same in Hy. injection Hy as <-.
      exists c. split; [exact Ea | exact (IH _ _ Ec)].
    + rewrite (assoc_set_entry_other _ _ _ _ E) in Hy.
      exists d. split; [exact Hy | apply below_refl].
Qed.

(** What resolves in a tree resolves in every tree that has its entries
    and more, and to a node of which it is a part. *)
Lemma follow_below (f : nat) (top' top : node) :
  below top' top ->
  forall (p : Path) (left : nat) (cur' cur : node) (l : nat) (r' : node),
    below cur' cur ->
    follow f top' left cur' p = Some (l, r') ->
    exists r, follow f top left cur p = Some (l, r) /\ below r' r.
Proof.
  intros Ht. induction f as [|f IHf];
    (induction p as [|x q IHp]; intros left cur' cur l r' Hc H;
     [ rewrite follow_nil in H |- *; injection H as <- <-;
       exists cur; now split
     | rewrite follow_cons in H |- *;
       destruct cur' as [d|t|es']; try discriminate H;
       destruct (below_entries _ _ Hc) as (es & -> & K);
       destruct (assoc x es') as [c'|] eqn:Ea; [|discriminate H];
       destruct (K _ _ Ea) as (c & -> & Hcc);
       destruct c' as [d|t|es1];
       [ rewrite (below_leaf _ _ Hcc eq_refl); exact (IHp _ _ _ _ _ (below_refl _) H)
       | rewrite (below_leaf _ _ Hcc eq_refl)
       | destruct (below_entries _ _ Hcc) as (es2 & -> & _);
         exact (IHp _ _ _ _ _ Hcc H) ] ]).
  - destruct left; discriminate H.
  - destruct left as [|l0]; [discriminate H|].
    destruct (follow f top' l0 top' t) as [[l1 d']|] eqn:E;
      [|discriminate H].
    destruct (IHf _ _ _ _ _ _ Ht E) as (d & -> & Hd).
    exact (IHp _ _ _ _ _ Hd H).
Qed.

(** Unlinking never makes a path resolve that did not. *)
Lemma unlink_stat_back (n n' : node) (p q : Path) :
  alter false n p None = Some n' -> stat n' q <> None -> stat n q <> None.
Proof.
  intros H. unfold stat. pose proof (unlink_below _ _ _ H) as B.
  destruct (follow SYMLOOP_MAX n' SYMLOOP_MAX n' q) as [[l r']|] eqn:E;
    [|intros K; now destruct K].
  destruct (follow_below _ _ _ B _ _ _ _ _ _ B E) as (r & -> & _).
  discriminate.
Qed.

Lemma remove_exists_back (p q : Path) (s s' : state) (b : bool) :
  remove p s = (b, s') ->
  path_exists q s = false -> path_exists q s' = false.
Proof.
  unfold remove, path_exists. intros H Hq.
  destruct (lookup (root s) p); [|injection H as _ <-; exact Hq].
  destruct (blocked s p); [injection H as _ <-; exact Hq|].
  destruct (alter false (root s) p None) as [r|] eqn:E;
    injection H as _ <-; [|exact Hq].
  unfold is_some, with_root; cbn [root].
  destruct (stat r q) eqn:R; [|reflexivity].
  exfalso. unfold is_some in Hq.
  assert (K : stat (root s) q <> None).
  { apply (unlink_stat_back _ _ _ _ E). congruence. }
  destruct (stat (root s) q); [discriminate | congruence].
Qed.

(** A clone over a link is refused, and changes nothing. *)
Lemma run_command_refused (url : string) (dest t : Path) (s : state) :
  lookup (root s) dest = Some (Symlink t) ->
  exists e, run_command (GitClone url dest) s = (Some e, s).
Proof.
  intros H. unfold run_command. rewrite H.
  destruct (git_available s); simpl; [|eexists; reflexivity].
  destruct (remote s url); eexists; reflexivity.
Qed.

Lemma move_altered (a b : Path) (x : node) (s s' : state) (o : option exn) :
  move a b x s = (o, s') -> reach [a; b] s s'.
Proof.
  unfold move. intros H.
  destruct (alter false (root s) a None) as [r1|] eqn:E1;
    [|injection H as _ <-; apply reach_refl].
  destruct (alter false r1 b (Some x)) as [r2|] eqn:E2;
    injection H as _ <-; [|apply reach_refl].
  apply reach_step with (s1 := with_root s r1) (p := a);
    [now left | right; now exists false, None, r1 |].
  apply reach_one with (p := b); [right; now left|].
  right. now exists false, (Some x), r2.
Qed.

Lemma path_rename_altered (a b : Path) (s s' : state) (o : option exn) :
  path_rename a b s = (o, s') -> reach [a; b] s s'.
Proof.
  unfold path_rename. intros H.
  destruct (lookup (root s) a) as [x|];
    [|injection H as _ <-; apply reach_refl].
  destruct (blocked s a || blocked s b);
    [injection H as _ <-; apply reach_refl|].
  destruct (path_eqb a b); [injection H as _ <-; apply reach_refl|].
  destruct (is_prefix a b); [injection H as _ <-; apply reach_refl|].
  destruct (lookup (root s) b) as [y|]; [|exact (move_altered _ _ _ _ _ _ H)].
  destruct x as [d|t|es]; destruct y as [d'|t'|[|e' es']];
    try (injection H as _ <-; apply reach_refl);
    exact (move_altered _ _ _ _ _ _ H).
Qed.

End FsFacts.

Ltac fs_cases :=
  repeat (simpl;
          match goal with
          | |- context [Fs.path_exists ?p ?s] =>
              destruct (Fs.path_exists p s) eqn:?
          | |- context [Fs.remove ?p ?s] =>
              destruct (Fs.remove p s) as [? ?] eqn:?
          | |- context [Fs.copy ?a ?b ?s] =>
              destruct (Fs.copy a b s) as [[?|] ?] eqn:?
          | |- context [Fs.path_rename ?a ?b ?s] =>
              destruct (Fs.path_rename a b s) as [[?|] ?] eqn:?
          | |- context [Fs.run_command ?c ?s] =>
              destruct (Fs.run_command c s) as [[?|] ?] eqn:?
          end).

Ltac reach_tac :=
  repeat first
    [ apply Fs.reach_refl
    | match goal with
      | E : Fs.remove ?p ?s = (_, ?s1) |- Fs.reach _ ?s _ =>
          apply (@Fs.reach_step _ s s1 _ p);
          [simpl; tauto | exact (FsFacts.remove_altered _ _ _ _ E) | ]
      | E : Fs.copy ?a ?p ?s = (_, ?s1) |- Fs.reach _ ?s _ =>
          apply (@Fs.reach_step _ s s1 _ p);
          [simpl; tauto | exact (FsFacts.copy_altered _ _ _ _ _ E) | ]
      | E : Fs.run_command (GitClone ?u ?p) ?s = (_, ?s1) |- Fs.reach _ ?s _ =>
          apply (@Fs.reach_step _ s s1 _ p);
          [simpl; tauto | exact (FsFacts.run_command_altered _ _ _ _ _ E) | ]
      | E : Fs.path_rename ?a ?b ?s = (_, ?s1) |- Fs.reach _ ?s _ =>
          apply (FsFacts.reach_trans _ s s1 _);
          [ apply (FsFacts.reach_mono [a; b]);
            [simpl; tauto | exact (FsFacts.path_rename_altered _ _ _ _ _ E)] | ]
      end ].


(** ** The steps on the filesystem model *)

Arguments Fs.path_lexists : simpl never.
Arguments Fs.path_exists : simpl never.
Arguments Fs.remove : simpl never.
Arguments Fs.copy : simpl never.
Arguments Fs.create_symlink : simpl never.
Arguments Fs.path_rename : simpl never.
Arguments Fs.run_command : simpl never.

Section StepsOnModel.
Context {P : Paths}.
Import Fs FsFacts.

Lemma validate_loop_state (ps : list Path) (s : state) :
  state_of (validate_loop ps s) = s.
Proof.
  induction ps as [|i rest IH]; simpl; [reflexivity|].
  unfold bind at 1, lexists. simpl.
  destruct (Fs.path_lexists i s); simpl; [|reflexivity].
  destruct (validate_loop rest _) as [[r s'] tr]. exact IH.
Qed.

Lemma validate_sources_state (self : DotfilesInstaller) (s : state) :
  state_of (_validate_sources self s) = s.
Proof.
  unfold _validate_sources. destruct (dry_run self); [reflexivity|].
  unfold bind at 1, emit; simpl. unfold bind at 1; simpl.
  pose proof (validate_loop_state (source_dotfiles_components_paths self) s).
  destruct (validate_loop _ _) as [[r s'] tr]. assumption.
Qed.

Lemma verify_copy_state (self : DotfilesInstaller) (s : state) :
  state_of (_verify_copy self s) = s.
Proof.
  unfold _verify_copy. destruct (dry_run self); [reflexivity|].
  unfold bind at 1, emit; simpl. unfold bind at 1.
  rewrite verify_loop_spec.
  destruct (_ ++ _); reflexivity.
Qed.

Lemma copy_dotfiles_reach (self : DotfilesInstaller) (s : state) :
  reach [USER_DOTFILES_DIR] s (state_of (_copy_dotfiles self s)).
Proof.
  unfold _copy_dotfiles. destruct (dry_run self); [apply reach_refl|].
  unfold bind, emit, ret, p_exists, do_remove, do_copy, try_except, raising.
  fs_cases; unfold state_of; simpl; reach_tac.
Qed.

Lemma remove_loop_reach (comps : list string) (s : state) :
  reach (map config_path comps) s (state_of (remove_loop comps s)).
Proof.
  revert s; induction comps as [|i rest IH]; intros s; simpl;
    [apply reach_refl|].
  unfold bind at 1, do_remove. fold (config_path i). simpl.
  destruct (Fs.remove (config_path i) s) as [[|] s1] eqn:E; simpl.
  - apply (@reach_step _ s s1 _ (config_path i));
      [now left | exact (remove_altered _ _ _ _ E) |].
    specialize (IH s1). destruct (remove_loop rest _) as [[r s'] tr].
    apply (reach_mono (map config_path rest)); [|exact IH].
    intros p Hp. now right.
  - apply (reach_one _ (config_path i)); [now left|].
    exact (remove_altered _ _ _ _ E).
Qed.

Lemma link_loop_reach (comps : list string) (acc : list (Path * Path))
      (s : state) :
  reach (map config_path comps) s (state_of (link_loop comps acc s)).
Proof.
  revert acc s; induction comps as [|c rest IH]; intros acc s; simpl;
    [apply reach_refl|].
  unfold bind at 1, do_symlink. fold (config_path c) (stage_path c). simpl.
  destruct (Fs.create_symlink (stage_path c) (config_path c) s)
    as [[|] s1] eqn:E; simpl.
  - apply (@reach_step _ s s1 _ (config_path c));
      [now left | exact (create_symlink_altered _ _ _ _ _ E) |].
    specialize (IH acc s1). destruct (link_loop rest acc _) as [[r s'] tr].
    apply (reach_mono (map config_path rest)); [|exact IH].
    intros p Hp. now right.
  - unfold bind at 1, emit.
    apply (@reach_step _ s s1 _ (config_path c));
      [now left | exact (create_symlink_altered _ _ _ _ _ E) |].
    specialize (IH (acc ++ [(stage_path c, config_path c)]) s1).
    destruct (link_loop rest _ _) as [[r s'] tr].
    apply (reach_mono (map config_path rest)); [|exact IH].
    intros p Hp. now right.
Qed.

Lemma remove_existing_configs_reach (self : DotfilesInstaller) (s : state) :
  reach (map config_path (dotfiles_components self)) s
        (state_of (_remove_existing_configs self s)).
Proof.
  unfold _remove_existing_configs. destruct (dry_run self); [apply reach_refl|].
  unfold bind at 1, emit; simpl. unfold bind at 1; simpl.
  pose proof (remove_loop_reach (dotfiles_components self) s) as H.
  destruct (remove_loop _ _) as [[r s'] tr]. exact H.
Qed.

Lemma create_links_reach (self : DotfilesInstaller) (s : state) :
  reach (map config_path (dotfiles_components self)) s
        (state_of (_create_links self s)).
Proof.
  unfold _create_links. destruct (dry_run self); [apply reach_refl|].
  unfold bind at 1, emit; simpl. unfold bind at 1; simpl. unfold bind at 1.
  pose proof (link_loop_reach (dotfiles_components self) [] s) as H.
  destruct (link_loop _ [] _) as [[[m|e] s'] tr]; [|exact H].
  destruct m; exact H.
Qed.

Lemma install_tpm_reach (self : DotfilesInstaller) (s : state) :
  reach [tpm_dir] s (state_of (_install_tpm self s)).
Proof.
  unfold _install_tpm. destruct (dry_run self); [apply reach_refl|].
  unfold bind, emit, ret, p_exists, do_remove, do_run, try_except, raising.
  fs_cases; unfold state_of; simpl; reach_tac.
Qed.

Lemma install_lazyvim_reach (self : DotfilesInstaller) (s : state) :
  reach [lazyvim_dir; nvim_config_dir; backup_dir; git_dir] s
        (state_of (_install_lazyvim self s)).
Proof.
  unfold _install_lazyvim. destruct (dry_run self); [apply reach_refl|].
  unfold bind, emit, ret, p_exists, do_remove, do_run, do_rename,
    try_except, raising.
  fs_cases; unfold state_of; simpl; reach_tac.
Qed.

End StepsOnModel.

(** ** Step 5 *)

Section CreateLinksAnyLibrary.
Context {P : Paths} {L : Library}.

Lemma create_links_unfold (comps : list string) (s : fsys) :
  _create_links (installer_with false comps) s
  = match link_loop comps [] s with
    | (Ret [], s', tr) =>
        (Ret true, s',
         [LogInfo "Creating system links.";
          SpinnerUpdate "Linking new dotfiles..."] ++ tr)
    | (Ret (_ :: _), s', tr) =>
        (Ret false, s',
         [LogInfo "Creating system links.";
          SpinnerUpdate "Linking new dotfiles..."] ++ tr
         ++ [SpinnerError "Failed to create some links, exiting..."])
    | (Raise e, s', tr) =>
        (Raise e, s',
         [LogInfo "Creating system links.";
          SpinnerUpdate "Linking new dotfiles..."] ++ tr)
    end.
Proof.
  unfold _create_links; simpl.
  unfold bind at 1, emit; simpl. unfold bind at 1; simpl. unfold bind at 1.
  destruct (link_loop comps [] s) as [[[[|f fs]|e] s'] tr]; simpl;
    rewrite ?app_nil_r; reflexivity.
Qed.

End CreateLinksAnyLibrary.

Section CreateLinksOnModel.
Context {P : Paths}.
Import Fs FsFacts.

Lemma create_symlink_made (src tgt : Path) (s s' : state) :
  Fs.create_symlink src tgt s = (true, s') ->
  lookup (root s') tgt = Some (Symlink src).
Proof.
  unfold Fs.create_symlink. intros H.
  destruct (lookup (root s) tgt) as [[d|t|es]|] eqn:E; try discriminate.
  - injection H as H <-. apply path_eqb_eq in H. now subst t.
  - destruct (blocked s tgt); try discriminate.
    destruct (alter false (root s) tgt (Some (Symlink src))) as [r|] eqn:A;
      try discriminate.
    injection H as <-. simpl.
    pose proof (lookup_alter_below _ _ _ _ [] _ A) as B.
    now rewrite app_nil_r in B.
Qed.

(** [create_symlink] never disturbs a link that is already there. *)
Lemma create_symlink_keeps_link (src tgt q x : Path) (s s' : state)
      (b : bool) :
  Fs.create_symlink src tgt s = (b, s') ->
  lookup (root s) q = Some (Symlink x) ->
  lookup (root s') q = Some (Symlink x).
Proof.
  unfold Fs.create_symlink. intros H Hq.
  destruct (lookup (root s) tgt) as [[d|t|es]|] eqn:E;
    try (injection H as _ <-; exact Hq).
  destruct (blocked s tgt); [injection H as _ <-; exact Hq|].
  destruct (alter false (root s) tgt (Some (Symlink src))) as [r|] eqn:A;
    injection H as _ <-; [|exact Hq].
  simpl. apply (lookup_alter_keeps _ _ _ _ _ _ _ A Hq); [discriminate|].
  destruct (is_prefix tgt q) eqn:Hp; [|reflexivity].
  exfalso. apply (lookup_prefix_some (root s) _ _ Hp); congruence.
Qed.

Lemma link_loop_keeps_link (comps : list string) (acc : list (Path * Path))
      (s : state) (q x : Path) :
  lookup (root s) q = Some (Symlink x) ->
  lookup (root (state_of (link_loop comps acc s))) q = Some (Symlink x).
Proof.
  revert acc s; induction comps as [|c rest IH]; intros acc s Hq; simpl;
    [exact Hq|].
  unfold bind at 1, do_symlink. simpl.
  destruct (Fs.create_symlink (USER_DOTFILES_DIR // c) (USER_CONFIGS_DIR // c) s)
    as [[|] s1] eqn:E; simpl;
    pose proof (create_symlink_keeps_link _ _ _ _ _ _ _ E Hq) as Hq1.
  - specialize (IH acc s1 Hq1).
    destruct (link_loop rest acc _) as [[r s'] tr]. exact IH.
  - unfold bind at 1, emit.
    specialize (IH (acc ++ [(USER_DOTFILES_DIR // c, USER_CONFIGS_DIR // c)])
                   s1 Hq1).
    destruct (link_loop rest _ _) as [[r s'] tr]. exact IH.
Qed.

Lemma link_loop_linked (comps : list string) (acc : list (Path * Path))
      (s : state) :
  let '(_, s', tr) := link_loop comps acc s in
  forall n, In n comps ->
            ~ In (link_pair n) (collect failed_link_of tr) ->
            lookup (root s') (config_path n) = Some (Symlink (stage_path n)).
Proof.
  revert acc s; induction comps as [|c rest IH]; intros acc s; simpl;
    [intros n []|].
  unfold bind at 1, do_symlink. simpl.
  fold (stage_path c) (config_path c).
  destruct (Fs.create_symlink (stage_path c) (config_path c) s)
    as [[|] s1] eqn:E; simpl.
  - pose proof (link_loop_keeps_link rest acc s1 _ _
                  (create_symlink_made _ _ _ _ E)) as Hc.
    specialize (IH acc s1).
    destruct (link_loop rest acc _) as [[r s'] tr]. simpl in *.
    intros n [<-|Hn] Hf; [exact Hc | exact (IH n Hn Hf)].
  - unfold bind at 1, emit.
    specialize (IH (acc ++ [(stage_path c, config_path c)]) s1).
    destruct (link_loop rest _ _) as [[r s'] tr]. simpl in *.
    intros n [<-|Hn] Hf.
    + exfalso. apply Hf. now left.
    + apply (IH n Hn). intros Hin. apply Hf. now right.
Qed.

(** C4.  On a real run [_create_links] calls [create_symlink] once for
    every component, in registry order, whatever the earlier calls
    answered.  The pairs whose call answered [False] are the failed links:
    the step returns [False] exactly when there is one, each failed pair
    is named by an error record in the log (all of them, in order), and the
    spinner is told of the failure exactly then.  On the filesystem model,
    every component whose pair is not among the failed ones ends up linked:
    its configuration entry is a symbolic link to its staged path, however
    the step as a whole ended. *)
Theorem C4_create_links_tries_every_component :
  forall (comps : list string) (s : Fs.state),
    let '(r, s', tr) := _create_links (installer_with false comps) s in
    let failed := collect failed_link_of tr in
    collect link_of tr = map link_pair comps
    /\ r = Ret (is_nil failed)
    /\ filter is_log_error tr
       = map (fun st => LogError (link_message st)) failed
    /\ (In (SpinnerError "Failed to create some links, exiting...") tr
        <-> failed <> [])
    /\ (forall n, In n comps -> ~ In (link_pair n) failed ->
                  Fs.lookup (Fs.root s') (config_path n)
                  = Some (Fs.Symlink (stage_path n))).
Proof.
  intros comps s. rewrite create_links_unfold.
  pose proof (link_loop_spec comps [] s) as G.
  pose proof (link_loop_linked comps [] s) as K.
  destruct (link_loop comps [] _) as [[r s'] tr].
  destruct G as (Hr & Hl & He & Hn). subst r. simpl app.
  destruct (collect failed_link_of tr) as [|f fs] eqn:Ef.
  - cbn [collect link_of failed_link_of filter is_log_error].
    rewrite Ef. repeat split; try assumption.
    + intros [H|[H|H]]; try discriminate. exfalso. exact (Hn _ H).
    + congruence.
  - cbn [collect link_of failed_link_of filter is_log_error].
    rewrite !collect_app, filter_app, Ef. simpl. rewrite !app_nil_r.
    repeat split; try assumption.
    + discriminate.
    + intros _. right. right. apply in_or_app. right. now left.
Qed.

End CreateLinksOnModel.

(** ** A whole successful run *)

Section WholeRunAnyLibrary.
Context {P : Paths} {L : Library}.

(** When [install] returns [True], each of the seven steps returned
    [True], each starting from the filesystem the one before it left. *)
Lemma install_true_inv (self : DotfilesInstaller) (s s' : fsys)
      (tr : list event) :
  install self s = (Ret true, s', tr) ->
  let s1 := state_of (_validate_sources self s) in
  let s2 := state_of (_copy_dotfiles self s1) in
  let s3 := state_of (_verify_copy self s2) in
  let s4 := state_of (_remove_existing_configs self s3) in
  let s5 := state_of (_create_links self s4) in
  let s6 := state_of (_install_tpm self s5) in
  let s7 := state_of (_install_lazyvim self s6) in
  result_of (_validate_sources self s) = Ret true
  /\ result_of (_copy_dotfiles self s1) = Ret true
  /\ result_of (_verify_copy self s2) = Ret true
  /\ result_of (_remove_existing_configs self s3) = Ret true
  /\ result_of (_create_links self s4) = Ret true
  /\ result_of (_install_tpm self s5) = Ret true
  /\ result_of (_install_lazyvim self s6) = Ret true
  /\ s' = s7.
Proof.
  unfold install, core_block, third_party_block, with_spinner, bind, emit, ret.
  unfold state_of, result_of.
  destruct (_validate_sources self s) as [[[[|]|?] x1] ?]; simpl;
    try discriminate.
  destruct (_copy_dotfiles self x1) as [[[[|]|?] x2] ?]; simpl;
    try discriminate.
  destruct (_verify_copy self x2) as [[[[|]|?] x3] ?]; simpl;
    try discriminate.
  destruct (_remove_existing_configs self x3) as [[[[|]|?] x4] ?]; simpl;
    try discriminate.
  destruct (_create_links self x4) as [[[[|]|?] x5] ?]; simpl;
    try discriminate.
  destruct (_install_tpm self x5) as [[[[|]|?] x6] ?]; simpl;
    try discriminate.
  destruct (_install_lazyvim self x6) as [[[[|]|?] x7] ?]; simpl;
    try discriminate.
  intros H. injection H as <- _. repeat split.
Qed.

End WholeRunAnyLibrary.

Section WholeRunOnModel.
Context {P : Paths}.
Import Fs FsFacts.

Lemma tpm_dir_eq : tpm_dir = USER_DOTFILES_DIR ++ ["tmux"; "plugins"; "tpm"].
Proof. unfold tpm_dir, joinpath. now rewrite <- !app_assoc. Qed.

Lemma lazyvim_dir_eq : lazyvim_dir = USER_DOTFILES_DIR ++ ["nvim"].
Proof. reflexivity. Qed.

Lemma git_dir_eq : git_dir = USER_DOTFILES_DIR ++ ["nvim"; ".git"].
Proof. unfold git_dir, lazyvim_dir, joinpath. now rewrite <- !app_assoc. Qed.

Lemma stage_path_app (n : string) (r : Path) :
  stage_path n ++ r = USER_DOTFILES_DIR ++ n :: r.
Proof. unfold stage_path, joinpath. now rewrite <- app_assoc. Qed.

Lemma source_path_app (n : string) (r : Path) :
  source_path n ++ r = HYPRDOTS_DOTFILES_DIR ++ n :: r.
Proof. unfold source_path, joinpath. now rewrite <- app_assoc. Qed.

Lemma registry_is_managed (n : string) : In n registry -> In n managed.
Proof. intros H. unfold managed. apply in_or_app. now left. Qed.

Lemma registry_not_nvim (n : string) :
  In n registry ->
  String.eqb "nvim" n = false /\ String.eqb "nvim.backup" n = false.
Proof.
  intros H.
  assert (F : forallb (fun n => negb (String.eqb "nvim" n)
                                && negb (String.eqb "nvim.backup" n))
                      registry = true) by reflexivity.
  rewrite forallb_forall in F. specialize (F n H).
  apply andb_true_iff in F. rewrite !negb_true_iff in F. exact F.
Qed.

(** In a sound layout no managed configuration entry is comparable with
    anything at or below the staging directory. *)
Lemma layout_config_stage (n : string) (r : Path) :
  layout_ok = true -> In n managed ->
  disjoint (config_path n) (USER_DOTFILES_DIR ++ r) = true.
Proof.
  unfold layout_ok. rewrite !andb_true_iff, negb_true_iff, forallb_forall.
  intros [[H1 H2] _] Hn. specialize (H2 n Hn). rewrite negb_true_iff in H2.
  assert (K : is_prefix USER_DOTFILES_DIR (config_path n) = false).
  { destruct (is_prefix USER_DOTFILES_DIR (config_path n)) eqn:E;
      [|reflexivity].
    destruct (prefix_snoc _ _ _ E) as [H|H]; [congruence|].
    unfold config_path, joinpath in H2. rewrite <- H, is_prefix_refl in H2.
    discriminate. }
  apply disjoint_spec. split.
  - destruct (is_prefix (config_path n) (USER_DOTFILES_DIR ++ r)) eqn:E;
      [|reflexivity].
    destruct (prefix_comparable _ _ _ E (is_prefix_app USER_DOTFILES_DIR r));
      congruence.
  - destruct (is_prefix (USER_DOTFILES_DIR ++ r) (config_path n)) eqn:E;
      [|reflexivity].
    pose proof (is_prefix_trans _ _ _ (is_prefix_app USER_DOTFILES_DIR r) E).
    congruence.
Qed.

Lemma config_vs_late (n : string) (p : Path) :
  layout_ok = true -> In n registry -> In p late_paths ->
  is_prefix p (config_path n) = false.
Proof.
  intros Hl Hn Hp.
  destruct (registry_not_nvim n Hn) as [N1 N2].
  pose proof (registry_is_managed n Hn) as Hm.
  assert (S : forall r, is_prefix (USER_DOTFILES_DIR ++ r) (config_path n)
                        = false).
  { intros r. pose proof (layout_config_stage n r Hl Hm) as D.
    apply disjoint_spec in D. tauto. }
  destruct Hp as [<-|[<-|[<-|[<-|[<-|[]]]]]].
  - rewrite tpm_dir_eq. apply S.
  - rewrite lazyvim_dir_eq. apply S.
  - unfold nvim_config_dir, config_path, joinpath.
    now apply is_prefix_sibling.
  - unfold backup_dir, config_path, joinpath.
    now apply is_prefix_sibling.
  - rewrite git_dir_eq. apply S.
Qed.

Lemma stage_not_below (n : string) (p : Path) :
  layout_ok = true -> In n registry ->
  In p (map config_path registry ++ late_paths) ->
  is_prefix p (stage_path n) = false.
Proof.
  intros Hl Hn Hp.
  destruct (registry_not_nvim n Hn) as [N1 N2].
  assert (C : forall m, In m managed -> is_prefix (config_path m) (stage_path n)
                                        = false).
  { intros m Hm. pose proof (layout_config_stage m [n] Hl Hm) as D.
    apply disjoint_spec in D. tauto. }
  apply in_app_or in Hp. destruct Hp as [Hp|Hp].
  - apply in_map_iff in Hp. destruct Hp as (m & <- & Hm).
    apply C. now apply registry_is_managed.
  - unfold stage_path, joinpath.
    destruct Hp as [<-|[<-|[<-|[<-|[<-|[]]]]]].
    + rewrite tpm_dir_eq, is_prefix_app_same. cbn [is_prefix].
      apply andb_false_r.
    + rewrite lazyvim_dir_eq, is_prefix_app_same. cbn [is_prefix].
      now rewrite N1.
    + apply C. unfold managed. apply in_or_app. right. now left.
    + apply C. unfold managed. apply in_or_app. right. right. now left.
    + rewrite git_dir_eq, is_prefix_app_same. cbn [is_prefix].
      apply andb_false_r.
Qed.

Lemma stage_vs_touched (n : string) (r p : Path) :
  layout_ok = true -> In n registry ->
  (n = "tmux" -> disjoint r ["plugins"; "tpm"] = true) ->
  In p (map config_path registry ++ late_paths) ->
  disjoint p (stage_path n ++ r) = true.
Proof.
  intros Hl Hn Hr Hp.
  destruct (registry_not_nvim n Hn) as [N1 N2].
  rewrite stage_path_app.
  apply in_app_or in Hp. destruct Hp as [Hp|Hp].
  - apply in_map_iff in Hp. destruct Hp as (m & <- & Hm).
    apply layout_config_stage; [exact Hl | now apply registry_is_managed].
  - destruct Hp as [<-|[<-|[<-|[<-|[<-|[]]]]]].
    + rewrite tpm_dir_eq.
      destruct (String.eqb "tmux" n) eqn:E.
      * apply String.eqb_eq in E. subst n.
        change (USER_DOTFILES_DIR ++ ["tmux"; "plugins"; "tpm"])
          with (USER_DOTFILES_DIR ++ ["tmux"] ++ ["plugins"; "tpm"]).
        change (USER_DOTFILES_DIR ++ "tmux" :: r)
          with (USER_DOTFILES_DIR ++ ["tmux"] ++ r).
        rewrite !app_assoc. apply disjoint_below.
        rewrite disjoint_sym. now apply Hr.
      * now apply disjoint_siblings.
    + rewrite lazyvim_dir_eq. now apply disjoint_siblings.
    + apply layout_config_stage; [exact Hl|].
      unfold managed. apply in_or_app. right. now left.
    + apply layout_config_stage; [exact Hl|].
      unfold managed. apply in_or_app. right. right. now left.
    + rewrite git_dir_eq. now apply disjoint_siblings.
Qed.


Lemma create_links_true_linked (comps : list string) (s : state) :
  result_of (_create_links (installer_with false comps) s) = Ret true ->
  forall n, In n comps ->
    lookup (root (state_of (_create_links (installer_with false comps) s)))
           (config_path n)
    = Some (Symlink (stage_path n)).
Proof.
  rewrite create_links_unfold.
  pose proof (link_loop_spec comps [] s) as G.
  pose proof (link_loop_linked comps [] s) as K.
  destruct (link_loop comps [] _) as [[r s'] tr].
  destruct G as (Hr & _). subst r. simpl app.
  destruct (collect failed_link_of tr) as [|f fs]; [|discriminate].
  intros _ n Hn. apply (K n Hn). intros [].
Qed.

Lemma verify_true_staged (comps : list string) (s : state) :
  result_of (_verify_copy (installer_with false comps) s) = Ret true ->
  forall n, In n comps -> lookup (root s) (stage_path n) <> None.
Proof.
  rewrite verify_copy_spec. unfold result_of; simpl. intros H n Hn Habs.
  assert (Hin : In (stage_path n) (missing_in s (map stage_path comps))).
  { apply missing_in_spec. split; [now apply in_map|].
    simpl. unfold Fs.path_lexists. now rewrite Habs. }
  destruct (missing_in _ _); [destruct Hin|discriminate].
Qed.

Lemma copy_dotfiles_made (self : DotfilesInstaller) (s : state) (r : Path) :
  dry_run self = false ->
  disjoint HYPRDOTS_DOTFILES_DIR USER_DOTFILES_DIR = true ->
  result_of (_copy_dotfiles self s) = Ret true ->
  lookup (root (state_of (_copy_dotfiles self s))) (USER_DOTFILES_DIR ++ r)
  = lookup (root s) (HYPRDOTS_DOTFILES_DIR ++ r).
Proof.
  intros Hdry Hd. unfold _copy_dotfiles. rewrite Hdry.
  assert (D : disjoint USER_DOTFILES_DIR (HYPRDOTS_DOTFILES_DIR ++ r) = true).
  { rewrite disjoint_sym. rewrite <- (app_nil_r USER_DOTFILES_DIR).
    now apply disjoint_app. }
  unfold bind, emit, ret, p_exists, do_remove, do_copy, try_except, raising.
  simpl.
  destruct (Fs.path_exists USER_DOTFILES_DIR s).
  - simpl. destruct (Fs.remove USER_DOTFILES_DIR s) as [b s1] eqn:E1. simpl.
    destruct (Fs.copy HYPRDOTS_DOTFILES_DIR USER_DOTFILES_DIR s1)
      as [[e|] s2] eqn:E2; unfold result_of, state_of; simpl;
      [discriminate|]. intros _.
    rewrite (copy_made _ _ r _ _ E2).
    exact (altered_frame _ _ _ _ (remove_altered _ _ _ _ E1) D).
  - simpl.
    destruct (Fs.copy HYPRDOTS_DOTFILES_DIR USER_DOTFILES_DIR s)
      as [[e|] s2] eqn:E2; unfold result_of, state_of; simpl;
      [discriminate|]. intros _.
    exact (copy_made _ _ r _ _ E2).
Qed.


End WholeRunOnModel.

(** ** Runs on the concrete machine *)

Section ConcreteRuns.
Import Demo.



(** C9, as stated, fails: on the machine [Demo.pinned] the live editor
    configuration is there and cannot be renamed.  [Path.rename] raises,
    outside every [try]: the exception leaves step 7, which has not
    started its clone, and then [install], which has no handler of its
    own.  The same happens on [Demo.stale_backup], where the rename
    collides with a dangling link. *)
Lemma C9_counterexample :
  (exists e,
      result_of (_install_lazyvim (L := spec_library) (__init__ false) pinned)
      = Raise e
      /\ result_of (install (L := spec_library) (__init__ false) pinned)
         = Raise e
      /\ no_run (trace_of (_install_lazyvim (L := spec_library)
                                            (__init__ false) pinned)))
  /\ (exists e,
         result_of (install (L := spec_library) (__init__ false) stale_backup)
         = Raise e).
Proof.
  split.
  - exists (OSError "Permission denied: /home/u/.config/nvim").
    split; [|split]; vm_compute; reflexivity.
  - eexists. vm_compute. reflexivity.
Qed.


(** C7 at the failing input.  On [Demo.stale_backup] the live editor
    configuration is a directory and its previous backup is a dangling
    link.  [Path.exists] does not see the link, so step 7 does not remove
    it; [Path.rename] then refuses to put a directory over it and raises.
    The exception leaves the step and [install]; the old backup is still
    there and nothing has been backed up. *)
Lemma C7_stale_backup_link_is_not_replaced :
  let run := _install_lazyvim (L := spec_library) (__init__ false) stale_backup in
  Fs.path_exists nvim_config_dir stale_backup = true
  /\ Fs.path_lexists backup_dir stale_backup = true
  /\ Fs.path_exists backup_dir stale_backup = false
  /\ result_of run
     = Raise (OSError "Not a directory: /home/u/.config/nvim.backup")
  /\ trace_of run
     = [ LogInfo "Installing LazyVim";
         SpinnerUpdate "Installing LazyVim...";
         Sys (CExists lazyvim_dir) (ABool false);
         Sys (CExists nvim_config_dir) (ABool true);
         Sys (CExists backup_dir) (ABool false);
         Sys (CRename nvim_config_dir backup_dir)
             (ARaised (OSError "Not a directory: /home/u/.config/nvim.backup")) ]
  /\ Fs.lookup (Fs.root (state_of (L := spec_library) run)) backup_dir
     = Some (Fs.Symlink ["home"; "u"; "old-nvim"])
  /\ Fs.lookup (Fs.root (state_of (L := spec_library) run)) nvim_config_dir
     = Fs.lookup (Fs.root stale_backup) nvim_config_dir
  /\ result_of (install (L := spec_library) (__init__ false) stale_backup)
     = Raise (OSError "Not a directory: /home/u/.config/nvim.backup").
Proof.
  cbv zeta. repeat split; vm_compute; reflexivity.
Qed.

(** On [Demo.locked] the first removal of step 4 is refused, and the step
    stops there. *)
Example removal_stops_on_locked :
  _remove_existing_configs (L := spec_library) (__init__ false) locked
  = (Ret false, locked,
     [ LogInfo "Removing existing configs.";
       SpinnerUpdate "Removing existing configs...";
       Sys (CRemove (config_path "hypr")) (ABool false);
       SpinnerError
         "Failed to remove existing config: /home/u/.config/hypr." ]).
Proof. vm_compute. reflexivity. Qed.

(** On [Demo.fresh], where the previous backup is a directory, step 7
    does replace it by the live configuration. *)
Example lazyvim_replaces_a_plain_backup :
  let run := _install_lazyvim (L := spec_library) (__init__ false) fresh in
  result_of run = Ret true
  /\ Fs.lookup (Fs.root (state_of (L := spec_library) run)) backup_dir
     = Fs.lookup (Fs.root fresh) nvim_config_dir
  /\ Fs.lookup (Fs.root (state_of (L := spec_library) run)) nvim_config_dir = None.
Proof.
  cbv zeta. repeat split; vm_compute; reflexivity.
Qed.

End ConcreteRuns.

(** ** Step 7 in phases *)

Section LazyVimPhases.
Context {P : Paths} {L : Library}.

Lemma install_lazyvim_phases (self : DotfilesInstaller) (s : fsys) :
  dry_run self = false ->
  _install_lazyvim self s
  = after_events [LogInfo "Installing LazyVim";
                  SpinnerUpdate "Installing LazyVim..."]
      (lazyvim_staged_then (lazyvim_backup_then lazyvim_clone_phase) s).
Proof.
  intros H. unfold _install_lazyvim. rewrite H.
  unfold bind at 1, emit. unfold bind at 1.
  change (staged <- p_exists lazyvim_dir ;; _)
    with (lazyvim_staged_then (lazyvim_backup_then lazyvim_clone_phase)).
  destruct (lazyvim_staged_then _ s) as [[r s'] t]. reflexivity.
Qed.

Lemma staged_then_absent (k : M bool) (s : fsys) :
  path_exists lazyvim_dir s = false ->
  lazyvim_staged_then k s
  = after_events [Sys (CExists lazyvim_dir) (ABool false)] (k s).
Proof.
  intros H. unfold lazyvim_staged_then, bind, p_exists, ret. rewrite H.
  simpl. destruct (k s) as [[r s'] t]. reflexivity.
Qed.

Lemma staged_then_present (k : M bool) (s : fsys) :
  path_exists lazyvim_dir s = true ->
  lazyvim_staged_then k s
  = after_events [Sys (CExists lazyvim_dir) (ABool true);
                  Sys (CRemove lazyvim_dir)
                      (ABool (fst (remove lazyvim_dir s)))]
      (k (snd (remove lazyvim_dir s))).
Proof.
  intros H. unfold lazyvim_staged_then, bind, p_exists, do_remove, ret.
  rewrite H. simpl. destruct (remove lazyvim_dir s) as [b s1]. simpl.
  destruct (k s1) as [[r s'] t]. reflexivity.
Qed.

Lemma backup_then_absent (k : M bool) (s : fsys) :
  path_exists nvim_config_dir s = false ->
  lazyvim_backup_then k s
  = after_events [Sys (CExists nvim_config_dir) (ABool false)] (k s).
Proof.
  intros H. unfold lazyvim_backup_then, bind, p_exists, ret. rewrite H.
  simpl. destruct (k s) as [[r s'] t]. reflexivity.
Qed.

End LazyVimPhases.

Section LazyVimOnModel.
Context {P : Paths}.
Import Fs FsFacts.

Lemma clone_phase_model (s : state) :
  (exists b, result_of (lazyvim_clone_phase s) = Ret b)
  /\ reach [lazyvim_dir; git_dir] s (state_of (lazyvim_clone_phase s))
  /\ (forall c a, In (Sys c a) (trace_of (lazyvim_clone_phase s)) ->
                  c = lazyvim_clone \/ c = CExists git_dir
                  \/ c = CRemove git_dir).
Proof.
  unfold lazyvim_clone_phase, lazyvim_clone.
  unfold bind, emit, ret, p_exists, do_remove, do_run, try_except, raising.
  fs_cases; unfold result_of, state_of, trace_of; simpl;
    (split; [eexists; reflexivity|]; split; [reach_tac|]);
    intros c a H; pick_event H; injection H as <- _; tauto.
Qed.

Lemma clone_phase_refused (s : state) (t : Path) :
  lookup (root s) lazyvim_dir = Some (Symlink t) ->
  exists e, lazyvim_clone_phase s = (Ret false, s, lazyvim_failure e).
Proof.
  intros H.
  destruct (run_command_refused lazyvim_url _ _ _ H) as [e E].
  exists e. unfold lazyvim_clone_phase, lazyvim_failure, lazyvim_clone.
  unfold bind at 1 2, emit, ret, do_run, try_except, raising. simpl.
  rewrite E. reflexivity.
Qed.

(** A dangling link at the live configuration path: step 7 renames
    nothing, removes no backup, and leaves the link and the backup path as
    they were. *)
Lemma lazyvim_dangling_live (self : DotfilesInstaller) (s : state)
      (t : Path) :
  dry_run self = false ->
  is_prefix lazyvim_dir nvim_config_dir = false ->
  disjoint lazyvim_dir backup_dir = true ->
  lookup (root s) nvim_config_dir = Some (Symlink t) ->
  Fs.path_exists nvim_config_dir s = false ->
  (forall a c, In (Sys c a) (trace_of (_install_lazyvim self s)) ->
               c <> CRename nvim_config_dir backup_dir
               /\ c <> CRemove backup_dir)
  /\ lookup (root (state_of (_install_lazyvim self s))) nvim_config_dir
     = Some (Symlink t)
  /\ lookup (root (state_of (_install_lazyvim self s))) backup_dir
     = lookup (root s) backup_dir.
Proof.
  intros Hdry Hpre Hdis Hlink Hdang.
  rewrite (install_lazyvim_phases (L := spec_library) self s Hdry).
  assert (Hgit : is_prefix git_dir nvim_config_dir = false).
  { destruct (is_prefix git_dir nvim_config_dir) eqn:E; [|reflexivity].
    rewrite <- Hpre. symmetry.
    exact (is_prefix_trans _ _ _ (is_prefix_app lazyvim_dir [".git"]) E). }
  assert (Hgb : disjoint git_dir backup_dir = true).
  { rewrite <- (app_nil_r backup_dir). now apply disjoint_app. }
  assert (Nb1 : backup_dir <> lazyvim_dir).
  { intros E. rewrite E in Hdis. unfold disjoint in Hdis.
    rewrite is_prefix_refl in Hdis. discriminate. }
  assert (Nb2 : backup_dir <> git_dir).
  { intros E. rewrite E in Hgb. unfold disjoint in Hgb.
    rewrite is_prefix_refl in Hgb. discriminate. }
  (* the state in which the live path is probed *)
  assert (Hphase :
            exists s1 pre,
              lazyvim_staged_then (lazyvim_backup_then lazyvim_clone_phase) s
              = after_events pre (lazyvim_backup_then lazyvim_clone_phase s1)
              /\ reach [lazyvim_dir] s s1
              /\ Fs.path_exists nvim_config_dir s1 = false
              /\ (forall c a, In (Sys c a) pre ->
                              c = CExists lazyvim_dir
                              \/ c = CRemove lazyvim_dir)).
  { destruct (Fs.path_exists lazyvim_dir s) eqn:E.
    - exists (snd (Fs.remove lazyvim_dir s)). eexists. split.
      + exact (staged_then_present (L := spec_library) _ s E).
      + destruct (Fs.remove lazyvim_dir s) as [b s1] eqn:R. simpl.
        split; [|split].
        * apply (reach_one _ lazyvim_dir); [now left|].
          exact (remove_altered _ _ _ _ R).
        * exact (remove_exists_back _ _ _ _ _ R Hdang).
        * intros c a H. pick_event H; injection H as <- _; tauto.
    - exists s. eexists. split; [exact (staged_then_absent (L := spec_library) _ s E)|].
      split; [apply reach_refl|]. split; [exact Hdang|].
      intros c a H. pick_event H. injection H as <- _. tauto. }
  destruct Hphase as (s1 & pre & -> & R1 & Hd1 & Hpre1).
  rewrite (backup_then_absent (L := spec_library) _ s1 Hd1).
  destruct (clone_phase_model s1) as ([b Hb] & R2 & Hev).
  destruct (lazyvim_clone_phase s1) as [[r s2] tr2].
  unfold result_of, state_of, trace_of, after_events in *. simpl in *.
  subst r.
  assert (R : reach [lazyvim_dir; git_dir] s s2).
  { apply (reach_trans _ _ s1); [|exact R2].
    apply (reach_mono [lazyvim_dir]); [|exact R1].
    intros p [<-|[]]. now left. }
  split; [|split].
  - intros a c [H|[H|H]]; try discriminate.
    apply in_app_or in H. destruct H as [H|[H|H]].
    + destruct (Hpre1 _ _ H) as [->| ->]; split; congruence.
    + injection H as <- _. split; discriminate.
    + destruct (Hev _ _ H) as [->|[->| ->]]; unfold lazyvim_clone;
        split; congruence.
  - apply (reach_keeps _ _ _ _ _ R Hlink eq_refl).
    intros p [<-|[<-|[]]]; assumption.
  - apply (reach_frame _ _ _ _ R).
    intros p [<-|[<-|[]]]; assumption.
Qed.


Arguments lazyvim_clone_phase : simpl never.

(** A dangling link at the staged configuration path: step 7 does not
    remove it, the clone over it is refused, and the step cannot
    succeed. *)
Lemma lazyvim_dangling_staged (self : DotfilesInstaller) (s : state)
      (t : Path) :
  dry_run self = false ->
  is_prefix nvim_config_dir lazyvim_dir = false ->
  is_prefix backup_dir lazyvim_dir = false ->
  lookup (root s) lazyvim_dir = Some (Symlink t) ->
  Fs.path_exists lazyvim_dir s = false ->
  (forall a, ~ In (Sys (CRemove lazyvim_dir) a)
               (trace_of (_install_lazyvim self s)))
  /\ result_of (_install_lazyvim self s) <> Ret true
  /\ lookup (root (state_of (_install_lazyvim self s))) lazyvim_dir
     = Some (Symlink t).
Proof.
  intros Hdry Hn Hb Hlink Hdang.
  rewrite (install_lazyvim_phases (L := spec_library) self s Hdry).
  rewrite (staged_then_absent (L := spec_library) _ s Hdang).
  assert (Nb : backup_dir <> lazyvim_dir).
  { intros E. rewrite E, is_prefix_refl in Hb. discriminate. }
  assert (K : forall sk, reach [nvim_config_dir; backup_dir] s sk ->
                         lookup (root sk) lazyvim_dir = Some (Symlink t)).
  { intros sk R. apply (reach_keeps _ _ _ _ _ R Hlink eq_refl).
    intros p [<-|[<-|[]]]; assumption. }
  unfold lazyvim_backup_then.
  unfold bind, emit, ret, p_exists, do_remove, do_rename, raising.
  fs_cases;
    try match goal with
        | |- context [lazyvim_clone_phase ?sk] =>
            let R := fresh "R" in
            let e := fresh "e" in
            let E := fresh "E" in
            assert (R : reach [nvim_config_dir; backup_dir] s sk)
              by reach_tac;
            destruct (clone_phase_refused sk t (K sk R)) as [e E];
            rewrite E
        end;
    unfold result_of, state_of, trace_of, after_events, lazyvim_failure,
      lazyvim_clone; simpl;
    (split; [intros a H; pick_event H; injection H as H _; congruence|];
     split; [discriminate|]);
    apply K; reach_tac.
Qed.

(** A dangling link at the plugin manager's path: step 6 does not remove
    it, the clone over it is refused, and the step cannot succeed; the
    filesystem is as it was. *)
Lemma tpm_dangling (self : DotfilesInstaller) (s : state) (t : Path) :
  dry_run self = false ->
  lookup (root s) tpm_dir = Some (Symlink t) ->
  Fs.path_exists tpm_dir s = false ->
  (forall a, ~ In (Sys (CRemove tpm_dir) a) (trace_of (_install_tpm self s)))
  /\ result_of (_install_tpm self s) <> Ret true
  /\ state_of (_install_tpm self s) = s.
Proof.
  intros Hdry Hlink Hdang.
  destruct (run_command_refused tpm_url _ _ _ Hlink) as [e E].
  unfold _install_tpm. rewrite Hdry.
  unfold bind, emit, ret, p_exists, do_remove, do_run, try_except, raising.
  simpl. rewrite Hdang. simpl. rewrite E.
  unfold result_of, state_of, trace_of. simpl.
  split; [|split; [discriminate | reflexivity]].
  intros a H. pick_event H.
Qed.

(** Steps 4 and 5 touch the configuration entries of the registry only,
    and [nvim] is not one of them. *)
Lemma steps_4_5_keep_nvim (s : state) (t : Path) :
  lookup (root s) nvim_config_dir = Some (Symlink t) ->
  lookup (root (state_of (_remove_existing_configs (__init__ false) s)))
         nvim_config_dir = Some (Symlink t)
  /\ lookup (root (state_of (_create_links (__init__ false) s)))
            nvim_config_dir = Some (Symlink t).
Proof.
  intros Hlink.
  assert (C : forall p, In p (map config_path registry) ->
                        is_prefix p nvim_config_dir = false).
  { intros p Hp. apply in_map_iff in Hp. destruct Hp as (m & <- & Hm).
    unfold nvim_config_dir, config_path, joinpath.
    apply is_prefix_sibling. rewrite String.eqb_sym.
    exact (proj1 (registry_not_nvim m Hm)). }
  split.
  - exact (reach_keeps _ _ _ _ _
             (remove_existing_configs_reach (__init__ false) s)
             Hlink eq_refl C).
  - exact (reach_keeps _ _ _ _ _
             (create_links_reach (__init__ false) s) Hlink eq_refl C).
Qed.

End LazyVimOnModel.

(** ** Where a run stops *)

Section RunStates.
Context {P : Paths} {L : Library}.

Ltac stopped_after K :=
  exists K; split; [lia|];
  unfold state_before; cbn [firstn steps run_states]; unfold state_of;
  cbn [fst snd];
  repeat match goal with
         | E : _ = (_, _, _) |- _ => rewrite E; clear E; cbn [fst snd]
         end;
  reflexivity.

(** The filesystem [install] leaves is the one left by the last step it
    ran. *)
Lemma install_state_cases (self : DotfilesInstaller) (s : fsys) :
  exists k, k <= 7 /\ state_of (install self s) = state_before k self s.
Proof.
  unfold install, core_block, third_party_block, with_spinner, bind, emit, ret.
  destruct (_validate_sources self s) as [[[[|]|?] x1] ?] eqn:E1;
    cbn [negb]; [| stopped_after 1 | stopped_after 1].
  destruct (_copy_dotfiles self x1) as [[[[|]|?] x2] ?] eqn:E2;
    cbn [negb]; [| stopped_after 2 | stopped_after 2].
  destruct (_verify_copy self x2) as [[[[|]|?] x3] ?] eqn:E3;
    cbn [negb]; [| stopped_after 3 | stopped_after 3].
  destruct (_remove_existing_configs self x3) as [[[[|]|?] x4] ?] eqn:E4;
    cbn [negb]; [| stopped_after 4 | stopped_after 4].
  destruct (_create_links self x4) as [[[[|]|?] x5] ?] eqn:E5;
    cbn [negb]; [| stopped_after 5 | stopped_after 5].
  cbn [fst snd].
  destruct (_install_tpm self x5) as [[[[|]|?] x6] ?] eqn:E6;
    cbn [negb]; [| stopped_after 6 | stopped_after 6].
  destruct (_install_lazyvim self x6) as [[[[|]|?] x7] ?] eqn:E7;
    cbn [negb]; stopped_after 7.
Qed.

End RunStates.

Section RunStatesOnModel.
Context {P : Paths}.
Import Fs FsFacts.

Lemma run_states_reach (ps : list Path) (ms : list (M bool)) (s : state) :
  (forall m, In m ms -> forall s0, reach ps s0 (state_of (m s0))) ->
  reach ps s (run_states ms s).
Proof.
  revert s; induction ms as [|m rest IH]; intros s H; simpl.
  - apply reach_refl.
  - apply (reach_trans _ _ (state_of (m s))).
    + apply H. now left.
    + apply IH. intros m' Hm. apply H. now right.
Qed.

Lemma early_reach (self : DotfilesInstaller) (k : nat) (s : state) :
  k <= 6 ->
  reach (USER_DOTFILES_DIR
           :: map config_path (dotfiles_components self) ++ [tpm_dir])
        s (state_before k self s).
Proof.
  intros Hk. unfold state_before. apply run_states_reach.
  intros m Hm.
  assert (H6 : In m (firstn 6 (steps self))).
  { destruct k as [|[|[|[|[|[|[|k]]]]]]]; try lia; simpl in Hm |- *; tauto. }
  clear Hm. simpl in H6. intros s0.
  destruct H6 as [<-|[<-|[<-|[<-|[<-|[<-|[]]]]]]].
  - rewrite validate_sources_state. apply reach_refl.
  - apply (reach_mono [USER_DOTFILES_DIR]);
      [|apply copy_dotfiles_reach].
    intros p [<-|[]]. now left.
  - rewrite verify_copy_state. apply reach_refl.
  - apply (reach_mono (map config_path (dotfiles_components self)));
      [|apply remove_existing_configs_reach].
    intros p Hp. right. apply in_or_app. now left.
  - apply (reach_mono (map config_path (dotfiles_components self)));
      [|apply create_links_reach].
    intros p Hp. right. apply in_or_app. now left.
  - apply (reach_mono [tpm_dir]); [|apply install_tpm_reach].
    intros p [<-|[]]. right. apply in_or_app. right. now left.
Qed.

(** A link at the live configuration path that is still dangling when
    step 7 starts is there, unchanged, when [install] ends. *)
Lemma install_keeps_dangling_nvim (s : state) (t : Path) :
  layout_ok = true ->
  lookup (root s) nvim_config_dir = Some (Symlink t) ->
  Fs.path_exists nvim_config_dir (state_before 6 (__init__ false) s) = false ->
  lookup (root (state_of (install (__init__ false) s))) nvim_config_dir
  = Some (Symlink t).
Proof.
  intros Hl Hlink Hdang.
  assert (Hm : In "nvim" managed).
  { unfold managed. apply in_or_app. right. now left. }
  assert (Hmb : In "nvim.backup" managed).
  { unfold managed. apply in_or_app. right. right. now left. }
  assert (S : forall r, is_prefix (USER_DOTFILES_DIR ++ r) nvim_config_dir
                        = false).
  { intros r. pose proof (layout_config_stage "nvim" r Hl Hm) as D.
    apply disjoint_spec in D. tauto. }
  assert (C : forall p,
             In p (USER_DOTFILES_DIR
                     :: map config_path registry ++ [tpm_dir]) ->
             is_prefix p nvim_config_dir = false).
  { intros p [<-|Hp].
    - rewrite <- (app_nil_r USER_DOTFILES_DIR). apply S.
    - apply in_app_or in Hp. destruct Hp as [Hp|[<-|[]]].
      + apply in_map_iff in Hp. destruct Hp as (m & <- & Hr).
        unfold nvim_config_dir, config_path, joinpath.
        apply is_prefix_sibling. rewrite String.eqb_sym.
        exact (proj1 (registry_not_nvim m Hr)).
      + rewrite tpm_dir_eq. apply S. }
  assert (E : forall k, k <= 6 ->
                lookup (root (state_before k (__init__ false) s))
                       nvim_config_dir = Some (Symlink t)).
  { intros k Hk.
    exact (reach_keeps _ _ _ _ _ (early_reach (__init__ false) k s Hk)
                       Hlink eq_refl C). }
  destruct (install_state_cases (L := spec_library) (__init__ false) s)
    as (k & Hk & ->).
  destruct (Nat.eq_dec k 7) as [->|Hne]; [|apply E; lia].
  change (state_before (L := spec_library) 7 (__init__ false) s)
    with (state_of (L := spec_library)
            (_install_lazyvim (__init__ false)
               (state_before (L := spec_library) 6 (__init__ false) s))).
  apply (lazyvim_dangling_live (__init__ false) _ t eq_refl).
  - rewrite lazyvim_dir_eq. apply S.
  - rewrite lazyvim_dir_eq, disjoint_sym.
    exact (layout_config_stage "nvim.backup" ["nvim"] Hl Hmb).
  - apply E. lia.
  - exact Hdang.
Qed.



End RunStatesOnModel.

(** ** The theorems at work on the concrete machine *)

Section Witnesses.
Import Demo.

Lemma C2_witness :
  result_of (install (L := spec_library) (__init__ false) locked) = Ret false
  /\ result_of
       (install (L := spec_library)
                (installer_with false (["hypr"; "waybar"] ++ "ghost" :: ["kitty"]))
                fresh)
     = Ret false.
Proof.
  pose proof (@C2_install_is_fail_fast Demo.paths spec_library
                (__init__ false) locked) as [A _].
  pose proof (@C2_install_is_fail_fast Demo.paths spec_library
                (__init__ false) fresh) as [_ B].
  split.
  - destruct (passes (L := spec_library) 0
                (firstn 3 (steps (__init__ false))) locked)
      as [[s1 t1]|] eqn:E1; [|vm_compute in E1; discriminate E1].
    destruct (nth 3 (steps (L := spec_library) (__init__ false)) (ret true) s1)
      as [[r s2] t2] eqn:E2.
    assert (Hr : r = Ret false).
    { vm_compute in E1. injection E1 as <- _.
      apply (f_equal (fun x => fst (fst x))) in E2. vm_compute in E2.
      now symmetry. }
    subst r.
    rewrite (A 3 s1 s2 t1 t2 ltac:(lia) E1 E2). reflexivity.
  - rewrite (B ["hypr"; "waybar"] "ghost" ["kitty"]).
    + reflexivity.
    + intros n [<-|[<-|[]]]; vm_compute; reflexivity.
    + vm_compute; reflexivity.
Defined.

Lemma C3_witness :
  In (LogError (missing_message (stage_path "one")))
     (trace_of (_verify_copy (L := spec_library)
                             (installer_with false five) half_staged))
  /\ In (LogError (missing_message (stage_path "five")))
        (trace_of (_verify_copy (L := spec_library)
                                (installer_with false five) half_staged)).
Proof.
  pose proof (@C3_verify_copy_reports_every_missing_component
                Demo.paths spec_library five half_staged) as H.
  cbv zeta in H.
  destruct (_verify_copy (L := spec_library) (installer_with false five)
                         half_staged) as [[r s'] tr].
  destruct H as (_ & _ & _ & _ & H & _). split.
  - apply H; [simpl; tauto | vm_compute; reflexivity].
  - apply H; [simpl; tauto | vm_compute; reflexivity].
Defined.

Lemma C4_witness :
  Fs.lookup
    (Fs.root (state_of (_create_links (L := spec_library)
                                      (installer_with false five) occupied)))
    (config_path "three")
  = Some (Fs.Symlink (stage_path "three"))
  /\ result_of (_create_links (L := spec_library)
                              (installer_with false five) occupied)
     = Ret false.
Proof.
  pose proof (@C4_create_links_tries_every_component
                Demo.paths five occupied) as H.
  destruct (_create_links (L := spec_library) (installer_with false five)
                          occupied) as [[r s'] tr] eqn:E.
  assert (Htr : collect failed_link_of tr
                = [link_pair "two"; link_pair "four"]).
  { apply (f_equal (fun x => collect failed_link_of (snd x))) in E.
    vm_compute in E. vm_compute. now symmetry. }
  cbv zeta in H. rewrite Htr in H.
  destruct H as (_ & Hr & _ & _ & Hl). split.
  - apply Hl; [simpl; tauto|].
    intros [K|[K|[]]]; vm_compute in K; discriminate K.
  - exact Hr.
Defined.

Lemma C9_witness :
  result_of (_install_tpm (L := spec_library) (__init__ false) unplugged)
  = Ret false
  /\ result_of (_install_lazyvim (L := spec_library) (__init__ false) unplugged)
     = Ret false
  /\ result_of (install (L := spec_library) (__init__ false) unplugged)
     = Ret false.
Proof.
  pose proof (@C9_clone_faults_are_caught Demo.paths spec_library
                (__init__ false) unplugged) as (T & Z & I).
  split; [|split].
  - destruct (_install_tpm (L := spec_library) (__init__ false) unplugged)
      as [[r s'] tr] eqn:E.
    refine (proj1 (T (GitClone tpm_url tpm_dir)
                     (CalledProcessError 128
                        ("fatal: unable to access " ++ tpm_url)) _)).
    apply (f_equal snd) in E. change (snd (r, s', tr)) with tr in E.
    rewrite <- E. vm_compute. tauto.
  - destruct (_install_lazyvim (L := spec_library) (__init__ false) unplugged)
      as [[r s'] tr] eqn:E.
    destruct Z as [Z _].
    refine (proj1 (Z (GitClone lazyvim_url lazyvim_dir)
                     (CalledProcessError 128
                        ("fatal: unable to access " ++ lazyvim_url)) _)).
    apply (f_equal snd) in E. change (snd (r, s', tr)) with tr in E.
    rewrite <- E. vm_compute. tauto.
  - destruct (install (L := spec_library) (__init__ false) unplugged)
      as [[r s'] tr] eqn:E.
    refine (I (GitClone tpm_url tpm_dir)
              (CalledProcessError 128
                 ("fatal: unable to access " ++ tpm_url)) _).
    apply (f_equal snd) in E. change (snd (r, s', tr)) with tr in E.
    rewrite <- E. vm_compute. tauto.
Defined.


End Witnesses.

(** * Further properties *)

(** ** Step 1 *)

Section ValidateSources.
Context {P : Paths} {L : Library}.

Lemma validate_loop_first_missing (ps : list Path) (s : fsys) :
  let '(r, s', tr) := validate_loop ps s in
  s' = s
  /\ r = Ret (forallb (fun p => path_lexists p s) ps)
  /\ collect probe_of tr = probed_until s ps
  /\ filter is_log_error tr
     = match first_missing s ps with
       | Some c => [missing_source_log c]
       | None => []
       end
  /\ filter is_spinner_error tr
     = match first_missing s ps with
       | Some c => [missing_source_spinner c]
       | None => []
       end.
Proof.
  induction ps as [|i rest IH]; simpl; [repeat split|].
  unfold bind at 1, lexists, first_missing. simpl.
  destruct (path_lexists i s) eqn:E; simpl.
  - destruct (validate_loop rest s) as [[r s'] tr].
    destruct IH as (H1 & H2 & H3 & H4 & H5).
    split; [exact H1|]. split; [exact H2|].
    split; [cbn [collect probe_of]; now rewrite H3|].
    split; [exact H4 | exact H5].
  - repeat split.
Qed.

(** X1.  On a real run [_validate_sources] changes nothing and returns
    [True] exactly when [path_lexists] sees the source path of every
    component.  It probes the source paths in registry order and stops at
    the first one that is absent: that path, and no other, is named by one
    error record in the log and one error on the spinner, however many
    sources are missing. *)
Theorem X1_validate_sources_reports_the_first_missing_source :
  forall (comps : list string) (s : fsys),
    let paths := map source_path comps in
    let '(r, s', tr) := _validate_sources (installer_with false comps) s in
    s' = s
    /\ r = Ret (forallb (fun p => path_lexists p s) paths)
    /\ collect probe_of tr = probed_until s paths
    /\ filter is_log_error tr
       = match first_missing s paths with
         | Some c => [missing_source_log c]
         | None => []
         end
    /\ filter is_spinner_error tr
       = match first_missing s paths with
         | Some c => [missing_source_spinner c]
         | None => []
         end.
Proof.
  intros comps s paths.
  unfold _validate_sources; simpl.
  unfold bind at 1, emit; simpl. unfold bind at 1; simpl.
  pose proof (validate_loop_first_missing paths s) as H.
  fold source_path. fold paths.
  destruct (validate_loop paths s) as [[r s'] tr]. exact H.
Qed.

End ValidateSources.

(** ** Step 2 *)

Section CopyDotfiles.
Context {P : Paths} {L : Library}.

(** X2.  On a real run of [_copy_dotfiles], once the probe of the
    staging directory has answered: the directory is removed first exactly
    when the answer was [True]; what [remove] answered is not looked at,
    and [copy] is called in either case, on the filesystem the removal
    left.  The step returns [True] exactly when [copy] returned, and
    [False] when [copy] raised: the exception is caught, logged with its
    text and reported on the spinner. *)
Theorem X2_copy_dotfiles_catches_the_copy :
  forall (comps : list string) (s : fsys),
    let '(r, s', tr) := _copy_dotfiles (installer_with false comps) s in
    (forall b, In (Sys (CExists USER_DOTFILES_DIR) (ABool b)) tr ->
        (exists a, In (Sys copy_call a) tr)
        /\ s' = snd (copy HYPRDOTS_DOTFILES_DIR USER_DOTFILES_DIR
                          (if b then snd (remove USER_DOTFILES_DIR s)
                           else s)))
    /\ ((exists b, In (Sys (CRemove USER_DOTFILES_DIR) (ABool b)) tr)
        <-> In (Sys (CExists USER_DOTFILES_DIR) (ABool true)) tr)
    /\ (r = Ret true <-> In (Sys copy_call ADone) tr)
    /\ (forall e, In (Sys copy_call (ARaised e)) tr ->
                  r = Ret false
                  /\ In (LogError ("Failed to copy dotfiles: " ++ exn_str e)) tr
                  /\ In (SpinnerError "Failed to copy dotfiles.") tr).
Proof.
  intros comps s. unfold _copy_dotfiles, copy_call; simpl.
  unfold bind, emit, ret, p_exists, do_remove, do_copy, try_except, raising.
  simpl.
  destruct (path_exists USER_DOTFILES_DIR s) eqn:Ex; simpl.
  - destruct (remove USER_DOTFILES_DIR s) as [b s1]. simpl.
    destruct (copy HYPRDOTS_DOTFILES_DIR USER_DOTFILES_DIR s1)
      as [[e|] s2] eqn:Ec; simpl.
    + split; [intros b' H; pick_event H; injection H as <-;
              split; [eexists; do 7 right; left; reflexivity
                     | now rewrite Ec]|].
      split; [split; [tauto | exists b; tauto]|].
      split; [split; [discriminate | intros H; pick_event H]|].
      intros e' H. pick_event H. injection H as <-. simpl. tauto.
    + split; [intros b' H; pick_event H; injection H as <-;
              split; [eexists; do 7 right; left; reflexivity
                     | now rewrite Ec]|].
      split; [split; [tauto | exists b; tauto]|].
      split; [split; [tauto | reflexivity]|].
      intros e' H. pick_event H.
  - destruct (copy HYPRDOTS_DOTFILES_DIR USER_DOTFILES_DIR s)
      as [[e|] s2] eqn:Ec; simpl.
    + split; [intros b' H; pick_event H; injection H as <-;
              split; [eexists; do 5 right; left; reflexivity
                     | now rewrite Ec]|].
      split; [split; [intros [b H]; pick_event H | intros H; pick_event H]|].
      split; [split; [discriminate | intros H; pick_event H]|].
      intros e' H. pick_event H. injection H as <-. simpl. tauto.
    + split; [intros b' H; pick_event H; injection H as <-;
              split; [eexists; do 5 right; left; reflexivity
                     | now rewrite Ec]|].
      split; [split; [intros [b H]; pick_event H | intros H; pick_event H]|].
      split; [split; [tauto | reflexivity]|].
      intros e' H. pick_event H.
Qed.

End CopyDotfiles.

(** ** [install] as a whole *)

Lemma step_events_app (t1 t2 : list event) :
  forallb step_event t1 = true -> forallb step_event t2 = true ->
  forallb step_event (t1 ++ t2) = true.
Proof. intros H1 H2. now rewrite forallb_app, H1, H2. Qed.

Lemma step_events_no_success (t : list event) (m : string) :
  forallb step_event t = true -> ~ In (SpinnerSuccess m) t.
Proof.
  intros H Hin. rewrite forallb_forall in H. specialize (H _ Hin).
  discriminate.
Qed.

Ltac by_step_events :=
  match goal with
  | N : forallb step_event ?t = true, H : In (SpinnerSuccess ?m) ?t |- _ =>
      exact (step_events_no_success t m N H)
  end.

Section InstallAsAWhole.
Context {P : Paths} {L : Library}.

Lemma validate_sources_events (self : DotfilesInstaller) (s : fsys) :
  forallb step_event (trace_of (_validate_sources self s)) = true.
Proof.
  unfold _validate_sources. destruct (dry_run self); [reflexivity|].
  unfold bind at 1, emit; simpl. unfold bind at 1; simpl.
  assert (H : forall ps, forallb step_event (trace_of (validate_loop ps s))
                         = true).
  { induction ps as [|i rest IH]; simpl; [reflexivity|].
    unfold bind at 1, lexists.
    destruct (path_lexists i s); simpl; [|reflexivity].
    destruct (validate_loop rest s) as [[r s'] tr]. exact IH. }
  specialize (H (source_dotfiles_components_paths self)).
  destruct (validate_loop _ s) as [[r s'] tr]. exact H.
Qed.

Lemma copy_dotfiles_events (self : DotfilesInstaller) (s : fsys) :
  forallb step_event (trace_of (_copy_dotfiles self s)) = true.
Proof.
  unfold _copy_dotfiles. destruct (dry_run self); [reflexivity|].
  unfold bind, emit, ret, p_exists, do_remove, try_except, do_copy, raising.
  simpl.
  destruct (path_exists USER_DOTFILES_DIR s); simpl.
  - destruct (remove USER_DOTFILES_DIR s) as [b s1]; simpl.
    destruct (copy HYPRDOTS_DOTFILES_DIR USER_DOTFILES_DIR s1) as [[e|] s2];
      reflexivity.
  - destruct (copy HYPRDOTS_DOTFILES_DIR USER_DOTFILES_DIR s) as [[e|] s2];
      reflexivity.
Qed.

Lemma verify_copy_events (self : DotfilesInstaller) (s : fsys) :
  forallb step_event (trace_of (_verify_copy self s)) = true.
Proof.
  unfold _verify_copy. destruct (dry_run self); [reflexivity|].
  unfold bind at 1, emit; simpl. unfold bind at 1.
  rewrite verify_loop_spec.
  assert (H : forall ps, forallb step_event (flat_map (verify_probe s) ps)
                         = true).
  { induction ps as [|i rest IH]; simpl; [reflexivity|].
    destruct (path_lexists i s); simpl; exact IH. }
  destruct (_ ++ _); unfold trace_of; simpl.
  - rewrite app_nil_r. apply H.
  - unfold bind, emit, ret; simpl. apply step_events_app; [apply H|reflexivity].
Qed.

Lemma remove_existing_configs_events (self : DotfilesInstaller) (s : fsys) :
  forallb step_event (trace_of (_remove_existing_configs self s)) = true.
Proof.
  unfold _remove_existing_configs. destruct (dry_run self); [reflexivity|].
  unfold bind at 1, emit; simpl. unfold bind at 1; simpl.
  assert (H : forall comps s0,
             forallb step_event (trace_of (remove_loop comps s0)) = true).
  { induction comps as [|i rest IH]; intros s0; simpl; [reflexivity|].
    unfold bind at 1, do_remove.
    destruct (remove (USER_CONFIGS_DIR // i) s0) as [[|] s1]; simpl;
      [|reflexivity].
    specialize (IH s1). destruct (remove_loop rest s1) as [[r s'] tr].
    exact IH. }
  specialize (H (dotfiles_components self) s).
  destruct (remove_loop _ s) as [[r s'] tr]. exact H.
Qed.

Lemma create_links_events (self : DotfilesInstaller) (s : fsys) :
  forallb step_event (trace_of (_create_links self s)) = true.
Proof.
  unfold _create_links. destruct (dry_run self); [reflexivity|].
  unfold bind at 1, emit; simpl. unfold bind at 1; simpl. unfold bind at 1.
  assert (H : forall comps acc s0,
             forallb step_event (trace_of (link_loop comps acc s0)) = true).
  { induction comps as [|c rest IH]; intros acc s0; simpl; [reflexivity|].
    unfold bind at 1, do_symlink.
    destruct (create_symlink (USER_DOTFILES_DIR // c) (USER_CONFIGS_DIR // c) s0)
      as [[|] s1]; simpl.
    - specialize (IH acc s1). destruct (link_loop rest acc s1) as [[r s'] tr].
      exact IH.
    - unfold bind at 1, emit.
      specialize (IH (acc ++ [(USER_DOTFILES_DIR // c, USER_CONFIGS_DIR // c)])
                     s1).
      destruct (link_loop rest _ s1) as [[r s'] tr]. exact IH. }
  specialize (H (dotfiles_components self) [] s).
  destruct (link_loop _ [] s) as [[[m|e] s'] tr]; simpl in *; [|exact H].
  destruct m; simpl; unfold trace_of; simpl.
  - now rewrite app_nil_r.
  - unfold bind, emit, ret; simpl. apply step_events_app; [exact H|reflexivity].
Qed.

Lemma install_tpm_events (self : DotfilesInstaller) (s : fsys) :
  forallb step_event (trace_of (_install_tpm self s)) = true.
Proof.
  unfold _install_tpm. destruct (dry_run self); [reflexivity|].
  unfold_step. split_cases; reflexivity.
Qed.

Lemma install_lazyvim_events (self : DotfilesInstaller) (s : fsys) :
  forallb step_event (trace_of (_install_lazyvim self s)) = true.
Proof.
  unfold _install_lazyvim. destruct (dry_run self); [reflexivity|].
  unfold_step. split_cases; reflexivity.
Qed.

(** X3.  [install] returns [True] exactly when each of the seven steps,
    run in order and each on the filesystem the one before it left, has
    returned [True]; the filesystem it leaves is then the one step 7 left,
    and its trace is the trace of the seven steps followed by the release
    of the second spinner and the empty line. *)
Theorem X3_install_succeeds_when_all_steps_do :
  forall (self : DotfilesInstaller) (s : fsys),
    (forall s7 t,
        passes 0 (steps self) s = Some (s7, t) ->
        install self s = (Ret true, s7, t ++ [SpinnerExit; PrintLine ""]))
    /\ (forall s' tr,
           install self s = (Ret true, s', tr) ->
           exists t, passes 0 (steps self) s = Some (s', t)
                     /\ tr = t ++ [SpinnerExit; PrintLine ""]).
Proof.
  intros self s. split.
  - intros s7 t H. cbn [steps passes] in H.
    run_step E1. run_step E2. run_step E3. run_step E4. run_step E5.
    run_step E6. run_step E7. injection H as <- <-.
    unfold_install. rewrite E1; simpl. rewrite E2; simpl. rewrite E3; simpl.
    rewrite E4; simpl. rewrite E5; simpl. rewrite E6; simpl.
    rewrite E7; simpl. norm_trace. reflexivity.
  - intros s' tr. cbn [steps passes]. unfold_install.
    destruct (_validate_sources self s) as [[[[|]|?] x1] ?]; simpl;
      try discriminate.
    destruct (_copy_dotfiles self x1) as [[[[|]|?] x2] ?]; simpl;
      try discriminate.
    destruct (_verify_copy self x2) as [[[[|]|?] x3] ?]; simpl;
      try discriminate.
    destruct (_remove_existing_configs self x3) as [[[[|]|?] x4] ?]; simpl;
      try discriminate.
    destruct (_create_links self x4) as [[[[|]|?] x5] ?]; simpl;
      try discriminate.
    destruct (_install_tpm self x5) as [[[[|]|?] x6] ?]; simpl;
      try discriminate.
    destruct (_install_lazyvim self x6) as [[[[|]|?] x7] ?]; simpl;
      try discriminate.
    intros H. injection H as <- <-. eexists. split; [reflexivity|].
    norm_trace. reflexivity.
Qed.


Ltac no_success_leaf :=
  split;
  [ intros H; exfalso; break_in H; by_step_events
  | intros (s5 & t5 & H); cbn [firstn steps passes] in H;
    repeat match goal with
           | E : _ = (_, _, _) |- _ => rewrite E in H; clear E
           end;
    discriminate H ].

Ltac find_in :=
  match goal with
  | |- In ?x (?x :: _) => left; reflexivity
  | |- In _ (_ :: _) => right; find_in
  | |- In _ (_ ++ _) => apply in_or_app; first [left; find_in | right; find_in]
  | |- _ \/ _ => first [left; reflexivity | right; find_in]
  end.

Ltac success_leaf :=
  split;
  [ intros _; cbn [firstn steps passes];
    repeat match goal with
           | E : _ = (_, _, _) |- _ => rewrite E; clear E
           end;
    eexists; eexists; reflexivity
  | intros _; find_in ].

(** X4.  The spinner is told "Dotfiles installed successfully!" exactly
    when steps 1 to 5 have all returned [True], whatever happens next: a
    run in which a bootstrap step then fails or raises has reported that
    success before [install] returns [False]. *)
Theorem X4_success_is_reported_after_step_five :
  forall (self : DotfilesInstaller) (s : fsys),
    In dotfiles_success (trace_of (install self s))
    <-> exists s5 t, passes 0 (firstn 5 (steps self)) s = Some (s5, t).
Proof.
  intros self s.
  unfold install, core_block, third_party_block, with_spinner, bind, emit, ret,
    trace_of, dotfiles_success.
  pose proof (validate_sources_events self s) as N1.
  destruct (_validate_sources self s) as [[[[|]|?] x1] ?] eqn:E1;
    unfold trace_of in N1; simpl in N1; simpl;
    [| no_success_leaf | no_success_leaf].
  pose proof (copy_dotfiles_events self x1) as N2.
  destruct (_copy_dotfiles self x1) as [[[[|]|?] x2] ?] eqn:E2;
    unfold trace_of in N2; simpl in N2; simpl;
    [| no_success_leaf | no_success_leaf].
  pose proof (verify_copy_events self x2) as N3.
  destruct (_verify_copy self x2) as [[[[|]|?] x3] ?] eqn:E3;
    unfold trace_of in N3; simpl in N3; simpl;
    [| no_success_leaf | no_success_leaf].
  pose proof (remove_existing_configs_events self x3) as N4.
  destruct (_remove_existing_configs self x3) as [[[[|]|?] x4] ?] eqn:E4;
    unfold trace_of in N4; simpl in N4; simpl;
    [| no_success_leaf | no_success_leaf].
  pose proof (create_links_events self x4) as N5.
  destruct (_create_links self x4) as [[[[|]|?] x5] ?] eqn:E5;
    unfold trace_of in N5; simpl in N5; simpl;
    [| no_success_leaf | no_success_leaf].
  destruct (_install_tpm self x5) as [[[[|]|?] x6] ?]; simpl;
    [| success_leaf | success_leaf].
  destruct (_install_lazyvim self x6) as [[[[|]|?] x7] ?]; simpl;
    success_leaf.
Qed.

Lemma step_events_no_cycle (t : list event) :
  forallb step_event t = true -> filter is_spinner_cycle t = [].
Proof.
  induction t as [|ev t IH]; [reflexivity|].
  simpl. intros H. apply andb_prop in H. destruct H as [H1 H2].
  destruct ev; try discriminate H1; exact (IH H2).
Qed.

Ltac cycle_leaf :=
  repeat (rewrite ?filter_app; simpl);
  repeat match goal with
         | N : forallb step_event ?t = true
           |- context [filter is_spinner_cycle ?t] =>
             rewrite (step_events_no_cycle t N)
         end;
  reflexivity.

(** X13.  In every run of [install], also one that ends in an exception,
    each spinner that was started is released, and the first is released
    before the second is started: the two never overlap.  The second
    spinner is started exactly when steps 1 to 5 have all returned
    [True]. *)
Theorem X13_spinners_are_released_and_never_nested :
  forall (self : DotfilesInstaller) (s : fsys),
    filter is_spinner_cycle (trace_of (install self s))
    = [SpinnerEnter "Installing dotfiles..."; SpinnerExit]
        ++ match passes 0 (firstn 5 (steps self)) s with
           | Some _ => [SpinnerEnter "Installing third-party dots...";
                        SpinnerExit]
           | None => []
           end.
Proof.
  intros self s.
  unfold install, core_block, third_party_block, with_spinner, bind, emit, ret,
    trace_of.
  cbn [firstn steps passes].
  pose proof (validate_sources_events self s) as N1.
  destruct (_validate_sources self s) as [[[[|]|?] x1] ?];
    unfold trace_of in N1; simpl in N1; simpl;
    [| cycle_leaf | cycle_leaf].
  pose proof (copy_dotfiles_events self x1) as N2.
  destruct (_copy_dotfiles self x1) as [[[[|]|?] x2] ?];
    unfold trace_of in N2; simpl in N2; simpl;
    [| cycle_leaf | cycle_leaf].
  pose proof (verify_copy_events self x2) as N3.
  destruct (_verify_copy self x2) as [[[[|]|?] x3] ?];
    unfold trace_of in N3; simpl in N3; simpl;
    [| cycle_leaf | cycle_leaf].
  pose proof (remove_existing_configs_events self x3) as N4.
  destruct (_remove_existing_configs self x3) as [[[[|]|?] x4] ?];
    unfold trace_of in N4; simpl in N4; simpl;
    [| cycle_leaf | cycle_leaf].
  pose proof (create_links_events self x4) as N5.
  destruct (_create_links self x4) as [[[[|]|?] x5] ?];
    unfold trace_of in N5; simpl in N5; simpl;
    [| cycle_leaf | cycle_leaf].
  pose proof (install_tpm_events self x5) as N6.
  destruct (_install_tpm self x5) as [[[[|]|?] x6] ?];
    unfold trace_of in N6; simpl in N6; simpl;
    [| cycle_leaf | cycle_leaf].
  pose proof (install_lazyvim_events self x6) as N7.
  destruct (_install_lazyvim self x6) as [[[[|]|?] x7] ?];
    unfold trace_of in N7; simpl in N7; simpl; cycle_leaf.
Qed.

End InstallAsAWhole.

(** ** The bootstrap steps, over any implementation of the helpers *)

Section BootstrapAnyLibrary.
Context {P : Paths} {L : Library}.

(** X5.  On a real run each bootstrap step returns [True] exactly when its
    clone returned without raising.  What [remove] answered, before the
    clone (the old plugin manager, the staged configuration, the old
    backup) or after it (the [.git] directory of the starter), is not
    looked at: a refused removal never makes the step fail by itself. *)
Theorem X5_bootstrap_steps_succeed_when_the_clone_does :
  forall (cs : list string) (sp tp : list Path) (s : fsys),
    let self := Build_DotfilesInstaller false cs sp tp in
    (result_of (_install_tpm self s) = Ret true
     <-> In (Sys tpm_clone ADone) (trace_of (_install_tpm self s)))
    /\ (result_of (_install_lazyvim self s) = Ret true
        <-> In (Sys lazyvim_clone ADone) (trace_of (_install_lazyvim self s))).
Proof.
  intros cs sp tp s self. unfold self, tpm_clone, lazyvim_clone.
  split.
  - unfold _install_tpm. cbn [dry_run]. unfold_step.
    split_cases; unfold result_of, trace_of; simpl;
      (split; [intros H; try discriminate H; tauto
              | intros H; try reflexivity; exfalso; pick_event H]).
  - unfold _install_lazyvim. cbn [dry_run]. unfold_step.
    split_cases; unfold result_of, trace_of; simpl;
      (split; [intros H; try discriminate H; tauto
              | intros H; try reflexivity; exfalso; pick_event H]).
Qed.

End BootstrapAnyLibrary.

(** ** More on the filesystem model *)

Module FsMore.
Import Fs FsFacts.

Lemma alter_unlink_succeeds (n : node) (p : Path) (x : node) :
  p <> [] -> lookup n p = Some x ->
  exists n', alter false n p None = Some n'.
Proof.
  revert n; induction p as [|a r IH]; intros n Hp Hx; [congruence|].
  simpl in Hx |- *. destruct n as [d|t|es]; try discriminate.
  destruct r as [|b r]; [eexists; reflexivity|].
  destruct (assoc a es) as [c|]; [|discriminate].
  destruct (IH c ltac:(discriminate) Hx) as [c' ->].
  eexists; reflexivity.
Qed.

Lemma alter_put_succeeds (b : bool) (n : node) (q : Path)
      (es : list (string * node)) (x : string) (v : node) :
  lookup n q = Some (Dir es) ->
  exists n', alter b n (q ++ [x]) (Some v) = Some n'.
Proof.
  revert n; induction q as [|y q IH]; intros n Hq.
  - simpl in Hq. injection Hq as ->. simpl. eexists; reflexivity.
  - simpl in Hq. destruct n as [d|t|es0]; try discriminate.
    destruct (assoc y es0) as [c|] eqn:Ea; [|discriminate].
    destruct (IH c Hq) as [c' Hc].
    change ((y :: q) ++ [x]) with (y :: (q ++ [x])).
    cbn [alter]. rewrite Ea, Hc.
    destruct (q ++ [x]) eqn:E; [|eexists; reflexivity].
    destruct q; discriminate E.
Qed.

(** [alter] leaves a directory a directory unless it lies at or below
    its path. *)
Lemma lookup_alter_dir (b : bool) (n n' : node) (p q : Path)
      (v : option node) (es : list (string * node)) :
  alter b n p v = Some n' ->
  lookup n q = Some (Dir es) -> is_prefix p q = false ->
  exists es', lookup n' q = Some (Dir es').
Proof.
  revert n n' q; induction p as [|x r IH]; intros n n' q H Hq Hp;
    [discriminate|].
  simpl in H. destruct n as [d|t|es0]; try discriminate.
  destruct q as [|y q].
  - destruct r as [|z r].
    + injection H as <-. eexists; reflexivity.
    + destruct (match assoc x es0 with
                | Some c => Some c
                | None => if b then Some (Dir []) else None
                end) as [c|]; try discriminate.
      destruct (alter b c (z :: r) v) as [c'|]; try discriminate.
      injection H as <-. eexists; reflexivity.
  - simpl in Hq, Hp.
    destruct (String.eqb x y) eqn:Exy.
    + apply String.eqb_eq in Exy. subst y. simpl in Hp.
      destruct r as [|z r]; [discriminate|].
      destruct (assoc x es0) as [c0|] eqn:Ea; [|discriminate].
      destruct (alter b c0 (z :: r) v) as [c'|] eqn:E; try discriminate.
      injection H as <-. cbn [lookup]. rewrite assoc_set_entry_same.
      exact (IH _ _ _ E Hq Hp).
    + assert (Eyx : String.eqb y x = false)
        by (rewrite String.eqb_sym; exact Exy).
      assert (Hn : exists es', n' = Dir es' /\ assoc y es' = assoc y es0).
      { destruct r as [|z r].
        - injection H as <-. eexists; split; [reflexivity|].
          destruct v; [now apply assoc_set_entry_other
                      | now apply assoc_unlink_other].
        - destruct (match assoc x es0 with
                    | Some c => Some c
                    | None => if b then Some (Dir []) else None
                    end) as [c|]; try discriminate.
          destruct (alter b c (z :: r) v) as [c'|]; try discriminate.
          injection H as <-. eexists; split; [reflexivity|].
          now apply assoc_set_entry_other. }
      destruct Hn as (es' & -> & Hes). cbn [lookup]. rewrite Hes.
      exists es. exact Hq.
Qed.

Lemma altered_dir (p q : Path) (s s' : state) (es : list (string * node)) :
  altered_at p s s' ->
  lookup (root s) q = Some (Dir es) -> is_prefix p q = false ->
  exists es', lookup (root s') q = Some (Dir es').
Proof.
  intros [->|(b & v & r & H & ->)] Hq Hp; [now exists es|].
  exact (lookup_alter_dir _ _ _ _ _ _ _ H Hq Hp).
Qed.

Lemma altered_meta (p : Path) (s s' : state) :
  altered_at p s s' ->
  readonly s' = readonly s /\ remote s' = remote s
  /\ git_available s' = git_available s.
Proof.
  intros [->|(b & v & r & H & ->)]; repeat split.
Qed.

Lemma reach_meta (ps : list Path) (s s' : state) :
  reach ps s s' ->
  readonly s' = readonly s /\ remote s' = remote s
  /\ git_available s' = git_available s.
Proof.
  intros R. induction R as [s|s s1 s' p Hp Ha R IH]; [repeat split|].
  destruct (altered_meta _ _ _ Ha) as (A1 & A2 & A3).
  destruct IH as (B1 & B2 & B3). repeat split; congruence.
Qed.

Lemma remove_keeps_absent (p q : Path) (s s' : state) (b : bool) :
  remove p s = (b, s') ->
  lookup (root s) q = None -> lookup (root s') q = None.
Proof.
  unfold remove. intros H Hq.
  destruct (lookup (root s) p); [|injection H as _ <-; exact Hq].
  destruct (blocked s p); [injection H as _ <-; exact Hq|].
  destruct (alter false (root s) p None) as [r|] eqn:E;
    injection H as _ <-; [|exact Hq].
  unfold with_root; cbn [root].
  destruct (lookup r q) as [y|] eqn:Ey; [|reflexivity].
  destruct (unlink_lookup_back _ _ _ _ _ E Ey) as (y' & Hy & _). congruence.
Qed.

Lemma remove_gone (p : Path) (s s' : state) :
  remove p s = (true, s') -> lookup (root s') p = None.
Proof.
  unfold remove. intros H.
  destruct (lookup (root s) p) eqn:Ep; [|injection H as <-; exact Ep].
  destruct (blocked s p); [discriminate|].
  destruct (alter false (root s) p None) as [r|] eqn:E; [|discriminate].
  injection H as <-. unfold with_root; cbn [root].
  pose proof (lookup_alter_below _ _ _ _ [] _ E) as B.
  now rewrite app_nil_r in B.
Qed.

Lemma remove_unblocked (p : Path) (s : state) :
  readonly s = [] -> p <> [] -> fst (remove p s) = true.
Proof.
  intros Hr Hp. unfold remove, blocked. rewrite Hr.
  destruct (lookup (root s) p) as [x|] eqn:Ep; [|reflexivity].
  cbn [existsb].
  destruct (alter_unlink_succeeds _ _ _ Hp Ep) as [n' ->]. reflexivity.
Qed.

(** A path that leads through real directories to something that is
    not a link resolves to it, and no link is followed on the way. *)
Lemma follow_real (f : nat) (top : node) (p : Path) :
  forall (left : nat) (cur x : node),
    lookup cur p = Some x -> is_link x = false ->
    follow f top left cur p = Some (left, x).
Proof.
  induction p as [|y r IH]; intros left cur x H Hx.
  - simpl in H. injection H as <-. apply follow_nil.
  - rewrite follow_cons. simpl in H.
    destruct cur as [d|t|es]; try discriminate H.
    destruct (assoc y es) as [c|]; [|discriminate H].
    destruct c as [d|t|es1]; try exact (IH _ _ _ H Hx).
    destruct r; simpl in H; [|discriminate H].
    injection H as <-. discriminate Hx.
Qed.

Lemma stat_plain (n : node) (p : Path) (x : node) :
  lookup n p = Some x -> is_link x = false -> stat n p = Some x.
Proof.
  intros H Hx. unfold stat. now rewrite (follow_real _ _ _ _ _ _ H Hx).
Qed.

(** Under a real directory, a name that has no entry does not resolve. *)
Lemma follow_absent (f : nat) (top : node) (p : Path) (x : string) :
  forall (left : nat) (cur : node) (es : list (string * node)),
    lookup cur p = Some (Dir es) -> assoc x es = None ->
    follow f top left cur (p ++ [x]) = None.
Proof.
  induction p as [|y r IH]; intros left cur es H Hx.
  - simpl in H. injection H as ->. simpl. rewrite follow_cons.
    now rewrite Hx.
  - change ((y :: r) ++ [x]) with (y :: (r ++ [x])).
    rewrite follow_cons. simpl in H.
    destruct cur as [d|t|es0]; try discriminate H.
    destruct (assoc y es0) as [c|]; [|discriminate H].
    destruct c as [d|t|es1]; try exact (IH _ _ _ H Hx).
    destruct r; simpl in H; discriminate H.
Qed.

Lemma stat_absent_child (n : node) (p : Path) (x : string)
      (es : list (string * node)) :
  lookup n p = Some (Dir es) -> lookup n (p ++ [x]) = None ->
  stat n (p ++ [x]) = None.
Proof.
  intros H Hx. unfold stat.
  rewrite (follow_absent _ _ _ x _ _ _ H); [reflexivity|].
  rewrite lookup_app, H in Hx. simpl in Hx.
  destruct (assoc x es); [discriminate Hx | reflexivity].
Qed.

End FsMore.

(** ** Steps 2, 4 and 5 on the filesystem model *)

Section MoreStepsOnModel.
Context {P : Paths}.
Import Fs FsFacts FsMore.

(** X6.  When [_copy_dotfiles] has returned [True] on a real run (source
    tree and staging directory apart), the staging directory is the source
    tree as it was, path for path: nothing that was staged before is left,
    and nothing outside the staging directory has changed. *)
Theorem X6_copy_dotfiles_stages_exactly_the_source_tree :
  forall (comps : list string) (s : Fs.state),
    Fs.disjoint HYPRDOTS_DOTFILES_DIR USER_DOTFILES_DIR = true ->
    result_of (_copy_dotfiles (installer_with false comps) s) = Ret true ->
    (forall r,
        Fs.lookup
          (Fs.root (state_of (_copy_dotfiles (installer_with false comps) s)))
          (USER_DOTFILES_DIR ++ r)
        = Fs.lookup (Fs.root s) (HYPRDOTS_DOTFILES_DIR ++ r))
    /\ (forall q,
           Fs.disjoint USER_DOTFILES_DIR q = true ->
           Fs.lookup
             (Fs.root (state_of (_copy_dotfiles (installer_with false comps) s)))
             q
           = Fs.lookup (Fs.root s) q).
Proof.
  intros comps s Hd Hr. split.
  - intros r.
    exact (copy_dotfiles_made (installer_with false comps) s r eq_refl Hd Hr).
  - intros q Hq.
    apply (reach_frame _ _ _ _
             (copy_dotfiles_reach (installer_with false comps) s)).
    intros p [<-|[]]. exact Hq.
Qed.

Lemma remove_loop_keeps_absent (comps : list string) (s : state) (q : Path) :
  lookup (root s) q = None ->
  lookup (root (state_of (remove_loop comps s))) q = None.
Proof.
  revert s; induction comps as [|i rest IH]; intros s Hq; simpl; [exact Hq|].
  unfold bind at 1, do_remove. simpl.
  destruct (Fs.remove (USER_CONFIGS_DIR // i) s) as [[|] s1] eqn:E; simpl.
  - specialize (IH s1 (remove_keeps_absent _ _ _ _ _ E Hq)).
    destruct (remove_loop rest _) as [[r s'] tr]. exact IH.
  - exact (remove_keeps_absent _ _ _ _ _ E Hq).
Qed.

Lemma remove_loop_removed (comps : list string) (s : state) :
  let '(_, s', tr) := remove_loop comps s in
  forall n, In (removed_ok n) tr -> lookup (root s') (config_path n) = None.
Proof.
  revert s; induction comps as [|i rest IH]; intros s; simpl;
    [intros n []|].
  unfold bind at 1, do_remove. fold (config_path i). simpl.
  destruct (Fs.remove (config_path i) s) as [[|] s1] eqn:E; simpl.
  - pose proof (remove_loop_keeps_absent rest s1 _ (remove_gone _ _ _ E)) as K.
    specialize (IH s1).
    destruct (remove_loop rest _) as [[r s'] tr].
    unfold state_of in K. simpl in *.
    intros n [H|H]; [|exact (IH n H)].
    unfold removed_ok in H. injection H as H. now rewrite <- H.
  - unfold removed_ok. intros n [H|[H|[]]]; discriminate H.
Qed.


Lemma link_loop_relinks (comps : list string) (acc : list (Path * Path))
      (s : state) :
  (forall n, In n comps ->
             lookup (root s) (config_path n) = Some (Symlink (stage_path n))) ->
  link_loop comps acc s = (Ret acc, s, map linked_ok comps).
Proof.
  revert acc; induction comps as [|c rest IH]; intros acc H; simpl;
    [reflexivity|].
  unfold bind at 1, do_symlink. fold (stage_path c) (config_path c). simpl.
  unfold Fs.create_symlink. rewrite (H c (or_introl eq_refl)).
  rewrite path_eqb_refl. simpl.
  rewrite IH; [reflexivity|]. intros n Hn. apply H. now right.
Qed.

(** X8.  [_create_links] can be run again: once it has returned [True],
    a second real run on the filesystem it left calls [create_symlink] for
    every component again, gets [True] each time, returns [True], and
    leaves the filesystem exactly as it found it. *)
Theorem X8_create_links_can_be_repeated :
  forall (comps : list string) (s : Fs.state),
    result_of (_create_links (installer_with false comps) s) = Ret true ->
    let s1 := state_of (_create_links (installer_with false comps) s) in
    _create_links (installer_with false comps) s1
    = (Ret true, s1,
       [LogInfo "Creating system links.";
        SpinnerUpdate "Linking new dotfiles..."] ++ map linked_ok comps).
Proof.
  intros comps s Hr s1.
  pose proof (create_links_true_linked comps s Hr) as K. fold s1 in K.
  rewrite create_links_unfold. rewrite (link_loop_relinks comps [] s1 K).
  reflexivity.
Qed.

End MoreStepsOnModel.

(** ** Steps 4 and 5 together *)

Section RemoveThenLink.
Context {P : Paths}.
Import Fs FsFacts FsMore.

Lemma is_prefix_snoc_self (p : Path) (x : string) :
  is_prefix (p ++ [x]) p = false.
Proof.
  induction p as [|y p IH]; simpl; [reflexivity|].
  now rewrite String.eqb_refl, IH.
Qed.

Lemma config_path_inj (n m : string) :
  config_path n = config_path m -> n = m.
Proof.
  unfold config_path, joinpath. intros H.
  apply app_inv_head in H. now injection H.
Qed.

Lemma remove_loop_unblocked (comps : list string) (s : state) :
  readonly s = [] -> result_of (remove_loop comps s) = Ret true.
Proof.
  revert s; induction comps as [|i rest IH]; intros s Hr; simpl;
    [reflexivity|].
  unfold bind at 1, do_remove. fold (config_path i). simpl.
  assert (Hok : fst (Fs.remove (config_path i) s) = true).
  { apply remove_unblocked; [exact Hr|].
    unfold config_path, joinpath. intros E. now apply app_eq_nil in E. }
  destruct (Fs.remove (config_path i) s) as [ok s1] eqn:E.
  simpl in Hok. subst ok. simpl.
  assert (Hr1 : readonly s1 = []).
  { rewrite (proj1 (altered_meta _ _ _ (remove_altered _ _ _ _ E))).
    exact Hr. }
  specialize (IH s1 Hr1). destruct (remove_loop rest _) as [[r s'] tr].
  exact IH.
Qed.

Lemma link_step_ready (names : list string) (c : string) (s : state) :
  ready_for_links names s -> In c names ->
  exists s1,
    Fs.create_symlink (stage_path c) (config_path c) s = (true, s1)
    /\ ready_for_links names s1.
Proof.
  intros (Hr & [es Hc] & Hn) Hin.
  unfold Fs.create_symlink.
  destruct (Hn c Hin) as [E|E]; rewrite E.
  - unfold blocked. rewrite Hr. cbn [existsb].
    destruct (alter_put_succeeds false (root s) USER_CONFIGS_DIR es c
                (Symlink (stage_path c)) Hc) as [r A].
    fold (joinpath USER_CONFIGS_DIR c) in A. fold (config_path c) in A.
    rewrite A. exists (with_root s r). split; [reflexivity|].
    split; [exact Hr|]. split.
    + apply (lookup_alter_dir _ _ _ _ _ _ _ A Hc).
      apply is_prefix_snoc_self.
    + intros n Hn'. unfold with_root; cbn [root].
      destruct (String.eqb c n) eqn:Ecn.
      * apply String.eqb_eq in Ecn. subst n. right.
        pose proof (lookup_alter_below _ _ _ _ [] _ A) as B.
        now rewrite app_nil_r in B.
      * assert (D : disjoint (config_path c) (config_path n) = true).
        { unfold config_path, joinpath. now apply disjoint_siblings. }
        apply disjoint_spec in D. destruct D as [D1 D2].
        rewrite (lookup_alter_frame _ _ _ _ _ _ A D1 D2). now apply Hn.
  - rewrite path_eqb_refl. exists s. split; [reflexivity|].
    split; [exact Hr|]. split; [now exists es | exact Hn].
Qed.

Lemma link_loop_ready (names rest : list string)
      (acc : list (Path * Path)) (s : state) :
  (forall c, In c rest -> In c names) ->
  ready_for_links names s ->
  let '(r, s', _) := link_loop rest acc s in
  r = Ret acc
  /\ ready_for_links names s'
  /\ forall n, In n rest ->
               lookup (root s') (config_path n)
               = Some (Symlink (stage_path n)).
Proof.
  revert acc s; induction rest as [|c rest IH]; intros acc s Hsub Hready;
    simpl; [split; [reflexivity|split; [exact Hready | intros n []]]|].
  unfold bind at 1, do_symlink. fold (stage_path c) (config_path c). simpl.
  destruct (link_step_ready names c s Hready (Hsub c (or_introl eq_refl)))
    as (s1 & E & Hready1).
  rewrite E. simpl.
  pose proof (link_loop_keeps_link rest acc s1 _ _
                (create_symlink_made _ _ _ _ E)) as Hc.
  specialize (IH acc s1 (fun c' H => Hsub c' (or_intror H)) Hready1).
  destruct (link_loop rest acc _) as [[r s'] tr].
  unfold state_of in Hc. simpl in Hc.
  destruct IH as (Hr & Hready' & Hl).
  split; [exact Hr|]. split; [exact Hready'|].
  intros n [<-|Hn]; [exact Hc | exact (Hl n Hn)].
Qed.

Lemma reach_config_dir (comps : list string) (s s' : state)
      (es : list (string * node)) :
  reach (map config_path comps) s s' ->
  lookup (root s) USER_CONFIGS_DIR = Some (Dir es) ->
  exists es', lookup (root s') USER_CONFIGS_DIR = Some (Dir es').
Proof.
  intros R. revert es.
  induction R as [s0|s0 s1 s2 p Hp Ha R IH]; intros es0 Hc;
    [now exists es0|].
  apply in_map_iff in Hp. destruct Hp as (n & <- & _).
  destruct (altered_dir _ _ _ _ _ Ha Hc (is_prefix_snoc_self _ n))
    as [es1 H1].
  exact (IH es1 H1).
Qed.

(** X9.  On a filesystem where no path is protected and the live
    configuration directory is a directory, steps 4 and 5 of a real run
    cannot fail, whatever the configuration directory held: step 4
    returns [True], step 5 run on what step 4 left returns [True], and
    every component's configuration entry is then a symbolic link to its
    staged path. *)
Theorem X9_remove_then_link_succeeds :
  forall (comps : list string) (s : Fs.state) (es : list (string * Fs.node)),
    Fs.readonly s = [] ->
    Fs.lookup (Fs.root s) USER_CONFIGS_DIR = Some (Fs.Dir es) ->
    let run4 := _remove_existing_configs (installer_with false comps) s in
    let run5 := _create_links (installer_with false comps) (state_of run4) in
    result_of run4 = Ret true
    /\ result_of run5 = Ret true
    /\ forall n, In n comps ->
                 Fs.lookup (Fs.root (state_of run5)) (config_path n)
                 = Some (Fs.Symlink (stage_path n)).
Proof.
  intros comps s es Hr Hc run4 run5.
  assert (Hrun4 : run4 = after_events
                           [LogInfo "Removing existing configs.";
                            SpinnerUpdate "Removing existing configs..."]
                           (remove_loop comps s)).
  { unfold run4, _remove_existing_configs; simpl.
    unfold bind at 1, emit; simpl. unfold bind at 1; simpl.
    destruct (remove_loop comps _) as [[r s'] tr]. reflexivity. }
  assert (R4 : result_of run4 = Ret true).
  { rewrite Hrun4. pose proof (remove_loop_unblocked comps s Hr) as H.
    destruct (remove_loop comps _) as [[r s'] tr]. exact H. }
  assert (Hready : ready_for_links comps (state_of run4)).
  { pose proof (remove_existing_configs_reach (installer_with false comps) s)
      as R. fold run4 in R.
    split; [|split].
    - rewrite (proj1 (reach_meta _ _ _ R)). exact Hr.
    - exact (reach_config_dir _ _ _ es R Hc).
    - intros n Hn. left.
      pose proof (remove_loop_removed comps s) as K.
      pose proof (remove_loop_spec comps s) as G.
      rewrite Hrun4 in R4 |- *.
      destruct (remove_loop comps _) as [[r s'] tr].
      unfold after_events, result_of, state_of in *. simpl in *.
      apply K.
      destruct G as [(_ & _ & ->) | (pre & c & post & _ & -> & _)];
        [|discriminate R4].
      now apply in_map. }
  split; [exact R4|].
  unfold run5. rewrite create_links_unfold.
  pose proof (link_loop_ready comps comps [] (state_of run4)
                (fun c H => H) Hready) as K.
  destruct (link_loop comps [] _) as [[r s'] tr].
  destruct K as (-> & _ & Hl).
  unfold result_of, state_of. simpl. split; [reflexivity | exact Hl].
Qed.

End RemoveThenLink.

(** ** What the bootstrap steps leave behind *)

Section BootstrapOnModel.
Context {P : Paths}.
Import Fs FsFacts FsMore.

Lemma run_command_done (url : string) (dest : Path) (s s' : state) :
  Fs.run_command (GitClone url dest) s = (None, s') ->
  exists repo,
    remote s url = Some repo
    /\ forall r, lookup (root s') (dest ++ r) = lookup (Dir repo) r.
Proof.
  unfold Fs.run_command. intros H.
  destruct (git_available s); simpl in H; [|discriminate].
  destruct (remote s url) as [repo|]; [|discriminate].
  exists repo. split; [reflexivity|].
  assert (K : clone_into dest repo s = (None, s') ->
              forall r, lookup (root s') (dest ++ r) = lookup (Dir repo) r).
  { unfold clone_into. intros C.
    destruct (blocked s dest); [discriminate|].
    destruct (alter true (root s) dest (Some (Dir repo))) as [r'|] eqn:A;
      [|discriminate].
    injection C as <-. intros r. unfold with_root; cbn [root].
    exact (lookup_alter_below _ _ _ _ r _ A). }
  destruct (lookup (root s) dest) as [[d|t|[|e es]]|];
    try discriminate; exact (K H).
Qed.

Lemma git_dir_sibling (x : string) (r : Path) :
  String.eqb ".git" x = false ->
  disjoint git_dir (lazyvim_dir ++ x :: r) = true.
Proof.
  intros H. unfold git_dir, joinpath. now apply disjoint_siblings.
Qed.


(** X11.  When step 7 has returned [True] on a real run, everything in the
    staged editor configuration other than [.git] is what the clone
    fetched; and if no path is protected, [.git] itself is gone:
    [Path.exists] does not see it any more. *)
Theorem X11_lazyvim_directory_is_the_clone_without_git :
  forall (cs : list string) (sp tp : list Path) (s : Fs.state),
    let self := Build_DotfilesInstaller false cs sp tp in
    result_of (_install_lazyvim self s) = Ret true ->
    exists repo,
      Fs.remote s lazyvim_url = Some repo
      /\ (forall x r,
             String.eqb ".git" x = false ->
             Fs.lookup (Fs.root (state_of (_install_lazyvim self s)))
                       (lazyvim_dir ++ x :: r)
             = Fs.lookup (Fs.Dir repo) (x :: r))
      /\ (Fs.readonly s = [] ->
          Fs.path_exists git_dir (state_of (_install_lazyvim self s)) = false).
Proof.
  intros cs sp tp s self.
  set (seen := Fs.path_exists).
  assert (Hseen : seen = Fs.path_exists) by reflexivity. clearbody seen.
  unfold self, _install_lazyvim. cbn [dry_run].
  unfold bind, emit, ret, p_exists, do_remove, do_run, do_rename,
    try_except, raising.
  fs_cases; unfold result_of, state_of; simpl; intros Hres;
    try discriminate Hres;
    match goal with
    | E : Fs.run_command (GitClone _ _) ?sk = (None, ?sk') |- _ =>
        destruct (run_command_done _ _ _ _ E) as (repo & Hrem & Hrepo);
        assert (Rk : reach [lazyvim_dir; nvim_config_dir; backup_dir; git_dir]
                           s sk) by reach_tac;
        assert (Rk' : reach [lazyvim_dir; nvim_config_dir; backup_dir; git_dir]
                            s sk') by reach_tac;
        exists repo; split;
        [ pose proof (proj1 (proj2 (reach_meta _ _ _ Rk))); congruence
        | split ]
    end.
  all: try (intros x r Hx;
            match goal with
            | E : Fs.remove git_dir _ = (_, _) |- _ =>
                rewrite (altered_frame _ _ _ _ (remove_altered _ _ _ _ E)
                           (git_dir_sibling x r Hx))
            | _ => idtac
            end; apply Hrepo).
  all: intros Hro; subst seen;
    match goal with
    | E : Fs.remove git_dir ?sk' = (?b, ?sf) |- _ =>
        assert (Hro' : readonly sk' = [])
          by (rewrite (proj1 (reach_meta _ _ _ Rk')); exact Hro);
        assert (Hb : fst (Fs.remove git_dir sk') = true)
          by (apply remove_unblocked;
              [exact Hro'
              | unfold git_dir, joinpath; intros E0;
                now apply app_eq_nil in E0]);
        rewrite E in Hb; simpl in Hb; subst b;
        pose proof (Hrepo []) as Hd; rewrite app_nil_r in Hd;
        destruct (altered_dir _ _ _ _ _ (remove_altered _ _ _ _ E) Hd
                    (is_prefix_snoc_self lazyvim_dir ".git")) as [es' Hes'];
        unfold Fs.path_exists, git_dir, joinpath;
        rewrite (stat_absent_child _ _ _ _ Hes' (remove_gone _ _ _ E));
        reflexivity
    | _ => assumption
    end.
Qed.

Lemma move_moved (a b : Path) (x : node) (s s' : state) :
  move a b x s = (None, s') -> disjoint a b = true ->
  lookup (root s') b = Some x /\ lookup (root s') a = None.
Proof.
  unfold move. intros H D. apply disjoint_spec in D. destruct D as [D1 D2].
  destruct (alter false (root s) a None) as [r1|] eqn:E1; [|discriminate].
  destruct (alter false r1 b (Some x)) as [r2|] eqn:E2; [|discriminate].
  injection H as <-. unfold with_root; cbn [root]. split.
  - pose proof (lookup_alter_below _ _ _ _ [] _ E2) as B.
    now rewrite app_nil_r in B.
  - rewrite (lookup_alter_frame _ _ _ _ _ _ E2 D2 D1).
    pose proof (lookup_alter_below _ _ _ _ [] _ E1) as B.
    now rewrite app_nil_r in B.
Qed.

Lemma path_rename_moved (a b : Path) (x : node) (s s' : state) :
  path_rename a b s = (None, s') ->
  lookup (root s) a = Some x -> disjoint a b = true ->
  lookup (root s') b = Some x /\ lookup (root s') a = None.
Proof.
  unfold path_rename. intros H Ha D. rewrite Ha in H.
  destruct (blocked s a || blocked s b); [discriminate|].
  destruct (path_eqb a b) eqn:E.
  { apply path_eqb_eq in E. subst b. unfold disjoint in D.
    rewrite is_prefix_refl in D. discriminate. }
  destruct (is_prefix a b); [discriminate|].
  destruct (lookup (root s) b) as [y|]; [|exact (move_moved _ _ _ _ _ H D)].
  destruct x as [d|t|es]; destruct y as [d'|t'|[|e' es']];
    try discriminate; exact (move_moved _ _ _ _ _ H D).
Qed.

Lemma live_vs_backup : disjoint nvim_config_dir backup_dir = true.
Proof.
  unfold nvim_config_dir, backup_dir, joinpath.
  now apply (disjoint_siblings USER_CONFIGS_DIR "nvim" "nvim.backup" [] []).
Qed.

Lemma staged_phase_model (k : M bool) (s : state) :
  exists s1,
    reach [lazyvim_dir] s s1
    /\ result_of (lazyvim_staged_then k s) = result_of (k s1)
    /\ state_of (lazyvim_staged_then k s) = state_of (k s1).
Proof.
  unfold lazyvim_staged_then, bind, p_exists, do_remove, ret.
  simpl.
  destruct (Fs.path_exists lazyvim_dir s).
  - destruct (Fs.remove lazyvim_dir s) as [b s1] eqn:R. exists s1.
    split; [|cbn; destruct (k s1) as [[r s'] t]; split; reflexivity].
    apply (reach_one _ lazyvim_dir); [now left|].
    exact (remove_altered _ _ _ _ R).
  - exists s.
    split; [apply reach_refl|cbn; destruct (k s) as [[r s'] t]; split; reflexivity].
Qed.

(** The backup phase when the live configuration is a real file or
    directory: the rename raises, or the rest of the step starts with the
    old configuration under the backup path and nothing under the live
    one. *)
Lemma backup_phase_model (k : M bool) (s1 : state) (x : node) :
  lookup (root s1) nvim_config_dir = Some x -> is_link x = false ->
  (exists e, result_of (lazyvim_backup_then k s1) = Raise e)
  \/ exists s3,
       result_of (lazyvim_backup_then k s1) = result_of (k s3)
       /\ state_of (lazyvim_backup_then k s1) = state_of (k s3)
       /\ lookup (root s3) backup_dir = Some x
       /\ lookup (root s3) nvim_config_dir = None.
Proof.
  intros Hx Hl.
  assert (He : Fs.path_exists nvim_config_dir s1 = true).
  { unfold Fs.path_exists. now rewrite (stat_plain _ _ _ Hx Hl). }
  pose proof live_vs_backup as D.
  assert (D' : disjoint backup_dir nvim_config_dir = true)
    by (now rewrite disjoint_sym).
  unfold lazyvim_backup_then, bind, p_exists, do_remove, do_rename, emit,
    ret, raising.
  simpl. rewrite He.
  destruct (Fs.path_exists backup_dir s1).
  - destruct (Fs.remove backup_dir s1) as [b s2] eqn:R.
    assert (Hx2 : lookup (root s2) nvim_config_dir = Some x).
    { rewrite (altered_frame _ _ _ _ (remove_altered _ _ _ _ R) D').
      exact Hx. }
    destruct (Fs.path_rename nvim_config_dir backup_dir s2)
      as [[e|] s3] eqn:E.
    + left. exists e. reflexivity.
    + right. exists s3.
      destruct (path_rename_moved _ _ _ _ _ E Hx2 D) as [M1 M2].
      cbn. destruct (k s3) as [[r s'] t]. repeat split; assumption.
  - destruct (Fs.path_rename nvim_config_dir backup_dir s1)
      as [[e|] s3] eqn:E.
    + left. exists e. reflexivity.
    + right. exists s3.
      destruct (path_rename_moved _ _ _ _ _ E Hx D) as [M1 M2].
      cbn. destruct (k s3) as [[r s'] t]. repeat split; assumption.
Qed.


End BootstrapOnModel.

(** ** The further properties on the concrete machines *)

Section MoreWitnesses.
Import Demo.

Lemma X3_witness :
  result_of (install (L := spec_library) (__init__ false) fresh) = Ret true.
Proof.
  pose proof (@X3_install_succeeds_when_all_steps_do Demo.paths spec_library
                (__init__ false) fresh) as [A _].
  destruct (passes (L := spec_library) 0 (steps (__init__ false)) fresh)
    as [[s7 t]|] eqn:E; [|vm_compute in E; discriminate E].
  rewrite (A s7 t eq_refl). reflexivity.
Defined.

Lemma X4_witness :
  In dotfiles_success
     (trace_of (install (L := spec_library) (__init__ false) unplugged))
  /\ result_of (install (L := spec_library) (__init__ false) unplugged)
     = Ret false.
Proof.
  split; [|vm_compute; reflexivity].
  apply (proj2 (@X4_success_is_reported_after_step_five Demo.paths
                  spec_library (__init__ false) unplugged)).
  destruct (passes (L := spec_library) 0
              (firstn 5 (steps (__init__ false))) unplugged)
    as [[s5 t]|] eqn:E; [|vm_compute in E; discriminate E].
  now exists s5, t.
Defined.

Lemma X6_witness :
  Fs.lookup
    (Fs.root (state_of (_copy_dotfiles (L := spec_library)
                                       (installer_with false registry)
                                       dangling)))
    (USER_DOTFILES_DIR ++ ["nvim"])
  = None
  /\ Fs.lookup
       (Fs.root (state_of (_copy_dotfiles (L := spec_library)
                                          (installer_with false registry)
                                          dangling)))
       (USER_DOTFILES_DIR ++ ["hypr"; "config"])
     = Some (Fs.File "# hypr").
Proof.
  assert (Hr : result_of (_copy_dotfiles (L := spec_library)
                            (installer_with false registry) dangling)
               = Ret true) by (vm_compute; reflexivity).
  destruct (@X6_copy_dotfiles_stages_exactly_the_source_tree Demo.paths
              registry dangling eq_refl Hr) as [A _].
  split.
  - rewrite (A ["nvim"]). vm_compute. reflexivity.
  - rewrite (A ["hypr"; "config"]). vm_compute. reflexivity.
Defined.


Lemma X8_witness :
  result_of
    (_create_links (L := spec_library) (installer_with false five)
       (state_of (_create_links (L := spec_library)
                                (installer_with false five) half_staged)))
  = Ret true.
Proof.
  assert (Hr : result_of (_create_links (L := spec_library)
                            (installer_with false five) half_staged)
               = Ret true) by (vm_compute; reflexivity).
  pose proof (@X8_create_links_can_be_repeated Demo.paths five half_staged Hr)
    as H.
  cbv zeta in H. rewrite H. reflexivity.
Defined.

Lemma X9_witness :
  Fs.lookup
    (Fs.root
       (state_of
          (_create_links (L := spec_library) (installer_with false five)
             (state_of (_remove_existing_configs (L := spec_library)
                          (installer_with false five) occupied)))))
    (config_path "two")
  = Some (Fs.Symlink (stage_path "two")).
Proof.
  pose proof (@X9_remove_then_link_succeeds Demo.paths five occupied
                [("two", Fs.File "2"); ("four", Fs.File "4")]
                eq_refl eq_refl) as H.
  cbv zeta in H. destruct H as (_ & _ & H).
  apply H. simpl; tauto.
Defined.


Lemma X11_witness :
  Fs.lookup
    (Fs.root (state_of (_install_lazyvim (L := spec_library) (__init__ false)
                                         fresh)))
    (lazyvim_dir ++ ["init.lua"])
  = Some (Fs.File "require('config.lazy')")
  /\ Fs.path_exists git_dir
       (state_of (_install_lazyvim (L := spec_library) (__init__ false)
                                   fresh))
     = false.
Proof.
  assert (Hr : result_of (_install_lazyvim (L := spec_library)
                            (__init__ false) fresh)
               = Ret true) by (vm_compute; reflexivity).
  destruct (@X11_lazyvim_directory_is_the_clone_without_git Demo.paths
              registry
              (source_dotfiles_components_paths (__init__ false))
              (target_dotfiles_components_paths (__init__ false))
              fresh Hr) as (repo & Hrepo & A & B).
  vm_compute in Hrepo. injection Hrepo as <-.
  split; [exact (A "init.lua" [] eq_refl) | exact (B eq_refl)].
Defined.


End MoreWitnesses.
